(** * Zero-of-functions solver: a shallow embedding of [ZOF_CLI.py] and [app.py]

    The six root-finding loops of [ZOF_CLI.py], the three solvers and the
    Newton branch of [index] in [app.py], and the two [make_function]
    wrappers are transcribed as Rocq functions.  The loops are written
    over an interface [Arith] of the arithmetic they use; its instance is
    binary64 floating point, what a Python [float] is.

    Around them stand the two front ends: the console session of
    [ZOF_CLI.py] ([print_menu], [read_float], [main]) as a function of the
    lines on standard input, and the request handler [index] of [app.py] as
    a function of the request method and form.  What Python and Flask
    supply ([eval], [float] and [int] on strings, [str] of an exception,
    [render_template]) is a parameter of these definitions. *)

From Stdlib Require Import ZArith List String Ascii Bool Lia.
From Stdlib Require Import Floats QArith Qabs Lqa.
From Stdlib Require Import DecimalString.
Import ListNotations.

Set Implicit Arguments.

(** ** Arithmetic used by the solvers *)

Declare Scope py_scope.
Delimit Scope py_scope with py.

Class Arith (num : Type) : Type := {
  zero : num;                      (* the literal 0 *)
  two : num;                       (* the literal 2.0 *)
  add : num -> num -> num;
  sub : num -> num -> num;
  mul : num -> num -> num;
  div : num -> num -> num;         (* quotient for a divisor that is not 0 *)
  absn : num -> num;               (* abs *)
  ltb : num -> num -> bool;        (* x < y *)
  eqb : num -> num -> bool         (* x == y *)
}.

Infix "+" := add : py_scope.
Infix "-" := sub : py_scope.
Infix "*" := mul : py_scope.
Infix "/" := div : py_scope.
Infix "<?" := ltb : py_scope.
Infix "=?" := eqb : py_scope.

(** Python floats are IEEE 754 binary64 numbers. *)
#[export] Instance float_arith : Arith float := {
  zero := 0%float;
  two := 2%float;
  add := PrimFloat.add;
  sub := PrimFloat.sub;
  mul := PrimFloat.mul;
  div := PrimFloat.div;
  absn := PrimFloat.abs;
  ltb := PrimFloat.ltb;
  eqb := PrimFloat.eqb
}.

(** ** Exceptions and results *)

(** How a call ends when it does not return a value.  The first four are
    the classes that the two files or the interpreter raise in the code
    modelled here; [OtherException cls msg] is any other class derived from
    [Exception] ([SyntaxError], [OverflowError], ...).  [BaseException cls
    msg] is a class derived from [BaseException] but not from [Exception]
    ([SystemExit], [KeyboardInterrupt], [GeneratorExit]).  [NeverReturns]
    is no exception: it stands for a call that does not come back.  Like a
    [BaseException] it passes every [except Exception], and no statement
    after the call runs. *)
Inductive exn : Type :=
| ValueError (msg : string)
| ZeroDivisionError (msg : string)
| UnboundLocalError (var : string)
| TypeError (msg : string)
| OtherException (cls msg : string)
| BaseException (cls msg : string)
| NeverReturns.

(** [isinstance(e, Exception)]: what [except Exception] catches. *)
Definition is_Exception (e : exn) : bool :=
  match e with
  | BaseException _ _ | NeverReturns => false
  | _ => true
  end.

(** The result of calling a Python function that may raise. *)
Inductive result (A : Type) : Type :=
| Ok (a : A)
| Err (e : exn).
Arguments Ok {A} a.
Arguments Err {A} e.

(** The result of one solver call.  [Raised e logs] keeps the contents of
    the local list [logs] at the moment the exception left the function. *)
Inductive outcome (A row : Type) : Type :=
| Returned (v : A)
| Raised (e : exn) (logs : list row).
Arguments Returned {A row} v.
Arguments Raised {A row} e logs.

Definition bind {B A row} (r : result B) (logs : list row)
    (k : B -> outcome A row) : outcome A row :=
  match r with
  | Ok b => k b
  | Err e => Raised e logs
  end.

Notation "'call' x '<-' r 'with' logs 'in' k" :=
  (bind r logs (fun x => k))
  (at level 10, x name, r at level 200, logs at level 200, k at level 200,
   only parsing).

(** [x / y] on floats raises [ZeroDivisionError] when [y == 0]. *)
Definition pydiv {num} `{Arith num} (x y : num) : result num :=
  if (y =? zero)%py then Err (ZeroDivisionError "float division by zero")
  else Ok (div x y).

(** The tuple [(root, err, iters, logs)] the solvers of [ZOF_CLI.py] return. *)
Definition solved (num row : Type) : Type := (num * num * Z * list row)%type.

(** The log a solver call ends with, returned or left behind by a raise. *)
Definition logs_of {num row} (o : outcome (solved num row) row) : list row :=
  match o with
  | Returned (_, _, _, logs) => logs
  | Raised _ logs => logs
  end.

(** [range(1, max_iter + 1)] has [max_iter] elements when [max_iter >= 1]
    and none otherwise. *)
Definition range_len (max_iter : Z) : nat := Z.to_nat max_iter.

(** ** Strings and name spaces *)

(** The ASCII characters [str.strip] removes; expressions are modelled as
    ASCII strings. *)
Definition is_space (c : ascii) : bool :=
  let n := nat_of_ascii c in
  ((9 <=? n) && (n <=? 13) || (28 <=? n) && (n <=? 32))%nat.

Fixpoint lstrip (s : string) : string :=
  match s with
  | String c s' => if is_space c then lstrip s' else s
  | EmptyString => EmptyString
  end.

Fixpoint rstrip (s : string) : string :=
  match s with
  | EmptyString => EmptyString
  | String c s' =>
      match rstrip s' with
      | EmptyString => if is_space c then EmptyString else String c EmptyString
      | r => String c r
      end
  end.

Definition strip (s : string) : string := rstrip (lstrip s).

(** A dict with string keys. *)
Definition namespace (pyobj : Type) : Type := string -> option pyobj.

Definition dict_set {pyobj} (d : namespace pyobj) (k : string) (v : pyobj) :
    namespace pyobj :=
  fun k' => if String.eqb k' k then Some v else d k'.

Fixpoint dict_of {pyobj} (kvs : list (string * pyobj)) : namespace pyobj :=
  match kvs with
  | [] => fun _ => None
  | (k, v) :: rest => fun k' =>
      match dict_of rest k' with
      | Some v' => Some v'
      | None => if String.eqb k' k then Some v else None
      end
  end.

Definition startswith_underscore (k : string) : bool :=
  match k with
  | String c _ => Ascii.eqb c "_"
  | EmptyString => false
  end.

(** What Python itself provides to [make_function]: objects, the attributes
    of module [math], and the built-ins [abs], [pow], [eval] and [float].
    [py_eval expr globals locals] is what [eval] does with an expression: it
    gives a value, raises, or does not return; it is a function of the
    expression and the two name spaces, so an expression that reads or
    writes the console is outside the model. *)
Record python (num : Type) : Type := Python {
  pyobj : Type;
  py_none : pyobj;
  py_of_float : num -> pyobj;
  math_attrs : list (string * pyobj);  (* (k, getattr(math, k)), k in dir(math) *)
  py_abs : pyobj;
  py_pow : pyobj;
  py_eval : string -> namespace pyobj -> namespace pyobj -> result pyobj;
  py_float : pyobj -> result num;
  str_float : num -> string;           (* how an f-string prints a float *)
  str_exn : exn -> string              (* how an f-string prints an exception *)
}.

(** [MATH_NAMES], the names an expression may use besides [x]. *)
Definition MATH_NAMES {num} (py : python num) : namespace (pyobj py) :=
  dict_set
    (dict_set
       (dict_of (filter (fun kv => negb (startswith_underscore (fst kv)))
                        (math_attrs py)))
       "abs" (py_abs py))
    "pow" (py_pow py).

(** The globals [{"__builtins__": None}] given to [eval]. *)
Definition no_builtins {num} (py : python num) : namespace (pyobj py) :=
  dict_set (fun _ => None) "__builtins__" (py_none py).

(** [str.lower] on ASCII strings. *)
Definition lower_ascii (c : ascii) : ascii :=
  let n := nat_of_ascii c in
  if ((65 <=? n) && (n <=? 90))%nat then ascii_of_nat (n + 32) else c.

Fixpoint lower (s : string) : string :=
  match s with
  | EmptyString => EmptyString
  | String c s' => String (lower_ascii c) (lower s')
  end.

(** The conversions [float(s)] and [int(s)] of a string [s], which raise
    when [s] does not spell a number. *)
Record conversions : Type := Conversions {
  float_of_str : string -> result float;
  int_of_str : string -> result Z
}.

(** What [index] reads of a Flask request: [request.method] and
    [request.form]. *)
Record request : Type := Request {
  req_method : string;
  req_form : namespace string
}.

(** ** [ZOF_CLI.py] *)

Module ZOF_CLI.

Section Solvers.

Context {num : Type} `{Arith num}.
Local Open Scope py_scope.

(** *** [make_function] *)

Section MakeFunction.

Variable py : python num.

(** The closure [f] that [make_function] returns; [expr] is already
    stripped. *)
Definition make_function_f (expr : string) (x : num) : result num :=
  let local := dict_set (MATH_NAMES py) "x" (py_of_float py x) in
  let r :=
    match py_eval py expr (no_builtins py) local with
    | Ok v => py_float py v
    | Err e => Err e
    end in
  match r with
  | Ok y => Ok y
  | Err e =>
      if is_Exception e                      (* except Exception as e *)
      then Err (ValueError ("Error evaluating expression at x="
                              ++ str_float py x ++ ": " ++ str_exn py e))
      else Err e
  end.

Definition make_function (expr : string) : result (num -> result num) :=
  let expr := strip expr in
  Ok (make_function_f expr).

End MakeFunction.

(** *** Bisection *)

(** One tuple [(i, a, b, c, fa, fb, fc, err)] of the log of [bisection] and
    of [regula_falsi]. *)
Record bracket_row : Type := BracketRow {
  br_i : Z;
  br_a : num;
  br_b : num;
  br_c : num;
  br_fa : num;
  br_fb : num;
  br_fc : num;
  br_err : num
}.

Definition bisection_msg : string :=
  "Bisection requires f(a) and f(b) to have opposite signs.".

Section Bisection.

Variable f : num -> result num.
Variable tol : num.
Variable max_iter : Z.

(** The [for] loop of [bisection]: [n] iterations remain, the next index
    is [i]. *)
Fixpoint bisection_loop (n : nat) (i : Z) (a b fa fb : num)
    (logs : list bracket_row) : outcome (solved num bracket_row) bracket_row :=
  match n with
  | O => Returned ((a + b) / two, absn (b - a) / two, max_iter, logs)
  | S n' =>
      let c := (a + b) / two in
      call fc <- f c with logs in
      let err := absn (b - a) / two in
      let logs := logs ++ [BracketRow i a b c fa fb fc err] in
      if (absn fc <? tol) || (err <? tol) then Returned (c, err, i, logs)
      else if fa * fc <? zero then bisection_loop n' (i + 1) a c fa fc logs
      else bisection_loop n' (i + 1) c b fc fb logs
  end.

Definition bisection (a b : num) :
    outcome (solved num bracket_row) bracket_row :=
  call fa <- f a with [] in
  call fb <- f b with [] in
  if zero <? fa * fb then Raised (ValueError bisection_msg) []
  else bisection_loop (range_len max_iter) 1 a b fa fb [].

End Bisection.

(** *** Regula Falsi *)

Definition regula_falsi_msg : string :=
  "Regula Falsi requires f(a) and f(b) to have opposite signs.".

Section RegulaFalsi.

Variable f : num -> result num.
Variable tol : num.
Variable max_iter : Z.

(** [fc] is bound by the first iteration only, hence the [option]. *)
Fixpoint regula_falsi_loop (n : nat) (i : Z) (a b fa fb c : num)
    (fc : option num) (logs : list bracket_row) :
    outcome (solved num bracket_row) bracket_row :=
  match n with
  | O =>
      match fc with
      | Some fc => Returned (c, absn fc, max_iter, logs)
      | None => Raised (UnboundLocalError "fc") logs
      end
  | S n' =>
      call c <- pydiv (a * fb - b * fa) (fb - fa) with logs in
      call fc <- f c with logs in
      let err := absn fc in
      let logs := logs ++ [BracketRow i a b c fa fb fc err] in
      if absn fc <? tol then Returned (c, err, i, logs)
      else if fa * fc <? zero
      then regula_falsi_loop n' (i + 1) a c fa fc c (Some fc) logs
      else regula_falsi_loop n' (i + 1) c b fc fb c (Some fc) logs
  end.

Definition regula_falsi (a b : num) :
    outcome (solved num bracket_row) bracket_row :=
  call fa <- f a with [] in
  call fb <- f b with [] in
  if zero <? fa * fb then Raised (ValueError regula_falsi_msg) []
  else regula_falsi_loop (range_len max_iter) 1 a b fa fb a None [].

End RegulaFalsi.

(** *** Secant *)

(** One tuple [(i, x0, x1, x2, f0, f1, err)]. *)
Record secant_row : Type := SecantRow {
  sc_i : Z;
  sc_x0 : num;
  sc_x1 : num;
  sc_x2 : num;
  sc_f0 : num;
  sc_f1 : num;
  sc_err : num
}.

Definition secant_msg : string := "Division by zero in secant step".

Section Secant.

Variable f : num -> result num.
Variable tol : num.
Variable max_iter : Z.

Fixpoint secant_loop (n : nat) (i : Z) (x0 x1 : num)
    (logs : list secant_row) : outcome (solved num secant_row) secant_row :=
  match n with
  | O => Returned (x1, absn (x1 - x0), max_iter, logs)
  | S n' =>
      call f0 <- f x0 with logs in
      call f1 <- f x1 with logs in
      if f1 - f0 =? zero then Raised (ZeroDivisionError secant_msg) logs
      else
        call q <- pydiv (f1 * (x1 - x0)) (f1 - f0) with logs in
        let x2 := x1 - q in
        let err := absn (x2 - x1) in
        let logs := logs ++ [SecantRow i x0 x1 x2 f0 f1 err] in
        if err <? tol then Returned (x2, err, i, logs)
        else secant_loop n' (i + 1) x1 x2 logs
  end.

Definition secant (x0 x1 : num) : outcome (solved num secant_row) secant_row :=
  secant_loop (range_len max_iter) 1 x0 x1 [].

End Secant.

(** *** Newton-Raphson *)

(** One tuple [(i, x, x_new, fx, dfx, err)]. *)
Record newton_row : Type := NewtonRow {
  nw_i : Z;
  nw_x : num;
  nw_x_new : num;
  nw_fx : num;
  nw_dfx : num;
  nw_err : num
}.

Definition newton_msg : string :=
  "Zero derivative encountered in Newton-Raphson".

Section NewtonRaphson.

Variables f df : num -> result num.
Variable tol : num.
Variable max_iter : Z.

(** [err] is bound by the first iteration only, hence the [option]. *)
Fixpoint newton_raphson_loop (n : nat) (i : Z) (x : num) (err : option num)
    (logs : list newton_row) : outcome (solved num newton_row) newton_row :=
  match n with
  | O =>
      match err with
      | Some err => Returned (x, err, max_iter, logs)
      | None => Raised (UnboundLocalError "err") logs
      end
  | S n' =>
      call fx <- f x with logs in
      call dfx <- df x with logs in
      if dfx =? zero then Raised (ZeroDivisionError newton_msg) logs
      else
        call q <- pydiv fx dfx with logs in
        let x_new := x - q in
        let err := absn (x_new - x) in
        let logs := logs ++ [NewtonRow i x x_new fx dfx err] in
        if err <? tol then Returned (x_new, err, i, logs)
        else newton_raphson_loop n' (i + 1) x_new (Some err) logs
  end.

Definition newton_raphson (x0 : num) :
    outcome (solved num newton_row) newton_row :=
  newton_raphson_loop (range_len max_iter) 1 x0 None [].

End NewtonRaphson.

(** *** Fixed-point iteration *)

(** One tuple [(i, x, x_new, err)]. *)
Record fixed_row : Type := FixedRow {
  fp_i : Z;
  fp_x : num;
  fp_x_new : num;
  fp_err : num
}.

Section FixedPoint.

Variable g : num -> result num.
Variable tol : num.
Variable max_iter : Z.

Fixpoint fixed_point_loop (n : nat) (i : Z) (x : num) (err : option num)
    (logs : list fixed_row) : outcome (solved num fixed_row) fixed_row :=
  match n with
  | O =>
      match err with
      | Some err => Returned (x, err, max_iter, logs)
      | None => Raised (UnboundLocalError "err") logs
      end
  | S n' =>
      call x_new <- g x with logs in
      let err := absn (x_new - x) in
      let logs := logs ++ [FixedRow i x x_new err] in
      if err <? tol then Returned (x_new, err, i, logs)
      else fixed_point_loop n' (i + 1) x_new (Some err) logs
  end.

Definition fixed_point (x0 : num) : outcome (solved num fixed_row) fixed_row :=
  fixed_point_loop (range_len max_iter) 1 x0 None [].

End FixedPoint.

(** *** Modified secant *)

(** One tuple [(i, x, x_new, fx, err)]. *)
Record modsec_row : Type := ModsecRow {
  ms_i : Z;
  ms_x : num;
  ms_x_new : num;
  ms_fx : num;
  ms_err : num
}.

Definition modified_secant_msg : string :=
  "Denominator zero in modified secant".

Section ModifiedSecant.

Variable f : num -> result num.
Variable delta : num.
Variable tol : num.
Variable max_iter : Z.

Fixpoint modified_secant_loop (n : nat) (i : Z) (x : num) (err : option num)
    (logs : list modsec_row) : outcome (solved num modsec_row) modsec_row :=
  match n with
  | O =>
      match err with
      | Some err => Returned (x, err, max_iter, logs)
      | None => Raised (UnboundLocalError "err") logs
      end
  | S n' =>
      call fx <- f x with logs in
      call fxd <- f (x + delta * x) with logs in
      let denom := fxd - fx in
      if denom =? zero then Raised (ZeroDivisionError modified_secant_msg) logs
      else
        call q <- pydiv (delta * x * fx) denom with logs in
        let x_new := x - q in
        let err := absn (x_new - x) in
        let logs := logs ++ [ModsecRow i x x_new fx err] in
        if err <? tol then Returned (x_new, err, i, logs)
        else modified_secant_loop n' (i + 1) x_new (Some err) logs
  end.

Definition modified_secant (x0 : num) :
    outcome (solved num modsec_row) modsec_row :=
  modified_secant_loop (range_len max_iter) 1 x0 None [].

End ModifiedSecant.

End Solvers.


(** *** The console: [print_menu], [read_float] and [main] *)

(** The lines still to be read from standard input (without their line
    ends), and what was written to standard output, piece by piece. *)
Record console : Type := Console {
  stdin : list string;
  stdout : list string
}.

(** The exceptions of a session: those of the solvers and of [f], the
    [EOFError] of [input] and the [OverflowError] of [int]. *)
Inductive cli_exn : Type :=
| Exn (e : exn)
| EOFError
| OverflowError (msg : string).

Inductive ran (A : Type) : Type :=
| Done (a : A)
| Threw (e : cli_exn).
Arguments Done {A} a.
Arguments Threw {A} e.

Section Console.

Local Open Scope string_scope.

Variable py : python float.
Variable conv : conversions.

Definition eof_msg : string := "EOF when reading a line".

Definition str_cli_exn (e : cli_exn) : string :=
  match e with
  | Exn e => str_exn py e
  | EOFError => eof_msg
  | OverflowError msg => msg
  end.

(** A statement that reads and writes the console and may raise. *)
Definition io (A : Type) : Type := console -> ran A * console.

Definition ret {A : Type} (a : A) : io A := fun c => (Done a, c).

Definition throw {A : Type} (e : cli_exn) : io A := fun c => (Threw e, c).

(** [isinstance(e, Exception)] for the exceptions of a session. *)
Definition caught (e : cli_exn) : bool :=
  match e with
  | Exn e => is_Exception e
  | EOFError | OverflowError _ => true
  end.

Definition seq {A B : Type} (m : io A) (k : A -> io B) : io B :=
  fun c =>
    match m c with
    | (Done a, c') => k a c'
    | (Threw e, c') => (Threw e, c')
    end.

Local Notation "x <- m ;; k" := (seq m (fun x => k))
  (at level 61, m at next level, right associativity, only parsing).
Local Notation "m ;; k" := (seq m (fun _ => k))
  (at level 61, right associativity, only parsing).

(** [try: body / except Exception as e: handler(e)] *)
Definition try_except {A : Type} (body : io A) (handler : cli_exn -> io A) :
    io A :=
  fun c =>
    match body c with
    | (Done a, c') => (Done a, c')
    | (Threw e, c') => if caught e then handler e c' else (Threw e, c')
    end.

Definition nl : string := String (ascii_of_nat 10) EmptyString.

(** [print(s)] *)
Definition print (s : string) : io unit :=
  fun c => (Done tt, Console (stdin c) (stdout c ++ [(s ++ nl)%string])%list).

(** [input(prompt)]: the prompt is written, then a line is read. *)
Definition input (prompt : string) : io string :=
  fun c =>
    match stdin c with
    | [] => (Threw EOFError, Console [] (stdout c ++ [prompt])%list)
    | line :: rest => (Done line, Console rest (stdout c ++ [prompt])%list)
    end.

Definition of_result {A : Type} (r : result A) : io A :=
  match r with
  | Ok a => ret a
  | Err e => throw (Exn e)
  end.

Definition of_outcome {A row : Type} (o : outcome A row) : io A :=
  match o with
  | Returned v => ret v
  | Raised e _ => throw (Exn e)
  end.

Definition print_menu : io unit :=
  print (nl ++ "ZOF Solver - Choose a method:") ;;
  print "1. Bisection" ;;
  print "2. Regula Falsi (False Position)" ;;
  print "3. Secant" ;;
  print "4. Newton-Raphson" ;;
  print "5. Fixed Point Iteration" ;;
  print "6. Modified Secant" ;;
  print "0. Exit".

Definition invalid_number : string := "Enter a valid number".

(** The [while True] of [read_float]: each turn reads one line, so the loop
    is a recursion on the lines left.  [default] is [None] or the default
    value; the result is the default ([inl]) or the float read ([inr]). *)
Fixpoint read_float_loop {D : Type} (prompt : string) (default : option D)
    (lines : list string) (out : list string) : ran (D + float) * console :=
  match lines with
  | [] => (Threw EOFError, Console [] (out ++ [prompt])%list)
  | s :: rest =>
      let out := (out ++ [prompt])%list in
      match (if String.eqb s "" then default else None) with
      | Some d => (Done (inl d), Console rest out)
      | None =>
          match float_of_str conv s with
          | Ok x => (Done (inr x), Console rest out)
          | Err (ValueError _) =>
              read_float_loop prompt default rest
                (out ++ [(invalid_number ++ nl)%string])%list
          | Err e => (Threw (Exn e), Console rest out)
          end
      end
  end.

Definition read_float {D : Type} (prompt : string) (default : option D) :
    io (D + float) :=
  fun c => read_float_loop prompt default (stdin c) (stdout c).

(** [read_float(prompt)], without a default. *)
Definition read_number (prompt : string) : io float :=
  r <- read_float prompt (@None float) ;;
  ret (match r with inl x => x | inr x => x end).

(** [read_float(prompt, default)] with a float for default. *)
Definition read_number_or (prompt : string) (default : float) : io float :=
  r <- read_float prompt (Some default) ;;
  ret (match r with inl x => x | inr x => x end).

Definition int_nan_msg : string := "cannot convert float NaN to integer".
Definition int_inf_msg : string := "cannot convert float infinity to integer".

(** [int(x)] for a float [x]: truncation towards zero. *)
Definition int_of_float (x : float) : io Z :=
  match Prim2SF x with
  | S754_zero _ => ret 0%Z
  | S754_finite s m e =>
      let n := Z.shiftl (Zpos m) e in
      ret (if s then (- n)%Z else n)
  | S754_infinity _ => throw (OverflowError int_inf_msg)
  | S754_nan => throw (Exn (ValueError int_nan_msg))
  end.

(** How [print] and f-strings show an int. *)
Definition str_int (n : Z) : string := NilZero.string_of_int (Z.to_int n).

(** [print(row)] for a tuple whose items are shown as [items]. *)
Definition repr_tuple (items : list string) : string :=
  "(" ++ String.concat ", " items ++ ")".

Fixpoint print_rows {row : Type} (repr : row -> string) (logs : list row) :
    io unit :=
  match logs with
  | [] => ret tt
  | r :: rest => print (repr r) ;; print_rows repr rest
  end.

Definition fl : float -> string := str_float py.

Definition repr_bracket_row (r : bracket_row) : string :=
  repr_tuple [str_int (br_i r); fl (br_a r); fl (br_b r); fl (br_c r);
              fl (br_fa r); fl (br_fb r); fl (br_fc r); fl (br_err r)].

Definition repr_secant_row (r : secant_row) : string :=
  repr_tuple [str_int (sc_i r); fl (sc_x0 r); fl (sc_x1 r); fl (sc_x2 r);
              fl (sc_f0 r); fl (sc_f1 r); fl (sc_err r)].

Definition repr_newton_row (r : newton_row) : string :=
  repr_tuple [str_int (nw_i r); fl (nw_x r); fl (nw_x_new r); fl (nw_fx r);
              fl (nw_dfx r); fl (nw_err r)].

Definition repr_fixed_row (r : fixed_row) : string :=
  repr_tuple [str_int (fp_i r); fl (fp_x r); fl (fp_x_new r); fl (fp_err r)].

Definition repr_modsec_row (r : modsec_row) : string :=
  repr_tuple [str_int (ms_i r); fl (ms_x r); fl (ms_x_new r); fl (ms_fx r);
              fl (ms_err r)].

(** The floats nearest to [1e-6] and [1e-3]. *)
Definition f1e6 : float := 0x1.0c6f7a0b5ed8dp-20.
Definition f1e3 : float := 0x1.0624dd2f1a9fcp-10.

(** [df_approx]: [(f(x + h) - f(x - h)) / (2 * h)] with [h = 1e-6]. *)
Definition df_approx (f : float -> result float) (x : float) : result float :=
  let h := f1e6 in
  match f (x + h)%float with
  | Err e => Err e
  | Ok fp =>
      match f (x - h)%float with
      | Err e => Err e
      | Ok fm => pydiv (fp - fm)%float (2 * h)%float
      end
  end.

(** What the branch of a method leaves in [root], [ferr] and [iters]. *)
Definition report {row : Type} (header : string) (repr : row -> string)
    (r : solved float row) : io (float * float * Z) :=
  let '(root, ferr, iters, logs) := r in
  print header ;;
  print_rows repr logs ;;
  ret (root, ferr, iters).

(** The body of the [try] for a [choice] among ["1"] ... ["6"]. *)
Definition run_method (choice : string) (f : float -> result float)
    (tol : float) (max_iter : Z) : io unit :=
  r <-
    (if String.eqb choice "1" then
       a <- read_number "Left endpoint a: " ;;
       b <- read_number "Right endpoint b: " ;;
       r <- of_outcome (bisection f tol max_iter a b) ;;
       report (nl ++ "Iteration logs: (i, a, b, c, f(a), f(b), f(c), err)")
         repr_bracket_row r
     else if String.eqb choice "2" then
       a <- read_number "Left endpoint a: " ;;
       b <- read_number "Right endpoint b: " ;;
       r <- of_outcome (regula_falsi f tol max_iter a b) ;;
       report (nl ++ "Iteration logs: (i, a, b, c, f(a), f(b), f(c), err)")
         repr_bracket_row r
     else if String.eqb choice "3" then
       x0 <- read_number "x0: " ;;
       x1 <- read_number "x1: " ;;
       r <- of_outcome (secant f tol max_iter x0 x1) ;;
       report (nl ++ "Iteration logs: (i, x0, x1, x2, f(x0), f(x1), err)")
         repr_secant_row r
     else if String.eqb choice "4" then
       df_expr <-
         input ("Enter f'(x) as Python expression (derivative)." ++ nl ++
                "If you don't want to type it, enter 'auto' to approximate numerically: ") ;;
       x0 <- read_number "Initial guess x0: " ;;
       df <- (if String.eqb (lower (strip df_expr)) "auto"
              then ret (df_approx f)
              else of_result (make_function py df_expr)) ;;
       r <- of_outcome (newton_raphson f df tol max_iter x0) ;;
       report (nl ++ "Iteration logs: (i, x, x_new, f(x), f'(x), err)")
         repr_newton_row r
     else if String.eqb choice "5" then
       g_expr <- input "Enter g(x) for Fixed Point (x = g(x)): " ;;
       g <- of_result (make_function py g_expr) ;;
       x0 <- read_number "Initial guess x0: " ;;
       r <- of_outcome (fixed_point g tol max_iter x0) ;;
       report (nl ++ "Iteration logs: (i, x, x_new, err)") repr_fixed_row r
     else
       x0 <- read_number "Initial guess x0: " ;;
       delta <-
         read_number_or "Delta (fraction, e.g. 1e-3) [default 1e-3]: " f1e3 ;;
       r <- of_outcome (modified_secant f delta tol max_iter x0) ;;
       report (nl ++ "Iteration logs: (i, x, x_new, f(x), err)")
         repr_modsec_row r) ;;
  let '(root, ferr, iters) := r in
  print (nl ++ "Final result:") ;;
  print ("Estimated root = " ++ fl root) ;;
  print ("Final error estimate = " ++ fl ferr) ;;
  print ("Iterations = " ++ str_int iters ++ nl).

(** How one turn of the [while True] of [main] ends. *)
Inductive turn : Type :=
| Break
| Next.

Definition valid_choice (choice : string) : bool :=
  existsb (String.eqb choice) ["1"; "2"; "3"; "4"; "5"; "6"].

(** The body of the [while True] of [main]. *)
Definition main_body : io turn :=
  print_menu ;;
  line <- input "Select method (0-6): " ;;
  let choice := strip line in
  if String.eqb choice "0" then
    print "Goodbye" ;; ret Break
  else if negb (valid_choice choice) then
    print "Invalid choice" ;; ret Next
  else
    expr <-
      input ("Enter f(x) as a Python expression (use 'x', math funcs allowed):"
             ++ nl ++ " e.g. x**3 - 2*x - 5" ++ nl ++ " f(x) = ") ;;
    f <- of_result (make_function py expr) ;;
    tol <- read_number_or "Tolerance (e.g. 1e-6) [default 1e-6]: " f1e6 ;;
    m <- read_float "Max iterations [default 50]: " (Some 50%Z) ;;
    max_iter <- match m with
                | inl n => ret n
                | inr x => int_of_float x
                end ;;
    try_except (run_method choice f tol max_iter)
      (fun e => print ("Error during method: " ++ str_cli_exn e)) ;;
    ret Next.

(** The [while True] of [main]; every turn reads at least one line, so
    [fuel] turns are enough when [fuel] exceeds the number of lines. *)
Fixpoint main_loop (fuel : nat) (c : console) : option (ran unit * console) :=
  match fuel with
  | O => None
  | S fuel' =>
      match main_body c with
      | (Done Break, c') => Some (Done tt, c')
      | (Done Next, c') => main_loop fuel' c'
      | (Threw e, c') => Some (Threw e, c')
      end
  end.

Definition banner : string := "Zero-of-Functions (ZOF) CLI Solver".

Definition main (c : console) : option (ran unit * console) :=
  let c := snd (print banner c) in
  main_loop (S (List.length (stdin c))) c.

End Console.

End ZOF_CLI.

(** ** [app.py] *)

Module app.

Section Web.

Context {num : Type} `{Arith num}.
Local Open Scope py_scope.

Section MakeFunction.

Variable py : python num.

(** No [try] here: what [eval] or [float] raises reaches the caller as
    it is. *)
Definition make_function_f (expr : string) (x : num) : result num :=
  let local := dict_set (MATH_NAMES py) "x" (py_of_float py x) in
  match py_eval py expr (no_builtins py) local with
  | Ok v => py_float py v
  | Err e => Err e
  end.

Definition make_function (expr : string) : result (num -> result num) :=
  let expr := strip expr in
  Ok (make_function_f expr).

End MakeFunction.

(** The log entries are dicts with the keys of the tuples of [ZOF_CLI.py];
    the same records stand for them. *)
Definition bisection_msg : string := "f(a) and f(b) must have opposite signs".

Section Bisection.

Variable f : num -> result num.
Variable tol : num.

Fixpoint bisection_loop (n : nat) (i : Z) (a b fa fb : num)
    (logs : list (ZOF_CLI.bracket_row (num := num))) :
    outcome (num * num * list ZOF_CLI.bracket_row) ZOF_CLI.bracket_row :=
  match n with
  | O => Returned ((a + b) / two, absn (b - a) / two, logs)
  | S n' =>
      let c := (a + b) / two in
      call fc <- f c with logs in
      let err := absn (b - a) / two in
      let logs := logs ++ [ZOF_CLI.BracketRow i a b c fa fb fc err] in
      if (absn fc <? tol) || (err <? tol) then Returned (c, err, logs)
      else if fa * fc <? zero then bisection_loop n' (i + 1) a c fa fc logs
      else bisection_loop n' (i + 1) c b fc fb logs
  end.

Definition bisection (a b : num) (max_iter : Z) :
    outcome (num * num * list ZOF_CLI.bracket_row) ZOF_CLI.bracket_row :=
  call fa <- f a with [] in
  call fb <- f b with [] in
  if zero <? fa * fb then Raised (ValueError bisection_msg) []
  else bisection_loop (range_len max_iter) 1 a b fa fb [].

End Bisection.

Definition secant_msg : string := "Division by zero in secant".

Section Secant.

Variable f : num -> result num.
Variable tol : num.

Fixpoint secant_loop (n : nat) (i : Z) (x0 x1 : num)
    (logs : list (ZOF_CLI.secant_row (num := num))) :
    outcome (num * num * list ZOF_CLI.secant_row) ZOF_CLI.secant_row :=
  match n with
  | O => Returned (x1, absn (x1 - x0), logs)
  | S n' =>
      call f0 <- f x0 with logs in
      call f1 <- f x1 with logs in
      if f1 - f0 =? zero then Raised (ZeroDivisionError secant_msg) logs
      else
        call q <- pydiv (f1 * (x1 - x0)) (f1 - f0) with logs in
        let x2 := x1 - q in
        let err := absn (x2 - x1) in
        let logs := logs ++ [ZOF_CLI.SecantRow i x0 x1 x2 f0 f1 err] in
        if err <? tol then Returned (x2, err, logs)
        else secant_loop n' (i + 1) x1 x2 logs
  end.

Definition secant (x0 x1 : num) (max_iter : Z) :
    outcome (num * num * list ZOF_CLI.secant_row) ZOF_CLI.secant_row :=
  secant_loop (range_len max_iter) 1 x0 x1 [].

End Secant.

(** *** The Newton branch of [index] *)

(** The dict [{'root': ..., 'error': ..., 'logs': ...}] handed to the
    template; ['error'] holds a float or [None]. *)
Record result_dict : Type := ResultDict {
  rd_root : num;
  rd_error : option num;
  rd_logs : list (ZOF_CLI.newton_row (num := num))
}.

Definition newton_msg : string := "Zero derivative".

Section IndexNewton.

Variables f df_func : num -> result num.
Variable tol : num.

(** The last statement of the branch.  [result] is the variable [result]
    as it stands when the dict display is evaluated. *)
Definition newton_result (result : option result_dict) (root x : num)
    (logs : list ZOF_CLI.newton_row) : result_dict :=
  ResultDict root
    (match result with
     | Some r => Some (absn (rd_root r - x))
     | None => None
     end)
    logs.

(** The [for ... else] loop; [result] is threaded unchanged, no statement
    of the loop assigns it. *)
Fixpoint index_newton_loop (result : option result_dict) (n : nat) (i : Z)
    (x : num) (logs : list ZOF_CLI.newton_row) :
    outcome result_dict ZOF_CLI.newton_row :=
  match n with
  | O => Returned (newton_result result x x logs)     (* else: root = x *)
  | S n' =>
      call fx <- f x with logs in
      call dfx <- df_func x with logs in
      if dfx =? zero then Raised (ZeroDivisionError newton_msg) logs
      else
        call q <- pydiv fx dfx with logs in
        let x_new := x - q in
        let err := absn (x_new - x) in
        let logs := logs ++ [ZOF_CLI.NewtonRow i x x_new fx dfx err] in
        if err <? tol
        then Returned (newton_result result x_new x logs)  (* root = x_new; break *)
        else index_newton_loop result n' (i + 1) x_new logs
  end.

(** [index] starts with [result = None]. *)
Definition index_newton (x0 : num) (max_iter : Z) :
    outcome result_dict ZOF_CLI.newton_row :=
  let result := None in
  index_newton_loop result (range_len max_iter) 1 x0 [].

End IndexNewton.

End Web.


(** *** [index] *)

(** The value of [result] after a successful branch: the dict with the
    keys ['root'], ['error'] and ['logs']. *)
Inductive index_result : Type :=
| BisectionResult (root error : float)
    (logs : list (ZOF_CLI.bracket_row (num := float)))
| SecantResult (root error : float)
    (logs : list (ZOF_CLI.secant_row (num := float)))
| NewtonResult (r : result_dict (num := float)).

(** The keyword arguments [result] and [error] of [render_template]. *)
Record page : Type := Page {
  pg_result : option index_result;
  pg_error : option string
}.

(** What the body of the [try] can raise. *)
Inductive raised : Type :=
| Exn (e : exn)
| BadRequestKeyError (key : string)
| AttributeError (msg : string).

Inductive tried (A : Type) : Type :=
| Fine (a : A)
| Failed (e : raised).
Arguments Fine {A} a.
Arguments Failed {A} e.

Section Index.

Local Open Scope float_scope.
Local Open Scope string_scope.

Variable py : python float.
Variable conv : conversions.

(** [str(e)] for the [KeyError] that [request.form[key]] raises when the
    form has no field [key]. *)
Variable str_key_error : string -> string.

(** [render_template('index.html', result=..., error=...)]: the response
    made of a page, or what rendering raises. *)
Variable html : Type.
Variable render_template : page -> result html.

Definition str_raised (e : raised) : string :=
  match e with
  | Exn e => str_exn py e
  | BadRequestKeyError key => str_key_error key
  | AttributeError msg => msg
  end.

Definition and_then {A B : Type} (r : tried A) (k : A -> tried B) : tried B :=
  match r with
  | Fine a => k a
  | Failed e => Failed e
  end.

Local Notation "x <- r ;; k" := (and_then r (fun x => k))
  (at level 61, r at next level, right associativity, only parsing).

Definition of_result {A : Type} (r : result A) : tried A :=
  match r with
  | Ok a => Fine a
  | Err e => Failed (Exn e)
  end.

Definition of_outcome {A row : Type} (o : outcome A row) : tried A :=
  match o with
  | Returned v => Fine v
  | Raised e _ => Failed (Exn e)
  end.

(** [request.form[key]] *)
Definition form_item (req : request) (key : string) : tried string :=
  match req_form req key with
  | Some v => Fine v
  | None => Failed (BadRequestKeyError key)
  end.

(** [float(request.form[key])] *)
Definition float_item (req : request) (key : string) : tried float :=
  s <- form_item req key ;;
  of_result (float_of_str conv s).

(** [expr.strip()] fails on [None], the value of a missing field. *)
Definition none_strip_msg : string :=
  "'NoneType' object has no attribute 'strip'".

(** The float nearest to [1e-6]: the default tolerance and the step [h]. *)
Definition f1e6 : float := 0x1.0c6f7a0b5ed8dp-20.

(** The second [df_func]: [(f(x+h) - f(x-h)) / (2*h)] with [h = 1e-6]. *)
Definition df_central (f : float -> result float) (x : float) :
    result float :=
  let h := f1e6 in
  match f (x + h) with
  | Err e => Err e
  | Ok fp =>
      match f (x - h) with
      | Err e => Err e
      | Ok fm => pydiv (fp - fm) (2 * h)
      end
  end.

Definition equals (v : option string) (s : string) : bool :=
  match v with
  | Some v => String.eqb v s
  | None => false
  end.

(** The body of the [try]; its value is the variable [result] at the end. *)
Definition index_try (req : request) (method expr : option string)
    (tol : float) (max_iter : Z) : tried (option index_result) :=
  f <- match expr with
       | Some expr => of_result (make_function py expr)
       | None => Failed (AttributeError none_strip_msg)
       end ;;
  if equals method "bisection" then
    a <- float_item req "a" ;;
    b <- float_item req "b" ;;
    r <- of_outcome (bisection f tol a b max_iter) ;;
    let '(root, ferr, logs) := r in
    Fine (Some (BisectionResult root ferr logs))
  else if equals method "secant" then
    x0 <- float_item req "x0" ;;
    x1 <- float_item req "x1" ;;
    r <- of_outcome (secant f tol x0 x1 max_iter) ;;
    let '(root, ferr, logs) := r in
    Fine (Some (SecantResult root ferr logs))
  else if equals method "newton" then
    x0 <- float_item req "x0" ;;
    let df_expr := req_form req "df_expr" in
    df_func <-
      match df_expr with
      | Some d =>
          if negb (String.eqb d "") &&
             negb (String.eqb (lower (strip d)) "auto")
          then
            df <- of_result (make_function py d) ;;
            Fine (fun x => df x)
          else Fine (df_central f)
      | None => Fine (df_central f)
      end ;;
    r <- of_outcome (index_newton f df_func tol x0 max_iter) ;;
    Fine (Some (NewtonResult r))
  else Fine None.

(** [float(request.form.get('tol') or 1e-6)] *)
Definition tol_arg (req : request) : result float :=
  match req_form req "tol" with
  | Some s => if String.eqb s "" then Ok f1e6 else float_of_str conv s
  | None => Ok f1e6
  end.

(** [int(request.form.get('max_iter') or 50)] *)
Definition max_iter_arg (req : request) : result Z :=
  match req_form req "max_iter" with
  | Some s => if String.eqb s "" then Ok 50%Z else int_of_str conv s
  | None => Ok 50%Z
  end.

(** The view function: the response, or what leaves it instead. *)
Definition index (req : request) : result html :=
  if String.eqb (req_method req) "POST" then
    let method := req_form req "method" in
    let expr := req_form req "expr" in
    match tol_arg req with
    | Err e => Err e
    | Ok tol =>
        match max_iter_arg req with
        | Err e => Err e
        | Ok max_iter =>
            match index_try req method expr tol max_iter with
            | Fine result => render_template (Page result None)
            | Failed e =>                       (* except Exception as e *)
                let error := Some (str_raised e) in
                match e with
                | Exn e' =>
                    if is_Exception e' then render_template (Page None error)
                    else Err e'
                | BadRequestKeyError _ | AttributeError _ =>
                    render_template (Page None error)
                end
            end
        end
    end
  else render_template (Page None None).

End Index.

End app.

(** * Vocabulary for the properties *)

Unset Implicit Arguments.
Local Open Scope list_scope.

Import ZOF_CLI.

(** ** Reading the log of a bracketing method *)

Section BracketLog.

Context {num : Type} `{Arith num}.
Local Open Scope list_scope.
Local Open Scope py_scope.

(** The row that a bisection iteration with index [i] appends when it
    starts from the bracket [a], [b] and [f] gives [fc] at the midpoint. *)
Definition bisect_row (i : Z) (a b fa fb fc : num) : bracket_row :=
  BracketRow i a b ((a + b) / two) fa fb fc (absn (b - a) / two).

(** The convergence test of [bisection], read off a logged row. *)
Definition bisect_converged (tol : num) (r : bracket_row) : bool :=
  (absn (br_fc r) <? tol) || (br_err r <? tol).

(** The bracket [(a, b, fa, fb)] the sign test leaves after a logged row. *)
Definition next_bracket (r : bracket_row) : num * num * num * num :=
  if br_fa r * br_fc r <? zero
  then (br_a r, br_c r, br_fa r, br_fc r)
  else (br_c r, br_b r, br_fc r, br_fb r).

(** [bisect_steps f tol i s rows j s']: from index [i] and bracket [s],
    [rows] are the records of iterations that did not converge; they lead
    to index [j] and bracket [s']. *)
Inductive bisect_steps (f : num -> result num) (tol : num) :
    Z -> num * num * num * num -> list bracket_row ->
    Z -> num * num * num * num -> Prop :=
| bisect_steps_nil i s : bisect_steps f tol i s [] i s
| bisect_steps_cons i a b fa fb fc rows j s' :
    f ((a + b) / two) = Ok fc ->
    bisect_converged tol (bisect_row i a b fa fb fc) = false ->
    bisect_steps f tol (i + 1)%Z (next_bracket (bisect_row i a b fa fb fc))
      rows j s' ->
    bisect_steps f tol i (a, b, fa, fb)
      (bisect_row i a b fa fb fc :: rows) j s'.

(** [bisect_chain f i s rows]: [rows] are consecutive iterations from index
    [i] and bracket [s], whatever their convergence tests gave. *)
Inductive bisect_chain (f : num -> result num) :
    Z -> num * num * num * num -> list bracket_row -> Prop :=
| bisect_chain_nil i s : bisect_chain f i s []
| bisect_chain_cons i a b fa fb fc rows :
    f ((a + b) / two) = Ok fc ->
    bisect_chain f (i + 1)%Z (next_bracket (bisect_row i a b fa fb fc)) rows ->
    bisect_chain f i (a, b, fa, fb) (bisect_row i a b fa fb fc :: rows).

(** The row a Regula Falsi iteration appends. *)
Definition falsi_row (i : Z) (a b fa fb fc : num) : bracket_row :=
  BracketRow i a b ((a * fb - b * fa) / (fb - fa)) fa fb fc (absn fc).

(** [falsi_steps f tol i s rows j s']: as [bisect_steps], for the iterations
    of [regula_falsi] whose test [abs(fc) < tol] failed. *)
Inductive falsi_steps (f : num -> result num) (tol : num) :
    Z -> num * num * num * num -> list bracket_row ->
    Z -> num * num * num * num -> Prop :=
| falsi_steps_nil i s : falsi_steps f tol i s [] i s
| falsi_steps_cons i a b fa fb fc rows j s' :
    (fb - fa =? zero) = false ->
    f ((a * fb - b * fa) / (fb - fa)) = Ok fc ->
    (absn fc <? tol) = false ->
    falsi_steps f tol (i + 1)%Z (next_bracket (falsi_row i a b fa fb fc))
      rows j s' ->
    falsi_steps f tol i (a, b, fa, fb)
      (falsi_row i a b fa fb fc :: rows) j s'.

(** [falsi_chain f i s rows]: [rows] are consecutive iterations of
    [regula_falsi] from index [i] and bracket [s], whatever their
    convergence tests gave. *)
Inductive falsi_chain (f : num -> result num) :
    Z -> num * num * num * num -> list bracket_row -> Prop :=
| falsi_chain_nil i s : falsi_chain f i s []
| falsi_chain_cons i a b fa fb fc rows :
    (fb - fa =? zero) = false ->
    f ((a * fb - b * fa) / (fb - fa)) = Ok fc ->
    falsi_chain f (i + 1)%Z (next_bracket (falsi_row i a b fa fb fc)) rows ->
    falsi_chain f i (a, b, fa, fb) (falsi_row i a b fa fb fc :: rows).

Section LoopEnds.

Variable f : num -> result num.
Variable tol : num.
Variable max_iter : Z.

(** How a call of the loop that logged [rows] after [logs0] and reached
    index [j] and bracket [a'], [b'] can end: the iteration [j] meets the
    convergence test, the [n] iterations have run out, or [f] raises at the
    midpoint. *)
Definition bisect_end (n : nat)
    (o : outcome (solved num bracket_row) bracket_row)
    (logs0 rows : list bracket_row) (j : Z) (a' b' fa' fb' : num) : Prop :=
  (exists fc,
     (List.length rows < n)%nat /\
     f ((a' + b') / two) = Ok fc /\
     bisect_converged tol (bisect_row j a' b' fa' fb' fc) = true /\
     o = Returned ((a' + b') / two, absn (b' - a') / two, j,
                   logs0 ++ rows ++ [bisect_row j a' b' fa' fb' fc]))
  \/ (List.length rows = n /\
      o = Returned ((a' + b') / two, absn (b' - a') / two, max_iter,
                    logs0 ++ rows))
  \/ (exists e,
       (List.length rows < n)%nat /\
       f ((a' + b') / two) = Err e /\
       o = Raised e (logs0 ++ rows)).

(** The variables [c] and [fc] after the rows [rows] were logged. *)
Definition falsi_last (c0 : num) (fc0 : option num) (rows : list bracket_row) :
    num * option num :=
  fold_left (fun _ r => (br_c r, Some (br_fc r))) rows (c0, fc0).

(** How a call of the loop that logged [rows] after [logs0] and reached
    index [j] and bracket [a'], [b'] with function values [fa'], [fb'] can
    end; [last] holds the variables [c] and [fc] at that point. *)
Definition falsi_end (n : nat)
    (o : outcome (solved num bracket_row) bracket_row)
    (logs0 rows : list bracket_row) (j : Z) (a' b' fa' fb' : num)
    (last : num * option num) : Prop :=
  (exists fc,
     (List.length rows < n)%nat /\
     (fb' - fa' =? zero) = false /\
     f ((a' * fb' - b' * fa') / (fb' - fa')) = Ok fc /\
     (absn fc <? tol) = true /\
     o = Returned ((a' * fb' - b' * fa') / (fb' - fa'), absn fc, j,
                   logs0 ++ rows ++ [falsi_row j a' b' fa' fb' fc]))
  \/ (List.length rows = n /\
      o = match snd last with
          | Some fc => Returned (fst last, absn fc, max_iter, logs0 ++ rows)
          | None => Raised (UnboundLocalError "fc") (logs0 ++ rows)
          end)
  \/ ((List.length rows < n)%nat /\
      (fb' - fa' =? zero) = true /\
      o = Raised (ZeroDivisionError "float division by zero") (logs0 ++ rows))
  \/ (exists e,
       (List.length rows < n)%nat /\
       (fb' - fa' =? zero) = false /\
       f ((a' * fb' - b' * fa') / (fb' - fa')) = Err e /\
       o = Raised e (logs0 ++ rows)).

End LoopEnds.

End BracketLog.

(** ** Bisection rows whose arithmetic is exact *)

(** The rational number a finite float stands for (0 for the others). *)
Definition float_value (x : float) : Q :=
  match Prim2SF x with
  | S754_finite s m e =>
      ((if s then -1 else 1) * inject_Z (Zpos m) * 2 ^ e)%Q
  | _ => 0%Q
  end.

(** The midpoint that a bisection row records is a number between the
    endpoints of its bracket, in either order. *)
Definition midpoint_in_bracket (r : bracket_row (num := float)) : bool :=
  PrimFloat.is_finite (br_a r) && PrimFloat.is_finite (br_b r) &&
  PrimFloat.is_finite (br_c r) &&
  (Qle_bool (float_value (br_a r)) (float_value (br_c r)) &&
   Qle_bool (float_value (br_c r)) (float_value (br_b r)) ||
   Qle_bool (float_value (br_b r)) (float_value (br_c r)) &&
   Qle_bool (float_value (br_c r)) (float_value (br_a r))).

(** The midpoint that a bisection row records is the exact one: no
    operation of [(a + b) / 2.0] has rounded, overflowed or met a [nan]. *)
Definition exact_midpoint (r : bracket_row (num := float)) : bool :=
  PrimFloat.is_finite (br_a r) && PrimFloat.is_finite (br_b r) &&
  PrimFloat.is_finite (br_c r) &&
  Qeq_bool (float_value (br_c r))
    ((float_value (br_a r) + float_value (br_b r)) / 2).

(** The same for the half-width [abs(b - a) / 2.0] that the row records as
    its error. *)
Definition exact_error (r : bracket_row (num := float)) : bool :=
  PrimFloat.is_finite (br_a r) && PrimFloat.is_finite (br_b r) &&
  PrimFloat.is_finite (br_err r) &&
  Qeq_bool (float_value (br_err r))
    (Qabs (float_value (br_b r) - float_value (br_a r)) / 2).

(** ** Reading the log of Newton-Raphson *)

Section NewtonVocabulary.

Context {num : Type} `{Arith num}.
Local Open Scope list_scope.
Local Open Scope py_scope.

(** The row a Newton iteration appends at index [i] and iterate [x]. *)
Definition newton_row_at (i : Z) (x fx dfx : num) : newton_row :=
  NewtonRow i x (x - fx / dfx) fx dfx (absn (x - fx / dfx - x)).

(** [newton_steps f df tol i x rows j x']: from index [i] and iterate [x],
    [rows] are the records of iterations that took the step
    [x_new = x - f(x) / df(x)] with [df(x)] not 0 and did not converge; they
    lead to index [j] and iterate [x']. *)
Inductive newton_steps (f df : num -> result num) (tol : num) :
    Z -> num -> list newton_row -> Z -> num -> Prop :=
| newton_steps_nil i x : newton_steps f df tol i x [] i x
| newton_steps_cons i x fx dfx rows j x' :
    f x = Ok fx ->
    df x = Ok dfx ->
    (dfx =? zero) = false ->
    (nw_err (newton_row_at i x fx dfx) <? tol) = false ->
    newton_steps f df tol (i + 1)%Z (x - fx / dfx) rows j x' ->
    newton_steps f df tol i x (newton_row_at i x fx dfx :: rows) j x'.

(** Some iterate within the budget has a zero derivative, and [logs] are the
    records of the iterations before it. *)
Definition zero_derivative_after (f df : num -> result num) (tol : num)
    (max_iter : Z) (x0 : num) (logs : list newton_row) : Prop :=
  exists x fx dfx,
    newton_steps f df tol 1 x0 logs (1 + Z.of_nat (List.length logs))%Z x /\
    (List.length logs < Z.to_nat max_iter)%nat /\
    f x = Ok fx /\ df x = Ok dfx /\ (dfx =? zero) = true.

End NewtonVocabulary.

(** ** Iteration budgets *)

Section Budget.

Context {num row : Type}.

(** What a loop that still has [n] iterations to run, starts at index [i]
    and has logged [logs0] may end with: it returns at some iteration
    [i + m] with [m < n] after logging [m + 1] more rows, or it returns
    [max_iter] after logging [n] more rows, or it raises after logging at
    most [n] more rows. *)
Definition counted (max_iter : Z) (n : nat) (i : Z) (logs0 : list row)
    (o : outcome (solved num row) row) : Prop :=
  match o with
  | Returned (_, _, iters, logs) =>
      (exists m, (m < n)%nat /\
         List.length logs = (List.length logs0 + S m)%nat /\
         iters = (i + Z.of_nat m)%Z)
      \/ (List.length logs = (List.length logs0 + n)%nat /\ iters = max_iter)
  | Raised _ logs =>
      (List.length logs0 <= List.length logs <= List.length logs0 + n)%nat
  end.

(** A solver call stays within its iteration budget: it logs at most
    [max_iter] rows, and when it returns, the iteration count lies in
    [1 .. max_iter] and equals the length of the returned log. *)
Definition within_budget (max_iter : Z)
    (o : outcome (solved num row) row) : Prop :=
  (List.length (logs_of o) <= Z.to_nat max_iter)%nat /\
  forall root err iters logs,
    o = Returned (root, err, iters, logs) ->
    (1 <= iters <= max_iter)%Z /\ Z.of_nat (List.length logs) = iters.

End Budget.

Arguments counted : simpl never.

(** ** The common shape of the six loops *)

Section Iteration.

Context {num st row : Type}.

(** One pass through the body of a loop up to [logs.append], from the
    index [i] and the variables [s] the loop carries: the row it appends, or
    the exception it raises. *)
Variable step : Z -> st -> result row.

(** The test that ends the loop early, and the pair [(root, err)] that is
    then returned. *)
Variable converged : row -> bool.
Variable answer : row -> num * num.

(** The variables carried to the next iteration. *)
Variable next : row -> st.

(** The [return] after the loop; [last] is the row of the last iteration,
    if there was one. *)
Variable exhausted : st -> option row -> result (num * num).

Variable max_iter : Z.

Fixpoint iteration_loop (n : nat) (i : Z) (s : st) (last : option row)
    (logs : list row) : outcome (solved num row) row :=
  match n with
  | O =>
      match exhausted s last with
      | Ok (root, err) => Returned (root, err, max_iter, logs)
      | Err e => Raised e logs
      end
  | S n' =>
      match step i s with
      | Err e => Raised e logs
      | Ok r =>
          let logs := logs ++ [r] in
          if converged r
          then Returned (fst (answer r), snd (answer r), i, logs)
          else iteration_loop n' (i + 1) (next r) (Some r) logs
      end
  end.

(** [iterations i s rows]: [rows] are the records of consecutive iterations
    from index [i] and variables [s]; all but the last failed the
    convergence test. *)
Inductive iterations : Z -> st -> list row -> Prop :=
| iterations_nil i s : iterations i s []
| iterations_cons i s r rows :
    step i s = Ok r ->
    (rows <> [] -> converged r = false) ->
    iterations (i + 1)%Z (next r) rows ->
    iterations i s (r :: rows).

(** The carried variables and the last row after [rows] were logged. *)
Definition final_state (s : st) (rows : list row) : st :=
  fold_left (fun _ r => next r) rows s.

Definition last_row (last : option row) (rows : list row) : option row :=
  fold_left (fun _ r => Some r) rows last.

End Iteration.

(** ** The bodies of the secant, Newton, fixed-point and modified secant loops *)

Section Steps.

Context {num : Type} `{Arith num}.
Local Open Scope py_scope.

Definition secant_step (f : num -> result num) (i : Z) (s : num * num) :
    result secant_row :=
  let (x0, x1) := s in
  match f x0 with
  | Err e => Err e
  | Ok f0 =>
      match f x1 with
      | Err e => Err e
      | Ok f1 =>
          if f1 - f0 =? zero then Err (ZeroDivisionError secant_msg)
          else
            match pydiv (f1 * (x1 - x0)) (f1 - f0) with
            | Err e => Err e
            | Ok q => Ok (SecantRow i x0 x1 (x1 - q) f0 f1 (absn (x1 - q - x1)))
            end
      end
  end.

Definition secant_exhausted (s : num * num)
    (last : option (secant_row (num := num))) :
    result (num * num) :=
  let (x0, x1) := s in Ok (x1, absn (x1 - x0)).

Definition newton_step (f df : num -> result num) (i : Z) (x : num) :
    result newton_row :=
  match f x with
  | Err e => Err e
  | Ok fx =>
      match df x with
      | Err e => Err e
      | Ok dfx =>
          if dfx =? zero then Err (ZeroDivisionError newton_msg)
          else
            match pydiv fx dfx with
            | Err e => Err e
            | Ok q => Ok (NewtonRow i x (x - q) fx dfx (absn (x - q - x)))
            end
      end
  end.

Definition fixed_step (g : num -> result num) (i : Z) (x : num) :
    result fixed_row :=
  match g x with
  | Err e => Err e
  | Ok x_new => Ok (FixedRow i x x_new (absn (x_new - x)))
  end.

Definition modsec_step (f : num -> result num) (delta : num) (i : Z)
    (x : num) : result modsec_row :=
  match f x with
  | Err e => Err e
  | Ok fx =>
      match f (x + delta * x) with
      | Err e => Err e
      | Ok fxd =>
          if fxd - fx =? zero
          then Err (ZeroDivisionError modified_secant_msg)
          else
            match pydiv (delta * x * fx) (fxd - fx) with
            | Err e => Err e
            | Ok q => Ok (ModsecRow i x (x - q) fx (absn (x - q - x)))
            end
      end
  end.

(** The [return x, err, max_iter, logs] after a loop whose [err] is bound
    by the iterations only. *)
Definition err_exhausted {row : Type} (row_err : row -> num) (x : num)
    (last : option row) : result (num * num) :=
  match last with
  | Some r => Ok (x, row_err r)
  | None => Err (UnboundLocalError "err")
  end.

End Steps.

(** ** Evaluating an expression *)

(** [float(eval(expr, {"__builtins__": None}, local))] with [local] the
    copy of [MATH_NAMES] in which [x] is bound to the argument: the one
    place of either file where an expression is evaluated. *)
Definition float_eval {num : Type} (py : python num) (expr : string)
    (x : num) : result num :=
  match py_eval py expr (no_builtins py)
          (dict_set (MATH_NAMES py) "x" (py_of_float py x)) with
  | Ok v => py_float py v
  | Err e => Err e
  end.

(** Some evaluation of an expression, [float(eval(...))] in the closure of
    [make_function], ends in [e]. *)
Definition evaluation_ends_in (py : python float) (e : exn) : Prop :=
  exists expr x, float_eval py expr x = Err e.

(** Every evaluation of an expression gives a float or raises an
    [Exception]: none raises a [BaseException] such as [SystemExit], and
    none fails to return. *)
Definition evaluations_catchable (py : python float) : Prop :=
  forall expr x e, float_eval py expr x = Err e -> is_Exception e = true.

(** ** Runs that use up the iterations *)

(** When the call returns, it does so after the loop: the iteration count
    is [max_iter] and every iteration of [range(1, max_iter + 1)] has left
    its row. *)
Definition runs_out {num row : Type} (max_iter : Z)
    (o : outcome (solved num row) row) : Prop :=
  forall root err iters logs,
    o = Returned (root, err, iters, logs) ->
    iters = max_iter /\ List.length logs = Z.to_nat max_iter.

(** The binary64 values that are not below any tolerance [tol <= 0]: [nan],
    the zeros and the positive numbers. *)
Definition SFnonneg (x : spec_float) : Prop :=
  match x with
  | S754_nan | S754_zero _ => True
  | S754_infinity s | S754_finite s _ _ => s = false
  end.

(** ** The solvers of [app.py] beside those of [ZOF_CLI.py] *)

(** A call of a solver of [ZOF_CLI.py] and a call of its copy in [app.py]
    end alike: both return, with the same root, error and log, or both
    raise, with the same log and the same exception, up to the wording
    [msg], [msg'] of the solver's own error. *)
Definition same_run {num row : Type} (msg msg' : exn)
    (o : outcome (solved num row) row)
    (o' : outcome (num * num * list row) row) : Prop :=
  match o, o' with
  | Returned (root, err, _, logs), Returned (root', err', logs') =>
      root = root' /\ err = err' /\ logs = logs'
  | Raised e logs, Raised e' logs' =>
      logs = logs' /\ (e = e' \/ (e = msg /\ e' = msg'))
  | _, _ => False
  end.

(** The same for [newton_raphson] and the loop inlined in [index], whose
    result dict holds no error estimate. *)
Definition same_newton_run {num : Type}
    (o : outcome (solved num (newton_row (num := num))) (newton_row (num := num)))
    (o' : outcome (app.result_dict (num := num)) (newton_row (num := num))) :
    Prop :=
  match o, o' with
  | Returned (root, _, _, logs), Returned r =>
      app.rd_root r = root /\ app.rd_logs r = logs /\ app.rd_error r = None
  | Raised e logs, Raised e' logs' =>
      logs = logs' /\
      (e = e' \/
       (e = ZeroDivisionError newton_msg /\
        e' = ZeroDivisionError app.newton_msg))
  | _, _ => False
  end.

(** ** What a page of [index] shows *)

(** The response [resp] of [index] shows what a solver call of
    [ZOF_CLI.py] ended with: it is the rendering of the page with the
    root, error and log as the result [mk root err logs] and no error
    message, or of the page with no result and the message of the
    exception; what is no [Exception] leaves [index] instead. *)
Definition shows {row html : Type} (render : app.page -> result html)
    (mk : float -> float -> list row -> app.index_result)
    (o : outcome (solved float row) row) (resp : result html) : Prop :=
  match o with
  | Returned (root, err, _, logs) =>
      resp = render (app.Page (Some (mk root err logs)) None)
  | Raised e _ =>
      if is_Exception e
      then exists msg, resp = render (app.Page None (Some msg))
      else resp = Err e
  end.

(** ** What leaves a solver call *)

(** A call of [f] gives a value, or raises an [Exception], or ends in
    something [P] holds of. *)
Definition lets_through {num : Type} (P : exn -> Prop)
    (f : num -> result num) : Prop :=
  forall x e, f x = Err e -> is_Exception e = true \/ P e.

(** The same for a call of a solver. *)
Definition raises_in {A row : Type} (P : exn -> Prop) (o : outcome A row) :
    Prop :=
  match o with
  | Returned _ => True
  | Raised e _ => is_Exception e = true \/ P e
  end.

(** ** Sessions at the console *)

(** A statement is left by nothing but what [P] holds of. *)
Definition throws {A : Type} (P : cli_exn -> Prop) (m : io A) : Prop :=
  forall c e c', m c = (Threw e, c') -> P e.

(** What can leave the body of the [try] of [main]: what the [except]
    catches, and what an evaluation of an expression ended in. *)
Definition leaves_method (py : python float) (e : cli_exn) : Prop :=
  caught e = true \/ exists e', e = Exn e' /\ evaluation_ends_in py e'.

(** A statement never gives lines back to standard input. *)
Definition reads {A : Type} (m : io A) : Prop :=
  forall c r c',
    m c = (r, c') -> (List.length (stdin c') <= List.length (stdin c))%nat.

(** [float(s)] raises nothing but [ValueError]. *)
Definition float_raises_ValueError (conv : conversions) : Prop :=
  forall s e, float_of_str conv s = Err e -> exists msg, e = ValueError msg.

(** A session is cut short: an evaluation ended in what [except Exception]
    does not catch, and that left [main] (or, for [NeverReturns], [main]
    never got back from the call). *)
Definition session_cut (py : python float) (r : ran unit) : Prop :=
  exists e,
    r = Threw (Exn e) /\ is_Exception e = false /\ evaluation_ends_in py e.

(** How a session can end: [main] returns after [Goodbye], or it is left by
    the [EOFError] of a prompt that found no line, or by the exception of
    [int] on an answer to [Max iterations] that is infinite or not a
    number. *)
Definition session_end (r : ran unit) (c : console) : Prop :=
  (r = Done tt /\ last (stdout c) ""%string = ("Goodbye" ++ nl)%string)
  \/ (r = Threw EOFError /\ stdin c = [])
  \/ r = Threw (OverflowError int_inf_msg)
  \/ r = Threw (Exn (ValueError int_nan_msg)).

(** What an answer to the prompt [Tolerance] stands for: the default at
    an empty line, else the float of the line. *)
Definition tolerance_answer (conv : conversions) (line : string)
    (tol : float) : Prop :=
  (line = ""%string /\ tol = ZOF_CLI.f1e6) \/
  (line <> ""%string /\ float_of_str conv line = Ok tol).

(** What an answer to the prompt [Max iterations] stands for: the default
    50 at an empty line, else [int] of the float of the line. *)
Definition max_iter_answer (conv : conversions) (line : string)
    (max_iter : Z) : Prop :=
  (line = ""%string /\ max_iter = 50%Z) \/
  (line <> ""%string /\
   exists x, float_of_str conv line = Ok x /\
             forall c, int_of_float x c = (Done max_iter, c)).

(** How a turn ends after its solver call: with the next turn, also when
    the call raised an [Exception]; what is no [Exception] leaves
    [main]. *)
Definition turn_end {A row : Type} (o : outcome A row) : ran turn :=
  match o with
  | Returned _ => Done Next
  | Raised e _ => if is_Exception e then Done Next else Threw (Exn e)
  end.

(** The lines written after the prompts of a bisection turn: the log and the
    result, or the error when it is an [Exception]. *)
Definition bisection_output (py : python float)
    (o : outcome (solved float (bracket_row (num := float)))
           (bracket_row (num := float))) : list string :=
  match o with
  | Returned (root, ferr, iters, logs) =>
      [(nl ++ "Iteration logs: (i, a, b, c, f(a), f(b), f(c), err)" ++ nl)%string]
      ++ map (fun r => (repr_bracket_row py r ++ nl)%string) logs
      ++ [(nl ++ "Final result:" ++ nl)%string;
          ("Estimated root = " ++ str_float py root ++ nl)%string;
          ("Final error estimate = " ++ str_float py ferr ++ nl)%string;
          (("Iterations = " ++ str_int iters ++ nl) ++ nl)%string]
  | Raised e _ =>
      if is_Exception e
      then [("Error during method: " ++ str_exn py e ++ nl)%string]
      else []
  end.

(** ** Example inputs *)

(** [f(x) = x - 0.75], the expression ["x - 0.75"]. *)
Definition line_075 (x : float) : result float := Ok (x - 0.75)%float.

(** The float nearest to [1e-6], the default tolerance. *)
Definition tol_1e6 : float := 0x1.0c6f7a0b5ed8dp-20%float.

(** [f(x) = x - 0.625], the expression ["x - 0.625"]. *)
Definition line_0625 (x : float) : result float := Ok (x - 0.625)%float.

(** [f(x) = x * 2**-700]: positive on [1, 2], with values so small that
    the product of two of them underflows to [0.0]. *)
Definition tiny_line (x : float) : result float := Ok (x * 0x1p-700)%float.

(** [f(x) = (1.25 - x) * 2**-700]: it changes sign at [1.25], and the
    product of two of its values on [1, 2] underflows to [0.0] or
    [-0.0]. *)
Definition tiny_slope (x : float) : result float :=
  Ok ((1.25 - x) * 0x1p-700)%float.

(** [f(x) = x - 1.25 * 2**1023], with a root between the floats [2**1023]
    and [1.5 * 2**1023], whose sum overflows. *)
Definition overflowing_line (x : float) : result float :=
  Ok (x - 0x1.4p+1023)%float.

(** [f(x) = x - 1 - 2**-53] on floats. *)
Definition line_near_1 (x : float) : result float :=
  Ok (x - 1 - 0x1p-53)%float.

(** [f(x) = 1e308 * 10 + x]: the product overflows to [inf] without raising. *)
Definition overflowing (x : float) : result float :=
  Ok (0x1.1ccf385ebc8ap+1023 * 10 + x)%float.

(** [f(x) = x * x - 2], the expression ["x**2 - 2"] for finite values. *)
Definition parabola (x : float) : result float := Ok (x * x - 2)%float.

(** The float nearest to [1e-3], the default [delta]. *)
Definition delta_1e3 : float := 0x1.0624dd2f1a9fcp-10%float.

(** [f'(x) = 2 * x]. *)
Definition parabola' (x : float) : result float := Ok (2 * x)%float.

(** [f(x) = x * x - 2 * x + 2] and its derivative [2 * x - 2], which
    vanishes at the first Newton iterate from [x0 = 2]. *)
Definition raised_parabola (x : float) : result float :=
  Ok (x * x - 2 * x + 2)%float.

Definition raised_parabola' (x : float) : result float :=
  Ok (2 * x - 2)%float.

(** The integer a float stands for, when it is a whole number other than
    [-0.0] and below [10**16] in absolute value. *)
Definition whole_number (x : float) : option Z :=
  match Prim2SF x with
  | S754_zero false => Some 0%Z
  | S754_finite s m e =>
      let n :=
        if (0 <=? e)%Z then Some (Zpos m * 2 ^ e)%Z
        else if (Zpos m mod 2 ^ (- e) =? 0)%Z then Some (Zpos m / 2 ^ (- e))%Z
        else None in
      match n with
      | Some n =>
          if (n <? 10 ^ 16)%Z then Some (if s then (- n)%Z else n) else None
      | None => None
      end
  | _ => None
  end.

(** A stand-in for the interpreter, enough to run [make_function] on
    examples whose expression is one name: it looks the name up in the
    locals and then in the globals.  A name bound in neither is looked up
    in the built-ins, which are [None]: the interpreter raises [TypeError],
    not [NameError].  The only strings among the values are names of
    modules, which [float] rejects.  A float is shown as Python shows it
    when it is a whole number ([1.0]), and as [<float>] otherwise. *)
Inductive name_obj : Type :=
| NoneObj
| FloatObj (x : float)
| StrObj (s : string)
| BuiltinObj (name : string).

Definition names_only : python float :=
  {| pyobj := name_obj;
     py_none := NoneObj;
     py_of_float := FloatObj;
     math_attrs :=
       [("__name__"%string, StrObj "math");
        ("e"%string, FloatObj 0x1.5bf0a8b145769p+1%float);
        ("pi"%string, FloatObj 0x1.921fb54442d18p+1%float);
        ("sqrt"%string, BuiltinObj "sqrt")];
     py_abs := BuiltinObj "abs";
     py_pow := BuiltinObj "pow";
     py_eval := fun expr globals locals =>
       match locals expr with
       | Some v => Ok v
       | None =>
           match globals expr with
           | Some v => Ok v
           | None => Err (TypeError "'NoneType' object is not subscriptable")
           end
       end;
     py_float := fun v =>
       match v with
       | FloatObj x => Ok x
       | NoneObj =>
           Err (TypeError
                  "float() argument must be a string or a real number, not 'NoneType'")
       | StrObj s =>
           Err (ValueError
                  ("could not convert string to float: '" ++ s ++ "'"))
       | BuiltinObj _ =>
           Err (TypeError
                  "float() argument must be a string or a real number, not 'builtin_function_or_method'")
       end;
     str_float := fun x =>
       match whole_number x with
       | Some n => (NilZero.string_of_int (Z.to_int n) ++ ".0")%string
       | None => "<float>"%string
       end;
     str_exn := fun e =>
       match e with
       | ValueError msg | ZeroDivisionError msg | TypeError msg => msg
       | UnboundLocalError var => var
       | OtherException _ msg | BaseException _ msg => msg
       | NeverReturns => ""%string
       end |}.

(** [f(x) = x * x - 1], with the roots [-1] and [1]. *)
Definition parabola_roots (x : float) : result float := Ok (x * x - 1)%float.

(** [f(x) = x]. *)
Definition identity (x : float) : result float := Ok x.

(** [g(x) = (x + 1) / 2], with the fixed point [1]. *)
Definition halfway (x : float) : result float := Ok ((x + 1) / 2)%float.

(** A stand-in for [float] and [int] on strings, enough to run examples: it
    reads unsigned decimal integers, and also ["inf"] and ["nan"] as
    floats. *)
Definition decimal_only : conversions :=
  {| float_of_str := fun s =>
       if String.eqb s "inf" then Ok infinity
       else if String.eqb s "nan" then Ok nan
       else
         match NilZero.uint_of_string s with
         | Some d => Ok (PrimFloat.of_uint63 (Uint63.of_Z (Z.of_uint d)))
         | None =>
             Err (ValueError
                    ("could not convert string to float: '" ++ s ++ "'"))
         end;
     int_of_str := fun s =>
       match NilZero.uint_of_string s with
       | Some d => Ok (Z.of_uint d)
       | None =>
           Err (ValueError
                  ("invalid literal for int() with base 10: '" ++ s ++ "'"))
       end |}.

(** A form with the given fields. *)
Definition form_of (fields : list (string * string)) : namespace string :=
  dict_of fields.

(** How the examples show the [KeyError] of a missing form field. *)
Definition bad_request (key : string) : string :=
  ("400 Bad Request: " ++ key)%string.

(** A stand-in for [render_template]: the response is the page itself. *)
Definition page_itself (pg : app.page) : result app.page := Ok pg.

(** [f(x) = 3], a function without a root. *)
Definition constant_3 (x : float) : result float := Ok 3%float.

(** * Properties *)

(** ** Two facts on the last element of a list *)

Lemma nth_error_snoc_cases {A : Type} (l : list A) (x : A) k r :
  nth_error (l ++ [x]) k = Some r ->
  ((k < List.length l)%nat /\ nth_error l k = Some r) \/
  (k = List.length l /\ r = x).
Proof.
  intros Hk. destruct (Nat.lt_ge_cases k (List.length l)) as [Hlt|Hge].
  - left. split; auto. now rewrite nth_error_app1 in Hk.
  - right. rewrite nth_error_app2 in Hk by assumption.
    destruct (k - List.length l)%nat as [|d] eqn:Ed; simpl in Hk.
    + split; [lia|congruence].
    + now destruct d.
Qed.

Lemma nth_error_last_snoc {A : Type} (l : list A) k r :
  nth_error l k = Some r -> List.length l = S k ->
  exists pre, l = pre ++ [r].
Proof.
  intros Hk Hlen.
  destruct (exists_last (l := l)) as (pre & x & ->); [now destruct l|].
  exists pre. rewrite length_app in Hlen. simpl in Hlen.
  destruct (nth_error_snoc_cases _ _ _ _ Hk) as [(Hlt & _)|(_ & ->)];
    [lia|reflexivity].
Qed.

(** ** Bisection: what a run of the loop looks like *)

Section BisectionRun.

Context {num : Type} `{Arith num}.
Local Open Scope list_scope.
Local Open Scope py_scope.

Variable f : num -> result num.
Variable tol : num.
Variable max_iter : Z.

Lemma next_bracket_bisect_lt i a b fa fb fc :
  (fa * fc <? zero) = true ->
  next_bracket (bisect_row i a b fa fb fc) = (a, (a + b) / two, fa, fc).
Proof. intros E. unfold next_bracket; simpl. now rewrite E. Qed.

Lemma next_bracket_bisect_ge i a b fa fb fc :
  (fa * fc <? zero) = false ->
  next_bracket (bisect_row i a b fa fb fc) = ((a + b) / two, b, fc, fb).
Proof. intros E. unfold next_bracket; simpl. now rewrite E. Qed.

Lemma bisect_end_cons n o logs0 r rows j a' b' fa' fb' :
  bisect_end f tol max_iter n o (logs0 ++ [r]) rows j a' b' fa' fb' ->
  bisect_end f tol max_iter (S n) o logs0 (r :: rows) j a' b' fa' fb'.
Proof.
  intros [(fc & Hl & Hf & Hc & Hr)|[(Hl & Hr)|(e & Hl & Hf & Hr)]];
    rewrite <- app_assoc in Hr; simpl in Hr.
  - left. exists fc. simpl. repeat split; auto. lia.
  - right; left. simpl. split; auto.
  - right; right. exists e. simpl. repeat split; auto. lia.
Qed.

Lemma bisection_loop_run (n : nat) :
  forall i a b fa fb (logs0 : list bracket_row),
  exists rows j a' b' fa' fb',
    bisect_steps f tol i (a, b, fa, fb) rows j (a', b', fa', fb') /\
    bisect_end f tol max_iter n (bisection_loop f tol max_iter n i a b fa fb logs0)
      logs0 rows j a' b' fa' fb'.
Proof.
  induction n as [|n IH]; intros i a b fa fb logs0.
  - exists [], i, a, b, fa, fb. split; [constructor|].
    right; left. simpl. now rewrite app_nil_r.
  - simpl. destruct (f ((a + b) / two)) as [fc|e] eqn:Efc; simpl.
    + fold (bisect_row i a b fa fb fc).
      destruct ((absn fc <? tol) || (absn (b - a) / two <? tol)) eqn:Ec.
      * exists [], i, a, b, fa, fb. split; [constructor|].
        left. exists fc. simpl. repeat split; auto. lia.
      * assert (Hstep : forall a1 b1 fa1 fb1,
          next_bracket (bisect_row i a b fa fb fc) = (a1, b1, fa1, fb1) ->
          exists rows j a' b' fa' fb',
            bisect_steps f tol i (a, b, fa, fb) rows j (a', b', fa', fb') /\
            bisect_end f tol max_iter (S n)
              (bisection_loop f tol max_iter n (i + 1) a1 b1 fa1 fb1
                 (logs0 ++ [bisect_row i a b fa fb fc]))
              logs0 rows j a' b' fa' fb').
        { intros a1 b1 fa1 fb1 Hnext.
          destruct (IH (i + 1)%Z a1 b1 fa1 fb1
                      (logs0 ++ [bisect_row i a b fa fb fc]))
            as (rows & j & a' & b' & fa' & fb' & Hsteps & Hend).
          exists (bisect_row i a b fa fb fc :: rows), j, a', b', fa', fb'.
          split.
          - constructor; auto. now rewrite Hnext.
          - now apply bisect_end_cons. }
        destruct (fa * fc <? zero) eqn:Es.
        -- apply Hstep. now apply next_bracket_bisect_lt.
        -- apply Hstep. now apply next_bracket_bisect_ge.
    + exists [], i, a, b, fa, fb. split; [constructor|].
      right; right. exists e. simpl. rewrite app_nil_r. repeat split; auto. lia.
Qed.

Lemma bisect_steps_index i s rows j s' :
  bisect_steps f tol i s rows j s' -> j = (i + Z.of_nat (List.length rows))%Z.
Proof.
  induction 1 as [|i a b fa fb fc rows j s' Hf Hc Hs IH]; simpl List.length; lia.
Qed.

Lemma bisect_steps_unconverged i s rows j s' :
  bisect_steps f tol i s rows j s' ->
  forall r, In r rows -> bisect_converged tol r = false.
Proof.
  induction 1 as [|i a b fa fb fc rows j s' Hf Hc Hs IH]; intros r Hin.
  - destruct Hin.
  - destruct Hin as [<-|Hin]; auto.
Qed.

Lemma bisect_steps_last i s pre r j s' :
  bisect_steps f tol i s (pre ++ [r]) j s' -> s' = next_bracket r.
Proof.
  revert i s. induction pre as [|p pre IH]; intros i s Hs; simpl in Hs.
  - inversion Hs as [|i0 a b fa fb fc rows j0 s0 Hf Hc Hrest]; subst.
    now inversion Hrest.
  - inversion Hs; subst. eauto.
Qed.

Lemma bisect_steps_chain i s rows j s' :
  bisect_steps f tol i s rows j s' -> bisect_chain f i s rows.
Proof. induction 1; constructor; auto. Qed.

Lemma bisect_steps_chain_final i s rows j a' b' fa' fb' fc :
  bisect_steps f tol i s rows j (a', b', fa', fb') ->
  f ((a' + b') / two) = Ok fc ->
  bisect_chain f i s (rows ++ [bisect_row j a' b' fa' fb' fc]).
Proof.
  intros Hs Hf. remember (a', b', fa', fb') as s' eqn:Es'.
  induction Hs; subst; simpl.
  - constructor; [assumption|constructor].
  - constructor; auto.
Qed.

Lemma bisect_chain_nth i s rows :
  bisect_chain f i s rows ->
  forall k r, nth_error rows k = Some r ->
    r = bisect_row (i + Z.of_nat k) (br_a r) (br_b r) (br_fa r) (br_fb r) (br_fc r) /\
    f (br_c r) = Ok (br_fc r) /\
    (k = 0%nat -> (br_a r, br_b r, br_fa r, br_fb r) = s) /\
    forall r', nth_error rows (S k) = Some r' ->
      (br_a r', br_b r', br_fa r', br_fb r') = next_bracket r.
Proof.
  induction 1 as [|i a b fa fb fc rows Hf Hc IH]; intros k r Hk.
  - now destruct k.
  - destruct k as [|k]; simpl in Hk.
    + injection Hk as <-. simpl. rewrite Z.add_0_r. repeat split; auto.
      intros r' Hr'. simpl in Hr'.
      destruct (IH 0%nat r' Hr') as (_ & _ & H0 & _). now apply H0.
    + destruct (IH k r Hk) as (Hrow & Hfr & _ & Hnext).
      repeat split; auto.
      * rewrite Hrow at 1. f_equal. lia.
      * discriminate.
Qed.

(** The whole call: the bracket check fails with an empty log, or the
    loop runs from index 1 and the given bracket. *)
Lemma bisection_run a b :
  (exists e,
     bisection f tol max_iter a b = Raised e [] /\
     (f a = Err e \/
      (exists fa, f a = Ok fa /\ f b = Err e) \/
      (exists fa fb, f a = Ok fa /\ f b = Ok fb /\
         (zero <? fa * fb) = true /\ e = ValueError bisection_msg)))
  \/ (exists fa fb rows j a' b' fa' fb',
        f a = Ok fa /\ f b = Ok fb /\ (zero <? fa * fb) = false /\
        bisect_steps f tol 1 (a, b, fa, fb) rows j (a', b', fa', fb') /\
        bisect_end f tol max_iter (range_len max_iter) (bisection f tol max_iter a b)
          [] rows j a' b' fa' fb').
Proof.
  unfold bisection.
  destruct (f a) as [fa|e] eqn:Ea; simpl; [|left; exists e; auto].
  destruct (f b) as [fb|e] eqn:Eb; simpl.
  2:{ left; exists e; split; auto. right; left. exists fa; auto. }
  destruct (zero <? fa * fb) eqn:Es.
  - left. exists (ValueError bisection_msg). split; auto.
    right; right. exists fa, fb. auto.
  - right.
    destruct (bisection_loop_run (range_len max_iter) 1 a b fa fb [])
      as (rows & j & a' & b' & fa' & fb' & Hsteps & Hend).
    exists fa, fb, rows, j, a', b', fa', fb'. auto.
Qed.

Lemma bisection_log_nth a b k r :
  nth_error (logs_of (bisection f tol max_iter a b)) k = Some r ->
  r = bisect_row (1 + Z.of_nat k) (br_a r) (br_b r) (br_fa r) (br_fb r) (br_fc r) /\
  f (br_c r) = Ok (br_fc r) /\
  forall r', nth_error (logs_of (bisection f tol max_iter a b)) (S k) = Some r' ->
    (br_a r', br_b r', br_fa r', br_fb r') = next_bracket r /\
    bisect_converged tol r = false.
Proof.
  destruct (bisection_run a b)
    as [(e & -> & _)
       |(fa & fb & rows & j & a' & b' & fa' & fb' & _ & _ & _ & Hsteps & Hend)].
  - now destruct k.
  - assert (Hin : forall L r', (List.length L <= 1)%nat ->
                    nth_error (rows ++ L) (S k) = Some r' ->
                    nth_error (rows ++ L) k = Some r -> In r rows).
    { intros L r' HL Hsk Hk.
      assert (Hlt : (S k < List.length (rows ++ L))%nat)
        by (apply nth_error_Some; congruence).
      rewrite length_app in Hlt.
      rewrite nth_error_app1 in Hk by lia. eapply nth_error_In; eauto. }
    destruct Hend as [(fc & Hl & Hf & Hc & ->)|[(Hl & ->)|(e & Hl & Hf & ->)]];
      simpl logs_of; intros Hk.
    + pose proof (bisect_steps_chain_final _ _ _ _ _ _ _ _ _ Hsteps Hf) as Hchain.
      destruct (bisect_chain_nth _ _ _ Hchain _ _ Hk) as (Hrow & Hfr & _ & Hnext).
      repeat split; auto.
      eapply bisect_steps_unconverged; eauto.
      eapply Hin; eauto. simpl; lia.
    + pose proof (bisect_steps_chain _ _ _ _ _ Hsteps) as Hchain.
      destruct (bisect_chain_nth _ _ _ Hchain _ _ Hk) as (Hrow & Hfr & _ & Hnext).
      repeat split; auto.
      eapply bisect_steps_unconverged; eauto.
      apply (Hin [] r'); rewrite ?app_nil_r; simpl; auto.
    + pose proof (bisect_steps_chain _ _ _ _ _ Hsteps) as Hchain.
      destruct (bisect_chain_nth _ _ _ Hchain _ _ Hk) as (Hrow & Hfr & _ & Hnext).
      repeat split; auto.
      eapply bisect_steps_unconverged; eauto.
      apply (Hin [] r'); rewrite ?app_nil_r; simpl; auto.
Qed.

(** A logged row that meets the convergence test is the last one, and the
    call returns its midpoint, its error and its index. *)
Lemma bisection_log_converged a b k r :
  nth_error (logs_of (bisection f tol max_iter a b)) k = Some r ->
  bisect_converged tol r = true ->
  bisection f tol max_iter a b =
    Returned (br_c r, br_err r, br_i r, logs_of (bisection f tol max_iter a b)) /\
  List.length (logs_of (bisection f tol max_iter a b)) = S k.
Proof.
  destruct (bisection_run a b)
    as [(e & -> & _)
       |(fa & fb & rows & j & a' & b' & fa' & fb' & _ & _ & _ & Hsteps & Hend)].
  - now destruct k.
  - assert (Hrows : forall k, nth_error rows k = Some r ->
                              bisect_converged tol r = true -> False).
    { intros k0 Hk Hc. apply nth_error_In in Hk.
      rewrite (bisect_steps_unconverged _ _ _ _ _ Hsteps _ Hk) in Hc. discriminate. }
    destruct Hend as [(fc & Hl & Hf & Hc & ->)|[(Hl & ->)|(e & Hl & Hf & ->)]];
      simpl logs_of; intros Hk Hconv.
    + destruct (Nat.lt_ge_cases k (List.length rows)) as [Hlt|Hge].
      * rewrite nth_error_app1 in Hk by assumption. now destruct (Hrows k).
      * rewrite nth_error_app2 in Hk by assumption.
        destruct (k - List.length rows)%nat as [|d] eqn:Ed; simpl in Hk.
        -- injection Hk as <-. simpl. split; auto.
           rewrite length_app. simpl. lia.
        -- now destruct d.
    + now destruct (Hrows k).
    + now destruct (Hrows k).
Qed.

(** After a last logged row that fails the convergence test, the call
    returns the midpoint and the half-width of the bracket the sign test
    leaves, or [f] raises at that midpoint. *)
Lemma bisection_log_last a b pre r :
  logs_of (bisection f tol max_iter a b) = pre ++ [r] ->
  bisect_converged tol r = false ->
  exists a' b' fa' fb',
    next_bracket r = (a', b', fa', fb') /\
    ((List.length (pre ++ [r]) = range_len max_iter /\
      bisection f tol max_iter a b =
        Returned ((a' + b') / two, absn (b' - a') / two, max_iter, pre ++ [r]))
     \/ (exists e,
          (List.length (pre ++ [r]) < range_len max_iter)%nat /\
          f ((a' + b') / two) = Err e /\
          bisection f tol max_iter a b = Raised e (pre ++ [r]))).
Proof.
  destruct (bisection_run a b)
    as [(e & -> & _)
       |(fa & fb & rows & j & a' & b' & fa' & fb' & _ & _ & _ & Hsteps & Hend)].
  - simpl. intros HL. now destruct pre.
  - destruct Hend as [(fc & Hl & Hf & Hc & ->)|[(Hl & ->)|(e & Hl & Hf & ->)]];
      simpl logs_of; intros HL Hconv.
    + apply app_inj_tail in HL. destruct HL as [_ <-]. congruence.
    + subst rows. exists a', b', fa', fb'. split.
      * symmetry. eapply bisect_steps_last; eauto.
      * left. auto.
    + subst rows. exists a', b', fa', fb'. split.
      * symmetry. eapply bisect_steps_last; eauto.
      * right. exists e. auto.
Qed.

(** C2 (amended): when [bisection] has logged [max_iter] iterations and the
    last one fails the convergence test, it raises nothing and returns
    [max_iter] as iteration count, with the midpoint and the half-width of
    the bracket as updated by that last iteration, that is of [a, c] when
    [fa * fc < 0] and of [c, b] otherwise; these are not the [c] and [err]
    of the last logged row. *)
Theorem bisection_exhausted_returns_updated_bracket a b pre r :
  logs_of (bisection f tol max_iter a b) = pre ++ [r] ->
  List.length (pre ++ [r]) = Z.to_nat max_iter ->
  (absn (br_fc r) <? tol) || (br_err r <? tol) = false ->
  let (a', b') :=
    if br_fa r * br_fc r <? zero then (br_a r, br_c r) else (br_c r, br_b r) in
  bisection f tol max_iter a b =
    Returned ((a' + b') / two, absn (b' - a') / two, max_iter, pre ++ [r]).
Proof.
  intros HL Hlen Hconv.
  destruct (bisection_log_last a b pre r HL Hconv)
    as (a' & b' & fa' & fb' & Hnext & [(_ & Hret)|(e & Hlt & _)]).
  - unfold next_bracket in Hnext.
    destruct (br_fa r * br_fc r <? zero); injection Hnext as <- <- _ _; exact Hret.
  - unfold range_len in Hlt. lia.
Qed.

(** Two consecutive logged rows: each error is the half-width of its own
    bracket, and the later bracket is [a, c] or [c, b] of the earlier. *)
Lemma bisection_log_consecutive a b k r r' :
  nth_error (logs_of (bisection f tol max_iter a b)) k = Some r ->
  nth_error (logs_of (bisection f tol max_iter a b)) (S k) = Some r' ->
  br_c r = (br_a r + br_b r) / two /\
  br_err r = absn (br_b r - br_a r) / two /\
  br_err r' = absn (br_b r' - br_a r') / two /\
  ((br_a r' = br_a r /\ br_b r' = br_c r) \/
   (br_a r' = br_c r /\ br_b r' = br_b r)).
Proof.
  intros Hk Hk'.
  destruct (bisection_log_nth a b k r Hk) as (Hrow & _ & Hnext).
  destruct (bisection_log_nth a b (S k) r' Hk') as (Hrow' & _ & _).
  destruct (Hnext r' Hk') as (Htuple & _).
  split; [rewrite Hrow at 1; reflexivity|].
  split; [rewrite Hrow at 1; reflexivity|].
  split; [rewrite Hrow' at 1; reflexivity|].
  unfold next_bracket in Htuple.
  destruct (br_fa r * br_fc r <? zero); injection Htuple as -> -> _ _; auto.
Qed.

End BisectionRun.

(** ** Signs of binary64 products *)

Lemma Prim2SF_zero : Prim2SF 0%float = S754_zero false.
Proof. vm_compute. reflexivity. Qed.

(** Rounding keeps the sign it is given. *)
Lemma SFmul_binary_sign s m e :
  match binary_round_aux prec emax s m e loc_Exact with
  | S754_zero s' | S754_infinity s' | S754_finite s' _ _ => s' = s
  | S754_nan => True
  end.
Proof.
  unfold binary_round_aux.
  destruct (shr_fexp _ _ _ _ _) as [mrs' e1].
  destruct (shr_fexp _ _ _ _ _) as [mrs'' e2].
  destruct (shr_m mrs''); simpl; auto.
  destruct (e2 <=? _)%Z; simpl; auto.
Qed.

(** A product that compares below 0 has factors of strictly opposite
    signs; one that compares above 0 has factors of strictly the same
    sign.  The converses fail where the product underflows. *)
Lemma float_mul_neg_signs (x y : float) :
  PrimFloat.ltb (x * y) 0 = true ->
  (PrimFloat.ltb x 0 = true /\ PrimFloat.ltb 0 y = true) \/
  (PrimFloat.ltb 0 x = true /\ PrimFloat.ltb y 0 = true).
Proof.
  rewrite !FloatAxioms.ltb_spec, FloatAxioms.mul_spec, Prim2SF_zero.
  destruct (Prim2SF x) as [s|s| |s m e], (Prim2SF y) as [s'|s'| |s' m' e'];
    try (repeat match goal with b : bool |- _ => destruct b end;
         cbn; intros E; try discriminate E; auto; fail).
  unfold SF64mul, SFmul.
  pose proof (SFmul_binary_sign (xorb s s') (Z.pos (m * m')) (e + e')) as Hs.
  destruct (binary_round_aux _ _ _ _ _ _) as [s0|s0| |s0 m0 e0];
    try subst s0; destruct s, s'; cbn; intros E; try discriminate E; auto.
Qed.

Lemma float_mul_pos_signs (x y : float) :
  PrimFloat.ltb 0 (x * y) = true ->
  (PrimFloat.ltb 0 x = true /\ PrimFloat.ltb 0 y = true) \/
  (PrimFloat.ltb x 0 = true /\ PrimFloat.ltb y 0 = true).
Proof.
  rewrite !FloatAxioms.ltb_spec, FloatAxioms.mul_spec, Prim2SF_zero.
  destruct (Prim2SF x) as [s|s| |s m e], (Prim2SF y) as [s'|s'| |s' m' e'];
    try (repeat match goal with b : bool |- _ => destruct b end;
         cbn; intros E; try discriminate E; auto; fail).
  unfold SF64mul, SFmul.
  pose proof (SFmul_binary_sign (xorb s s') (Z.pos (m * m')) (e + e')) as Hs.
  destruct (binary_round_aux _ _ _ _ _ _) as [s0|s0| |s0 m0 e0];
    try subst s0; destruct s, s'; cbn; intros E; try discriminate E; auto.
Qed.

(** ** Bisection: the iteration and what follows it *)

Section BisectionProgress.

Context {num : Type} `{Arith num}.
Local Open Scope list_scope.
Local Open Scope py_scope.

Variable f : num -> result num.
Variable tol : num.
Variable max_iter : Z.

Lemma bisect_chain_values i a b fa fb rows :
  bisect_chain f i (a, b, fa, fb) rows ->
  f a = Ok fa -> f b = Ok fb ->
  forall r, In r rows ->
    f (br_a r) = Ok (br_fa r) /\ f (br_b r) = Ok (br_fb r).
Proof.
  intros Hc. remember (a, b, fa, fb) as s eqn:Es. revert a b fa fb Es.
  induction Hc as [|i a0 b0 fa0 fb0 fc rows Hf Hc IH];
    intros a b fa fb Es Ha Hb r Hin; [destruct Hin|].
  injection Es as -> -> -> ->.
  destruct Hin as [<-|Hin]; [now split|].
  unfold next_bracket in IH. cbn [bisect_row br_a br_b br_c br_fa br_fb br_fc] in IH.
  destruct (fa * fc <? zero); eapply IH; eauto.
Qed.

(** A call that logged a row has passed the bracket check, and its log is
    a chain of iterations from index 1 and the bracket of the call. *)
Lemma bisection_log_chain a b :
  logs_of (bisection f tol max_iter a b) <> [] ->
  exists fa fb,
    f a = Ok fa /\ f b = Ok fb /\ (zero <? fa * fb) = false /\
    bisect_chain f 1 (a, b, fa, fb) (logs_of (bisection f tol max_iter a b)).
Proof.
  destruct (bisection_run f tol max_iter a b)
    as [(e & -> & _)
       |(fa & fb & rows & j & a' & b' & fa' & fb' & Ha & Hb & Hs & Hsteps & Hend)].
  - intros Hne. now destruct Hne.
  - intros _. exists fa, fb. repeat split; auto.
    destruct Hend as [(fc & Hl & Hf & Hc & ->)|[(Hl & ->)|(e & Hl & Hf & ->)]];
      simpl logs_of.
    + eapply bisect_steps_chain_final; eauto.
    + eapply bisect_steps_chain; eauto.
    + eapply bisect_steps_chain; eauto.
Qed.

(** What a logged row records of the bracket: the values of [f] at its
    endpoints, and at the first row the bracket of the call, which passed
    the bracket check. *)
Lemma bisection_log_values a b k r :
  nth_error (logs_of (bisection f tol max_iter a b)) k = Some r ->
  f (br_a r) = Ok (br_fa r) /\ f (br_b r) = Ok (br_fb r) /\
  (k = 0%nat ->
   br_a r = a /\ br_b r = b /\ (zero <? br_fa r * br_fb r) = false).
Proof.
  intros Hk.
  destruct (bisection_log_chain a b) as (fa & fb & Ha & Hb & Hs & Hchain).
  { intros E. rewrite E in Hk. now destruct k. }
  destruct (bisect_chain_values _ _ _ _ _ _ Hchain Ha Hb r
              (nth_error_In _ _ Hk)) as (Hra & Hrb).
  split; [exact Hra|]. split; [exact Hrb|].
  intros ->.
  destruct (bisect_chain_nth f _ _ _ Hchain _ _ Hk) as (_ & _ & H0 & _).
  specialize (H0 eq_refl). injection H0 as -> -> -> ->. auto.
Qed.

(** After a logged row that fails the convergence test: the next row works
    on the bracket the sign test leaves, or the iterations have run out
    and the call returns the midpoint and half-width of that bracket, or
    [f] raises at that midpoint. *)
Lemma bisection_log_progress a b k r :
  nth_error (logs_of (bisection f tol max_iter a b)) k = Some r ->
  bisect_converged tol r = false ->
  exists a' b' fa' fb',
    next_bracket r = (a', b', fa', fb') /\
    ((exists r',
        nth_error (logs_of (bisection f tol max_iter a b)) (S k) = Some r' /\
        br_a r' = a' /\ br_b r' = b' /\ br_fa r' = fa' /\ br_fb r' = fb')
     \/ (Z.of_nat (S k) = max_iter /\
         List.length (logs_of (bisection f tol max_iter a b)) = S k /\
         bisection f tol max_iter a b =
           Returned ((a' + b') / two, absn (b' - a') / two, max_iter,
                     logs_of (bisection f tol max_iter a b)))
     \/ (exists e,
          (Z.of_nat (S k) < max_iter)%Z /\
          List.length (logs_of (bisection f tol max_iter a b)) = S k /\
          f ((a' + b') / two) = Err e /\
          bisection f tol max_iter a b =
            Raised e (logs_of (bisection f tol max_iter a b)))).
Proof.
  intros Hk Hconv.
  destruct (next_bracket r) as [[[a' b'] fa'] fb'] eqn:Hnext.
  exists a', b', fa', fb'. split; [reflexivity|].
  assert (Hlt : (k < List.length (logs_of (bisection f tol max_iter a b)))%nat)
    by (apply nth_error_Some; congruence).
  destruct (nth_error (logs_of (bisection f tol max_iter a b)) (S k))
    as [r'|] eqn:Hk'.
  - left. exists r'. split; [reflexivity|].
    destruct (bisection_log_nth f tol max_iter a b k r Hk) as (_ & _ & Hn).
    destruct (Hn r' Hk') as (Ht & _). rewrite Hnext in Ht.
    now injection Ht as -> -> -> ->.
  - right. apply nth_error_None in Hk'.
    assert (Hlen : List.length (logs_of (bisection f tol max_iter a b)) = S k)
      by lia.
    destruct (nth_error_last_snoc _ _ _ Hk Hlen) as (pre & Hpre).
    destruct (bisection_log_last f tol max_iter a b pre r Hpre Hconv)
      as (a1 & b1 & fa1 & fb1 & Hn1 & [(Hn & Hret)|(e & Hn & Hf & Hraise)]);
      rewrite Hnext in Hn1; injection Hn1 as <- <- <- <-;
      rewrite <- Hpre in *; unfold range_len in Hn.
    + left. repeat split; auto. lia.
    + right. exists e. repeat split; auto. lia.
Qed.

Lemma bisection_loop_logs n i a b fa fb logs0 :
  exists rest,
    logs_of (bisection_loop f tol max_iter n i a b fa fb logs0) =
      logs0 ++ rest.
Proof.
  destruct (bisection_loop_run f tol max_iter n i a b fa fb logs0)
    as (rows & j & a' & b' & fa' & fb' & _ &
        [(fc & _ & _ & _ & ->)|[(_ & ->)|(e & _ & _ & ->)]]);
    cbn [logs_of]; eauto.
Qed.

(** The first iteration of a call whose bracket passed the check: it logs
    a row, unless [f] raises at the midpoint. *)
Lemma bisection_log_start a b fa fb :
  f a = Ok fa -> f b = Ok fb -> (zero <? fa * fb) = false ->
  (1 <= max_iter)%Z ->
  (exists r, nth_error (logs_of (bisection f tol max_iter a b)) 0 = Some r)
  \/ (exists e,
        f ((a + b) / two) = Err e /\
        bisection f tol max_iter a b = Raised e []).
Proof.
  intros Ha Hb Hs Hmax. unfold bisection, range_len.
  rewrite Ha, Hb. cbn [bind]. rewrite Hs.
  destruct (Z.to_nat max_iter) as [|n] eqn:En; [lia|].
  cbn [bisection_loop].
  destruct (f ((a + b) / two)) as [fc|e]; cbn [bind app].
  2:{ right. exists e. auto. }
  left. destruct (_ || _).
  - eexists. reflexivity.
  - destruct (fa * fc <? zero);
      match goal with
      | |- context [bisection_loop f tol max_iter n ?i ?a ?b ?fa ?fb ?l] =>
          destruct (bisection_loop_logs n i a b fa fb l) as (rest & ->)
      end; eexists; reflexivity.
Qed.

End BisectionProgress.

(** C7 (amended): a call of [bisection] whose bracket passes the check, with
    [max_iter >= 1], logs its first iteration unless [f] raises at the
    first midpoint.  Every logged iteration has index [k + 1], works on a
    bracket with [fa = f(a)] and [fb = f(b)] (at the first row the bracket
    of the call, which passed the bracket check), and records the midpoint
    [c = (a + b) / 2.0], [fc = f(c)] and [err = abs(b - a) / 2.0], all in
    binary64.  When
    [|fc| < tol] or [err < tol] the call returns [c], [err] and the index,
    and the row is the last one.  Otherwise [b], [fb] become [c], [fc] when
    the binary64 product [fa * fc] compares below 0, which it does only for
    [fa] and [fc] of strictly opposite signs; in every other case (a
    product that is 0, that has underflowed to [-0.0], or that is [nan])
    [a], [fa] become [c], [fc].  Then the next iteration runs on that
    bracket; or the iterations have run out and the call returns the
    midpoint and the half-width of that bracket with [max_iter]; or [f]
    raises at that midpoint and the exception leaves the call. *)
Theorem bisection_iteration (f : float -> result float) (tol : float)
    (max_iter : Z) (a b : float) :
  let run := bisection f tol max_iter a b in
  (forall fa fb,
     f a = Ok fa -> f b = Ok fb -> PrimFloat.ltb 0 (fa * fb) = false ->
     (1 <= max_iter)%Z ->
     (exists r, nth_error (logs_of run) 0 = Some r) \/
     (exists e, f ((a + b) / 2)%float = Err e /\ run = Raised e [])) /\
  forall k r,
  nth_error (logs_of run) k = Some r ->
  (br_i r = Z.of_nat k + 1)%Z /\
  (k = 0%nat ->
   br_a r = a /\ br_b r = b /\
   PrimFloat.ltb 0 (br_fa r * br_fb r) = false) /\
  f (br_a r) = Ok (br_fa r) /\ f (br_b r) = Ok (br_fb r) /\
  br_c r = ((br_a r + br_b r) / 2)%float /\
  f (br_c r) = Ok (br_fc r) /\
  br_err r = (PrimFloat.abs (br_b r - br_a r) / 2)%float /\
  (PrimFloat.ltb (PrimFloat.abs (br_fc r)) tol || PrimFloat.ltb (br_err r) tol
     = true ->
   run = Returned (br_c r, br_err r, br_i r, logs_of run) /\
   List.length (logs_of run) = S k) /\
  (PrimFloat.ltb (PrimFloat.abs (br_fc r)) tol || PrimFloat.ltb (br_err r) tol
     = false ->
   (PrimFloat.ltb (br_fa r * br_fc r) 0 = true ->
    (PrimFloat.ltb (br_fa r) 0 = true /\ PrimFloat.ltb 0 (br_fc r) = true) \/
    (PrimFloat.ltb 0 (br_fa r) = true /\ PrimFloat.ltb (br_fc r) 0 = true)) /\
   exists a' b' fa' fb',
     (a', b', fa', fb') =
       (if PrimFloat.ltb (br_fa r * br_fc r) 0
        then (br_a r, br_c r, br_fa r, br_fc r)
        else (br_c r, br_b r, br_fc r, br_fb r)) /\
     ((exists r',
         nth_error (logs_of run) (S k) = Some r' /\
         br_a r' = a' /\ br_b r' = b' /\ br_fa r' = fa' /\ br_fb r' = fb')
      \/ (Z.of_nat (S k) = max_iter /\
          List.length (logs_of run) = S k /\
          run = Returned (((a' + b') / 2)%float,
                          (PrimFloat.abs (b' - a') / 2)%float, max_iter,
                          logs_of run))
      \/ (exists e,
           (Z.of_nat (S k) < max_iter)%Z /\
           List.length (logs_of run) = S k /\
           f ((a' + b') / 2)%float = Err e /\
           run = Raised e (logs_of run)))).
Proof.
  intros run. subst run.
  split; [intros fa fb; exact (bisection_log_start f tol max_iter a b fa fb)|].
  intros k r Hk.
  destruct (bisection_log_nth f tol max_iter a b k r Hk) as (Hrow & Hf & _).
  destruct (bisection_log_values f tol max_iter a b k r Hk)
    as (Hfa & Hfb & H0).
  split; [rewrite Hrow; unfold bisect_row; cbn [br_i]; lia|].
  split; [exact H0|].
  split; [exact Hfa|]. split; [exact Hfb|].
  split; [rewrite Hrow at 1; reflexivity|].
  split; [exact Hf|].
  split; [rewrite Hrow at 1; reflexivity|].
  split; [apply (bisection_log_converged f tol max_iter a b k r Hk)|].
  intros Hconv. split; [apply float_mul_neg_signs|].
  destruct (bisection_log_progress f tol max_iter a b k r Hk Hconv)
    as (a' & b' & fa' & fb' & Hnext & Hprog).
  exists a', b', fa', fb'. split; [|exact Hprog].
  rewrite <- Hnext. reflexivity.
Qed.

(** C7, counterexample: [f(x) = (1.25 - x) * 2**-700] on the bracket [1, 2]
    with tolerance [2**-800].  In the first iteration [f(a) > 0] while
    [f(b) < 0] and [f(c) < 0], so [b] is the endpoint whose value shares
    the sign of [f(c)]; but the product [f(a) * f(c)] underflows to [-0.0],
    which is not below 0, and the second iteration works on [c, b]: [a] was
    replaced, and the root 1.25 has left the bracket. *)
Lemma bisection_replaces_opposite_signed_endpoint :
  exists r r',
    logs_of (bisection tiny_slope 0x1p-800%float 2 1%float 2%float) = [r; r'] /\
    PrimFloat.ltb 0 (br_fa r) = true /\
    PrimFloat.ltb (br_fb r) 0 = true /\
    PrimFloat.ltb (br_fc r) 0 = true /\
    bisect_converged 0x1p-800%float r = false /\
    PrimFloat.ltb (br_fa r * br_fc r) 0 = false /\
    br_a r' = br_c r /\ br_b r' = br_b r.
Proof.
  do 2 eexists. split; [vm_compute; reflexivity|].
  vm_compute. repeat split.
Qed.

(** ** Bisection on binary64 floats: a run that exhausts its iterations *)

(** C2, counterexample: on [f(x) = x - 0.75], bracket [0, 1], one iteration
    allowed, the only logged row has [c = 0.5] and [err = 0.5] and fails the
    convergence test, and the call returns [0.75] and [0.25]: neither the
    logged midpoint nor the logged half-width. *)
Lemma bisection_exhausted_not_logged_values :
  exists root err r,
    bisection line_075 tol_1e6 1 0%float 1%float = Returned (root, err, 1%Z, [r]) /\
    bisect_converged tol_1e6 r = false /\
    (root =? br_c r)%py = false /\
    (err =? br_err r)%py = false.
Proof.
  exists 0.75%float, 0.25%float,
    (bisect_row 1 0%float 1%float (-0.75)%float 0.25%float (-0.25)%float).
  vm_compute. repeat split.
Qed.

Lemma bisection_exhausted_witness :
  bisection line_075 tol_1e6 1 0%float 1%float =
    Returned (0.75%float, 0.25%float, 1%Z,
              [bisect_row 1 0%float 1%float (-0.75)%float 0.25%float (-0.25)%float]).
Proof.
  refine (bisection_exhausted_returns_updated_bracket line_075 tol_1e6 1
            0%float 1%float []
            (bisect_row 1 0%float 1%float (-0.75)%float 0.25%float (-0.25)%float)
            _ _ _).
  - vm_compute. reflexivity.
  - reflexivity.
  - vm_compute. reflexivity.
Defined.

(** ** Bisection: halving of the bracket *)

Section Halving.

Local Open Scope Q_scope.

Lemma Qabs_half (x : Q) : Qabs (x * (1 # 2)) == Qabs x / 2.
Proof. rewrite Qabs_Qmult. reflexivity. Qed.

(** The width of [a, c] and of [c, b] for the exact midpoint [c]. *)
Lemma halved_width (va vb vc va' vb' : Q) :
  vc == (va + vb) / 2 ->
  (va' == va /\ vb' == vc) \/ (va' == vc /\ vb' == vb) ->
  Qabs (vb' - va') == Qabs (vb - va) / 2.
Proof.
  intros Hc Hab. rewrite <- Qabs_half. apply Qabs_wd.
  destruct Hab as [(-> & ->)|(-> & ->)]; rewrite Hc; field.
Qed.

(** The width of [a, c] and of [c, b] for a [c] between [a] and [b]. *)
Lemma narrower_width (va vb vc : Q) :
  (va <= vc /\ vc <= vb) \/ (vb <= vc /\ vc <= va) ->
  Qabs (vc - va) <= Qabs (vb - va) /\ Qabs (vb - vc) <= Qabs (vb - va).
Proof.
  intros Hc. split.
  - apply (Qabs_case (vc - va)); intros H1;
      apply (Qabs_case (vb - va)); intros H2; lra.
  - apply (Qabs_case (vb - vc)); intros H1;
      apply (Qabs_case (vb - va)); intros H2; lra.
Qed.

End Halving.




(** ** Iteration counts and log lengths of the six solvers *)

Section Counting.

Context {num row : Type}.

Lemma counted_exhausted max_iter i (logs0 : list row) (root err : num) :
  counted max_iter 0 i logs0 (Returned (root, err, max_iter, logs0)).
Proof. right. split; [lia|reflexivity]. Qed.

Lemma counted_raise max_iter n i (logs0 : list row) e :
  counted (num := num) max_iter n i logs0 (Raised e logs0).
Proof. unfold counted. lia. Qed.

Lemma counted_converged max_iter n i (logs0 : list row) r (root err : num) :
  counted max_iter (S n) i logs0 (Returned (root, err, i, logs0 ++ [r])).
Proof.
  left. exists 0%nat. rewrite length_app. simpl. repeat split; lia.
Qed.

Lemma counted_step max_iter n i (logs0 : list row) r
    (o : outcome (solved num row) row) :
  counted max_iter n (i + 1) (logs0 ++ [r]) o ->
  counted max_iter (S n) i logs0 o.
Proof.
  destruct o as [[[[root err] iters] logs]|e logs]; unfold counted;
    rewrite length_app; simpl List.length.
  - intros [(m & Hm & Hl & Hi)|(Hl & Hi)].
    + left. exists (S m). repeat split; lia.
    + right. split; lia.
  - lia.
Qed.

(** At the top of a solver: index 1, empty log, [max_iter >= 1]. *)
Lemma counted_top max_iter (o : outcome (solved num row) row) :
  (1 <= max_iter)%Z ->
  counted max_iter (range_len max_iter) 1 [] o ->
  (List.length (logs_of o) <= Z.to_nat max_iter)%nat /\
  forall root err iters logs,
    o = Returned (root, err, iters, logs) ->
    (1 <= iters <= max_iter)%Z /\ Z.of_nat (List.length logs) = iters.
Proof.
  unfold range_len. intros Hmax Hc.
  destruct o as [[[[root err] iters] logs]|e logs];
    unfold counted in Hc; cbn [logs_of List.length] in *.
  - split.
    + destruct Hc as [(m & ? & ? & ?)|(? & ?)]; lia.
    + intros ? ? ? ? E. injection E as <- <- <- <-.
      destruct Hc as [(m & ? & ? & ?)|(? & ?)]; lia.
  - split; [lia|discriminate].
Qed.

End Counting.

Ltac count_loop IH :=
  repeat first
    [ apply counted_exhausted
    | apply counted_raise
    | apply counted_converged
    | eapply counted_step; apply IH
    | match goal with
      | |- counted _ _ _ _ (bind ?r _ _) => destruct r; simpl
      | |- counted _ _ _ _ (if ?c then _ else _) => destruct c
      | |- counted _ _ _ _ (match ?x with _ => _ end) => destruct x
      end ].

Section SolverCounts.

Context {num : Type} `{Arith num}.
Local Open Scope list_scope.
Local Open Scope py_scope.

Variable f : num -> result num.
Variable tol : num.
Variable max_iter : Z.

Lemma bisection_loop_counted n :
  forall i a b fa fb logs0,
    counted max_iter n i logs0 (bisection_loop f tol max_iter n i a b fa fb logs0).
Proof. induction n as [|n IH]; intros; simpl; count_loop IH. Qed.

Lemma regula_falsi_loop_counted n :
  forall i a b fa fb c fc logs0,
    counted max_iter n i logs0
      (regula_falsi_loop f tol max_iter n i a b fa fb c fc logs0).
Proof.
  induction n as [|n IH]; intros; simpl; unfold pydiv; count_loop IH.
Qed.

Lemma secant_loop_counted n :
  forall i x0 x1 logs0,
    counted max_iter n i logs0 (secant_loop f tol max_iter n i x0 x1 logs0).
Proof.
  induction n as [|n IH]; intros; simpl; unfold pydiv; count_loop IH.
Qed.

Lemma newton_raphson_loop_counted df n :
  forall i x err logs0,
    counted max_iter n i logs0
      (newton_raphson_loop f df tol max_iter n i x err logs0).
Proof.
  induction n as [|n IH]; intros; simpl; unfold pydiv; count_loop IH.
Qed.

Lemma fixed_point_loop_counted n :
  forall i x err logs0,
    counted max_iter n i logs0 (fixed_point_loop f tol max_iter n i x err logs0).
Proof.
  induction n as [|n IH]; intros; simpl; unfold pydiv; count_loop IH.
Qed.

Lemma modified_secant_loop_counted delta n :
  forall i x err logs0,
    counted max_iter n i logs0
      (modified_secant_loop f delta tol max_iter n i x err logs0).
Proof.
  induction n as [|n IH]; intros; simpl; unfold pydiv; count_loop IH.
Qed.

(** The bracket check raises with the empty log. *)
Lemma bisection_counted a b :
  counted max_iter (range_len max_iter) 1 [] (bisection f tol max_iter a b).
Proof.
  unfold bisection. count_loop bisection_loop_counted.
  apply bisection_loop_counted.
Qed.

Lemma regula_falsi_counted a b :
  counted max_iter (range_len max_iter) 1 [] (regula_falsi f tol max_iter a b).
Proof.
  unfold regula_falsi. count_loop regula_falsi_loop_counted.
  apply regula_falsi_loop_counted.
Qed.

End SolverCounts.



(** ** Regula Falsi: what a run of the loop looks like *)

Section RegulaFalsiRun.

Context {num : Type} `{Arith num}.
Local Open Scope list_scope.
Local Open Scope py_scope.

Variable f : num -> result num.
Variable tol : num.
Variable max_iter : Z.

Lemma falsi_end_cons n o logs0 r rows j a' b' fa' fb' c0 fc0 :
  falsi_end f tol max_iter n o (logs0 ++ [r]) rows j a' b' fa' fb'
    (falsi_last (br_c r) (Some (br_fc r)) rows) ->
  falsi_end f tol max_iter (S n) o logs0 (r :: rows) j a' b' fa' fb'
    (falsi_last c0 fc0 (r :: rows)).
Proof.
  unfold falsi_last at 2. simpl fold_left.
  fold (falsi_last (br_c r) (Some (br_fc r)) rows).
  intros [(fc & Hl & Hg & Hf & Hc & Hr)
         |[(Hl & Hr)|[(Hl & Hg & Hr)|(e & Hl & Hg & Hf & Hr)]]];
    rewrite <- ?app_assoc in Hr; simpl in Hr.
  - left. exists fc. simpl. repeat split; auto. lia.
  - right; left. simpl. split; auto.
  - right; right; left. simpl. repeat split; auto. lia.
  - right; right; right. exists e. simpl. repeat split; auto. lia.
Qed.

Lemma next_bracket_falsi i a b fa fb fc :
  next_bracket (falsi_row i a b fa fb fc) =
    if fa * fc <? zero
    then (a, (a * fb - b * fa) / (fb - fa), fa, fc)
    else ((a * fb - b * fa) / (fb - fa), b, fc, fb).
Proof. reflexivity. Qed.

Lemma regula_falsi_loop_run (n : nat) :
  forall i a b fa fb c0 fc0 (logs0 : list bracket_row),
  exists rows j a' b' fa' fb',
    falsi_steps f tol i (a, b, fa, fb) rows j (a', b', fa', fb') /\
    falsi_end f tol max_iter n (regula_falsi_loop f tol max_iter n i a b fa fb c0 fc0 logs0)
      logs0 rows j a' b' fa' fb' (falsi_last c0 fc0 rows).
Proof.
  induction n as [|n IH]; intros i a b fa fb c0 fc0 logs0.
  - exists [], i, a, b, fa, fb. split; [constructor|].
    right; left. simpl. rewrite app_nil_r. now destruct fc0.
  - simpl. unfold pydiv.
    destruct (fb - fa =? zero) eqn:Eg; simpl.
    { exists [], i, a, b, fa, fb. split; [constructor|].
      right; right; left. simpl. rewrite app_nil_r. repeat split; auto. lia. }
    destruct (f ((a * fb - b * fa) / (fb - fa))) as [fc|e] eqn:Efc; simpl.
    + fold (falsi_row i a b fa fb fc).
      destruct (absn fc <? tol) eqn:Ec.
      * exists [], i, a, b, fa, fb. split; [constructor|].
        left. exists fc. simpl. repeat split; auto. lia.
      * assert (Hstep : forall a1 b1 fa1 fb1,
          next_bracket (falsi_row i a b fa fb fc) = (a1, b1, fa1, fb1) ->
          exists rows j a' b' fa' fb',
            falsi_steps f tol i (a, b, fa, fb) rows j (a', b', fa', fb') /\
            falsi_end f tol max_iter (S n)
              (regula_falsi_loop f tol max_iter n (i + 1) a1 b1 fa1 fb1
                 ((a * fb - b * fa) / (fb - fa)) (Some fc)
                 (logs0 ++ [falsi_row i a b fa fb fc]))
              logs0 rows j a' b' fa' fb' (falsi_last c0 fc0 rows)).
        { intros a1 b1 fa1 fb1 Hnext.
          destruct (IH (i + 1)%Z a1 b1 fa1 fb1
                      ((a * fb - b * fa) / (fb - fa)) (Some fc)
                      (logs0 ++ [falsi_row i a b fa fb fc]))
            as (rows & j & a' & b' & fa' & fb' & Hsteps & Hend).
          exists (falsi_row i a b fa fb fc :: rows), j, a', b', fa', fb'.
          split.
          - constructor; auto. now rewrite Hnext.
          - now apply falsi_end_cons. }
        rewrite next_bracket_falsi in Hstep.
        destruct (fa * fc <? zero) eqn:Es; now apply Hstep.
    + exists [], i, a, b, fa, fb. split; [constructor|].
      right; right; right. exists e. simpl. rewrite app_nil_r.
      repeat split; auto. lia.
Qed.

Lemma falsi_steps_index i s rows j s' :
  falsi_steps f tol i s rows j s' -> j = (i + Z.of_nat (List.length rows))%Z.
Proof.
  induction 1 as [|i a b fa fb fc rows j s' Hg Hf Hc Hs IH];
    simpl List.length; lia.
Qed.

Lemma falsi_steps_nth i s rows j s' :
  falsi_steps f tol i s rows j s' ->
  forall k r, nth_error rows k = Some r ->
    r = falsi_row (i + Z.of_nat k) (br_a r) (br_b r) (br_fa r) (br_fb r) (br_fc r) /\
    (br_fb r - br_fa r =? zero) = false /\
    f (br_c r) = Ok (br_fc r) /\
    (absn (br_fc r) <? tol) = false.
Proof.
  induction 1 as [|i a b fa fb fc rows j s' Hg Hf Hc Hs IH]; intros k r Hk.
  - now destruct k.
  - destruct k as [|k]; simpl in Hk.
    + injection Hk as <-. simpl. rewrite Z.add_0_r. auto.
    + destruct (IH k r Hk) as (Hrow & Hrest). split; auto.
      rewrite Hrow at 1. f_equal. lia.
Qed.

Lemma falsi_last_snoc (c0 : num) fc0 pre r :
  falsi_last c0 fc0 (pre ++ [r]) = (br_c r, Some (br_fc r)).
Proof. unfold falsi_last. now rewrite fold_left_app. Qed.

(** The whole call: the bracket check fails with an empty log, or the loop
    runs from index 1, the given bracket and [c = a]. *)
Lemma regula_falsi_run a b :
  (exists e,
     regula_falsi f tol max_iter a b = Raised e [] /\
     (f a = Err e \/
      (exists fa, f a = Ok fa /\ f b = Err e) \/
      (exists fa fb, f a = Ok fa /\ f b = Ok fb /\
         (zero <? fa * fb) = true /\ e = ValueError regula_falsi_msg)))
  \/ (exists fa fb rows j a' b' fa' fb',
        f a = Ok fa /\ f b = Ok fb /\ (zero <? fa * fb) = false /\
        falsi_steps f tol 1 (a, b, fa, fb) rows j (a', b', fa', fb') /\
        falsi_end f tol max_iter (range_len max_iter) (regula_falsi f tol max_iter a b)
          [] rows j a' b' fa' fb' (falsi_last a None rows)).
Proof.
  unfold regula_falsi.
  destruct (f a) as [fa|e] eqn:Ea; simpl; [|left; exists e; auto].
  destruct (f b) as [fb|e] eqn:Eb; simpl.
  2:{ left; exists e; split; auto. right; left. exists fa; auto. }
  destruct (zero <? fa * fb) eqn:Es.
  - left. exists (ValueError regula_falsi_msg). split; auto.
    right; right. exists fa, fb. auto.
  - right.
    destruct (regula_falsi_loop_run (range_len max_iter) 1 a b fa fb a None [])
      as (rows & j & a' & b' & fa' & fb' & Hsteps & Hend).
    exists fa, fb, rows, j, a', b', fa', fb'. auto.
Qed.

End RegulaFalsiRun.

Section RegulaFalsiProgress.

Context {num : Type} `{Arith num}.
Local Open Scope list_scope.
Local Open Scope py_scope.

Variable f : num -> result num.
Variable tol : num.
Variable max_iter : Z.

Lemma falsi_steps_chain i s rows j s' :
  falsi_steps f tol i s rows j s' -> falsi_chain f i s rows.
Proof. induction 1; constructor; auto. Qed.

Lemma falsi_steps_chain_final i s rows j a' b' fa' fb' fc :
  falsi_steps f tol i s rows j (a', b', fa', fb') ->
  (fb' - fa' =? zero) = false ->
  f ((a' * fb' - b' * fa') / (fb' - fa')) = Ok fc ->
  falsi_chain f i s (rows ++ [falsi_row j a' b' fa' fb' fc]).
Proof.
  intros Hs Hg Hf. remember (a', b', fa', fb') as s' eqn:Es'.
  induction Hs; subst; simpl.
  - constructor; [assumption..|constructor].
  - constructor; auto.
Qed.

Lemma falsi_steps_last i s pre r j s' :
  falsi_steps f tol i s (pre ++ [r]) j s' -> s' = next_bracket r.
Proof.
  revert i s. induction pre as [|p pre IH]; intros i s Hs; simpl in Hs.
  - inversion Hs as [|i0 a b fa fb fc rows j0 s0 Hg Hf Hc Hrest]; subst.
    now inversion Hrest.
  - inversion Hs; subst. eauto.
Qed.

Lemma falsi_chain_nth i s rows :
  falsi_chain f i s rows ->
  forall k r, nth_error rows k = Some r ->
    r = falsi_row (i + Z.of_nat k) (br_a r) (br_b r) (br_fa r) (br_fb r)
          (br_fc r) /\
    (br_fb r - br_fa r =? zero) = false /\
    f (br_c r) = Ok (br_fc r) /\
    (k = 0%nat -> (br_a r, br_b r, br_fa r, br_fb r) = s) /\
    forall r', nth_error rows (S k) = Some r' ->
      (br_a r', br_b r', br_fa r', br_fb r') = next_bracket r.
Proof.
  induction 1 as [|i a b fa fb fc rows Hg Hf Hc IH]; intros k r Hk.
  - now destruct k.
  - destruct k as [|k]; simpl in Hk.
    + injection Hk as <-. simpl. rewrite Z.add_0_r. repeat split; auto.
      intros r' Hr'. simpl in Hr'.
      destruct (IH 0%nat r' Hr') as (_ & _ & _ & H0 & _). now apply H0.
    + destruct (IH k r Hk) as (Hrow & Hgr & Hfr & _ & Hnext).
      repeat split; auto.
      * rewrite Hrow at 1. f_equal. lia.
      * discriminate.
Qed.

Lemma falsi_chain_values i a b fa fb rows :
  falsi_chain f i (a, b, fa, fb) rows ->
  f a = Ok fa -> f b = Ok fb ->
  forall r, In r rows ->
    f (br_a r) = Ok (br_fa r) /\ f (br_b r) = Ok (br_fb r).
Proof.
  intros Hc. remember (a, b, fa, fb) as s eqn:Es. revert a b fa fb Es.
  induction Hc as [|i a0 b0 fa0 fb0 fc rows Hg Hf Hc IH];
    intros a b fa fb Es Ha Hb r Hin; [destruct Hin|].
  injection Es as -> -> -> ->.
  destruct Hin as [<-|Hin]; [now split|].
  rewrite next_bracket_falsi in IH.
  destruct (fa * fc <? zero); eapply IH; eauto.
Qed.

(** A call that logged a row has passed the bracket check, and its log is
    a chain of iterations from index 1 and the bracket of the call. *)
Lemma regula_falsi_log_chain a b :
  logs_of (regula_falsi f tol max_iter a b) <> [] ->
  exists fa fb,
    f a = Ok fa /\ f b = Ok fb /\ (zero <? fa * fb) = false /\
    falsi_chain f 1 (a, b, fa, fb) (logs_of (regula_falsi f tol max_iter a b)).
Proof.
  destruct (regula_falsi_run f tol max_iter a b)
    as [(e & -> & _)
       |(fa & fb & rows & j & a' & b' & fa' & fb' & Ha & Hb & Hs & Hsteps & Hend)].
  - intros Hne. now destruct Hne.
  - intros _. exists fa, fb. repeat split; auto.
    destruct Hend as [(fc & Hl & Hg & Hf & Hc & ->)
                     |[(Hl & ->)|[(Hl & Hg & ->)|(e & Hl & Hg & Hf & ->)]]];
      cbn [logs_of app].
    + eapply falsi_steps_chain_final; eauto.
    + replace (logs_of _) with rows
        by (now destruct (snd (falsi_last a None rows))).
      eapply falsi_steps_chain; eauto.
    + eapply falsi_steps_chain; eauto.
    + eapply falsi_steps_chain; eauto.
Qed.

Lemma regula_falsi_log_values a b k r :
  nth_error (logs_of (regula_falsi f tol max_iter a b)) k = Some r ->
  f (br_a r) = Ok (br_fa r) /\ f (br_b r) = Ok (br_fb r) /\
  (k = 0%nat ->
   br_a r = a /\ br_b r = b /\ (zero <? br_fa r * br_fb r) = false).
Proof.
  intros Hk.
  destruct (regula_falsi_log_chain a b) as (fa & fb & Ha & Hb & Hs & Hchain).
  { intros E. rewrite E in Hk. now destruct k. }
  destruct (falsi_chain_values _ _ _ _ _ _ Hchain Ha Hb r
              (nth_error_In _ _ Hk)) as (Hra & Hrb).
  split; [exact Hra|]. split; [exact Hrb|].
  intros ->.
  destruct (falsi_chain_nth _ _ _ Hchain _ _ Hk) as (_ & _ & _ & H0 & _).
  specialize (H0 eq_refl). injection H0 as -> -> -> ->. auto.
Qed.

(** After a last logged row that fails the convergence test. *)
Lemma regula_falsi_log_last a b pre r :
  logs_of (regula_falsi f tol max_iter a b) = pre ++ [r] ->
  (absn (br_fc r) <? tol) = false ->
  exists a' b' fa' fb',
    next_bracket r = (a', b', fa', fb') /\
    ((List.length (pre ++ [r]) = range_len max_iter /\
      regula_falsi f tol max_iter a b =
        Returned (br_c r, absn (br_fc r), max_iter, pre ++ [r]))
     \/ ((List.length (pre ++ [r]) < range_len max_iter)%nat /\
         (fb' - fa' =? zero) = true /\
         regula_falsi f tol max_iter a b =
           Raised (ZeroDivisionError "float division by zero") (pre ++ [r]))
     \/ (exists e,
          (List.length (pre ++ [r]) < range_len max_iter)%nat /\
          (fb' - fa' =? zero) = false /\
          f ((a' * fb' - b' * fa') / (fb' - fa')) = Err e /\
          regula_falsi f tol max_iter a b = Raised e (pre ++ [r]))).
Proof.
  destruct (regula_falsi_run f tol max_iter a b)
    as [(e & -> & _)
       |(fa & fb & rows & j & a' & b' & fa' & fb' & _ & _ & _ & Hsteps & Hend)].
  - simpl. intros HL. now destruct pre.
  - destruct Hend as [(fc & Hl & Hg & Hf & Hc & Ho)
                     |[(Hl & Ho)|[(Hl & Hg & Ho)|(e & Hl & Hg & Hf & Ho)]]].
    + rewrite Ho. cbn [logs_of app]. intros HL Hconv.
      apply app_inj_tail in HL. destruct HL as [_ <-].
      cbn [falsi_row br_fc] in Hconv. congruence.
    + assert (HL : logs_of (regula_falsi f tol max_iter a b) = rows).
      { rewrite Ho. now destruct (snd (falsi_last a None rows)). }
      rewrite HL. intros -> Hconv.
      exists a', b', fa', fb'. split.
      * symmetry. eapply falsi_steps_last; eauto.
      * left. split; [exact Hl|].
        rewrite Ho, falsi_last_snoc. reflexivity.
    + rewrite Ho. cbn [logs_of app]. intros -> Hconv.
      exists a', b', fa', fb'. split.
      * symmetry. eapply falsi_steps_last; eauto.
      * right; left. auto.
    + rewrite Ho. cbn [logs_of app]. intros -> Hconv.
      exists a', b', fa', fb'. split.
      * symmetry. eapply falsi_steps_last; eauto.
      * right; right. exists e. auto.
Qed.

(** A logged row that meets the convergence test is the last one, and the
    call returns its [c], its error and its index. *)
Lemma regula_falsi_log_converged a b k r :
  nth_error (logs_of (regula_falsi f tol max_iter a b)) k = Some r ->
  (absn (br_fc r) <? tol) = true ->
  regula_falsi f tol max_iter a b =
    Returned (br_c r, br_err r, br_i r,
              logs_of (regula_falsi f tol max_iter a b)) /\
  List.length (logs_of (regula_falsi f tol max_iter a b)) = S k.
Proof.
  destruct (regula_falsi_run f tol max_iter a b)
    as [(e & -> & _)
       |(fa & fb & rows & j & a' & b' & fa' & fb' & _ & _ & _ & Hsteps & Hend)].
  { now destruct k. }
  assert (Hrows : forall k, nth_error rows k = Some r ->
                            (absn (br_fc r) <? tol) = true -> False).
  { intros k0 Hk Hc.
    destruct (falsi_steps_nth f tol _ _ _ _ _ Hsteps k0 r Hk) as (_ & _ & _ & Hn).
    congruence. }
  destruct Hend as [(fc & Hl & Hg & Hf & Hc & Ho)
                   |[(Hl & Ho)|[(Hl & Hg & Ho)|(e & Hl & Hg & Hf & Ho)]]].
  - rewrite Ho. cbn [logs_of app]. intros Hk Hconv.
    destruct (nth_error_snoc_cases _ _ _ _ Hk) as [(Hlt & Hk')|(-> & ->)].
    + now destruct (Hrows k).
    + cbn [falsi_row br_i br_c br_err]. split; [reflexivity|].
      rewrite length_app. simpl. lia.
  - assert (HL : logs_of (regula_falsi f tol max_iter a b) = rows).
    { rewrite Ho. now destruct (snd (falsi_last a None rows)). }
    rewrite HL. intros Hk Hconv. now destruct (Hrows k).
  - rewrite Ho. cbn [logs_of app]. intros Hk Hconv. now destruct (Hrows k).
  - rewrite Ho. cbn [logs_of app]. intros Hk Hconv. now destruct (Hrows k).
Qed.

(** After a logged row that fails the convergence test: the next row works
    on the bracket the sign test leaves; or the iterations have run out and
    the call returns [c] and [|fc|] of this row; or the next iteration
    raises, dividing by [fb - fa == 0] or in [f]. *)
Lemma regula_falsi_log_progress a b k r :
  nth_error (logs_of (regula_falsi f tol max_iter a b)) k = Some r ->
  (absn (br_fc r) <? tol) = false ->
  exists a' b' fa' fb',
    next_bracket r = (a', b', fa', fb') /\
    ((exists r',
        nth_error (logs_of (regula_falsi f tol max_iter a b)) (S k) = Some r' /\
        br_a r' = a' /\ br_b r' = b' /\ br_fa r' = fa' /\ br_fb r' = fb')
     \/ (Z.of_nat (S k) = max_iter /\
         List.length (logs_of (regula_falsi f tol max_iter a b)) = S k /\
         regula_falsi f tol max_iter a b =
           Returned (br_c r, absn (br_fc r), max_iter,
                     logs_of (regula_falsi f tol max_iter a b)))
     \/ ((Z.of_nat (S k) < max_iter)%Z /\
         List.length (logs_of (regula_falsi f tol max_iter a b)) = S k /\
         (fb' - fa' =? zero) = true /\
         regula_falsi f tol max_iter a b =
           Raised (ZeroDivisionError "float division by zero")
             (logs_of (regula_falsi f tol max_iter a b)))
     \/ (exists e,
          (Z.of_nat (S k) < max_iter)%Z /\
          List.length (logs_of (regula_falsi f tol max_iter a b)) = S k /\
          (fb' - fa' =? zero) = false /\
          f ((a' * fb' - b' * fa') / (fb' - fa')) = Err e /\
          regula_falsi f tol max_iter a b =
            Raised e (logs_of (regula_falsi f tol max_iter a b)))).
Proof.
  intros Hk Hconv.
  destruct (next_bracket r) as [[[a' b'] fa'] fb'] eqn:Hnext.
  exists a', b', fa', fb'. split; [reflexivity|].
  assert (Hlt : (k < List.length (logs_of (regula_falsi f tol max_iter a b)))%nat)
    by (apply nth_error_Some; congruence).
  destruct (nth_error (logs_of (regula_falsi f tol max_iter a b)) (S k))
    as [r'|] eqn:Hk'.
  - left. exists r'. split; [reflexivity|].
    destruct (regula_falsi_log_chain a b) as (fa & fb & _ & _ & _ & Hchain).
    { intros E. rewrite E in Hk. now destruct k. }
    destruct (falsi_chain_nth _ _ _ Hchain _ _ Hk) as (_ & _ & _ & _ & Hn).
    specialize (Hn r' Hk'). rewrite Hnext in Hn.
    now injection Hn as -> -> -> ->.
  - right. apply nth_error_None in Hk'.
    assert (Hlen : List.length (logs_of (regula_falsi f tol max_iter a b)) = S k)
      by lia.
    destruct (nth_error_last_snoc _ _ _ Hk Hlen) as (pre & Hpre).
    destruct (regula_falsi_log_last a b pre r Hpre Hconv)
      as (a1 & b1 & fa1 & fb1 & Hn1 &
          [(Hn & Hret)|[(Hn & Hg & Hraise)|(e & Hn & Hg & Hf & Hraise)]]);
      rewrite Hnext in Hn1; injection Hn1 as <- <- <- <-;
      rewrite <- Hpre in *; unfold range_len in Hn.
    + left. repeat split; auto. lia.
    + right; left. repeat split; auto. lia.
    + right; right. exists e. repeat split; auto. lia.
Qed.

Lemma regula_falsi_loop_logs n i a b fa fb c fc logs0 :
  exists rest,
    logs_of (regula_falsi_loop f tol max_iter n i a b fa fb c fc logs0) =
      logs0 ++ rest.
Proof.
  destruct (regula_falsi_loop_run f tol max_iter n i a b fa fb c fc logs0)
    as (rows & j & a' & b' & fa' & fb' & _ &
        [(fc' & _ & _ & _ & _ & ->)
        |[(_ & ->)|[(_ & _ & ->)|(e & _ & _ & _ & ->)]]]);
    cbn [logs_of]; eauto.
  destruct (snd (falsi_last c fc rows)); cbn [logs_of]; eauto.
Qed.

(** The first iteration of a call whose bracket passed the check: it logs
    a row, unless it divides by [fb - fa == 0] or [f] raises at [c]. *)
Lemma regula_falsi_log_start a b fa fb :
  f a = Ok fa -> f b = Ok fb -> (zero <? fa * fb) = false ->
  (1 <= max_iter)%Z ->
  (exists r, nth_error (logs_of (regula_falsi f tol max_iter a b)) 0 = Some r)
  \/ ((fb - fa =? zero) = true /\
      regula_falsi f tol max_iter a b =
        Raised (ZeroDivisionError "float division by zero") [])
  \/ (exists e,
        (fb - fa =? zero) = false /\
        f ((a * fb - b * fa) / (fb - fa)) = Err e /\
        regula_falsi f tol max_iter a b = Raised e []).
Proof.
  intros Ha Hb Hs Hmax. unfold regula_falsi, range_len.
  rewrite Ha, Hb. cbn [bind]. rewrite Hs.
  destruct (Z.to_nat max_iter) as [|n] eqn:En; [lia|].
  cbn [regula_falsi_loop]. unfold pydiv.
  destruct (fb - fa =? zero); cbn [bind]; [right; left; auto|].
  destruct (f ((a * fb - b * fa) / (fb - fa))) as [fc|e]; cbn [bind app].
  2:{ right; right. exists e. auto. }
  left. destruct (absn fc <? tol).
  - eexists. reflexivity.
  - destruct (fa * fc <? zero);
      match goal with
      | |- context [regula_falsi_loop f tol max_iter n ?i ?a ?b ?fa ?fb ?c
                      ?fc ?l] =>
          destruct (regula_falsi_loop_logs n i a b fa fb c fc l)
            as (rest & ->)
      end; eexists; reflexivity.
Qed.

End RegulaFalsiProgress.

(** C9: a call of [regula_falsi] whose bracket passes the check, with
    [max_iter >= 1], logs its first iteration unless that iteration raises,
    dividing by [fb - fa == 0] or in [f].  Every logged iteration has index
    [k + 1], works on a bracket with [fa = f(a)] and [fb = f(b)] (at the
    first row the bracket of the call, which passed the bracket check), and
    records [c = (a * fb - b * fa) / (fb - fa)] with [fb - fa] not 0,
    [fc = f(c)] and [err = |fc|].  The only convergence test is [|fc| < tol]: when it
    holds the call returns [c], [err] and the index at that row.  When it
    fails the call does not return at that iteration, whatever the width of
    the bracket: [b], [fb] or [a], [fa] become [c], [fc] (by the test
    [fa * fc < 0]), and the next iteration runs on that bracket; or the
    iterations have run out and the call returns the same [c] and [|fc|]
    with [max_iter]; or the next iteration raises, dividing by
    [fb - fa == 0] or in [f]. *)
Theorem regula_falsi_iteration (f : float -> result float) (tol : float)
    (max_iter : Z) (a b : float) :
  let run := regula_falsi f tol max_iter a b in
  (forall fa fb,
     f a = Ok fa -> f b = Ok fb -> PrimFloat.ltb 0 (fa * fb) = false ->
     (1 <= max_iter)%Z ->
     (exists r, nth_error (logs_of run) 0 = Some r)
     \/ (PrimFloat.eqb (fb - fa) 0 = true /\
         run = Raised (ZeroDivisionError "float division by zero") [])
     \/ (exists e,
           PrimFloat.eqb (fb - fa) 0 = false /\
           f ((a * fb - b * fa) / (fb - fa))%float = Err e /\
           run = Raised e [])) /\
  forall k r,
  nth_error (logs_of run) k = Some r ->
  (br_i r = Z.of_nat k + 1)%Z /\
  (k = 0%nat ->
   br_a r = a /\ br_b r = b /\
   PrimFloat.ltb 0 (br_fa r * br_fb r) = false) /\
  f (br_a r) = Ok (br_fa r) /\ f (br_b r) = Ok (br_fb r) /\
  PrimFloat.eqb (br_fb r - br_fa r) 0 = false /\
  br_c r =
    ((br_a r * br_fb r - br_b r * br_fa r) / (br_fb r - br_fa r))%float /\
  f (br_c r) = Ok (br_fc r) /\
  br_err r = PrimFloat.abs (br_fc r) /\
  (PrimFloat.ltb (PrimFloat.abs (br_fc r)) tol = true ->
   run = Returned (br_c r, br_err r, br_i r, logs_of run) /\
   List.length (logs_of run) = S k) /\
  (PrimFloat.ltb (PrimFloat.abs (br_fc r)) tol = false ->
   exists a' b' fa' fb',
     (a', b', fa', fb') =
       (if PrimFloat.ltb (br_fa r * br_fc r) 0
        then (br_a r, br_c r, br_fa r, br_fc r)
        else (br_c r, br_b r, br_fc r, br_fb r)) /\
     ((exists r',
         nth_error (logs_of run) (S k) = Some r' /\
         br_a r' = a' /\ br_b r' = b' /\ br_fa r' = fa' /\ br_fb r' = fb')
      \/ (Z.of_nat (S k) = max_iter /\
          List.length (logs_of run) = S k /\
          run = Returned (br_c r, PrimFloat.abs (br_fc r), max_iter,
                          logs_of run))
      \/ ((Z.of_nat (S k) < max_iter)%Z /\
          List.length (logs_of run) = S k /\
          PrimFloat.eqb (fb' - fa') 0 = true /\
          run = Raised (ZeroDivisionError "float division by zero")
                  (logs_of run))
      \/ (exists e,
           (Z.of_nat (S k) < max_iter)%Z /\
           List.length (logs_of run) = S k /\
           PrimFloat.eqb (fb' - fa') 0 = false /\
           f ((a' * fb' - b' * fa') / (fb' - fa'))%float = Err e /\
           run = Raised e (logs_of run)))).
Proof.
  intros run. subst run.
  split;
    [intros fa fb; exact (regula_falsi_log_start f tol max_iter a b fa fb)|].
  intros k r Hk.
  destruct (regula_falsi_log_chain f tol max_iter a b)
    as (fa & fb & _ & _ & _ & Hchain).
  { intros E. rewrite E in Hk. now destruct k. }
  destruct (falsi_chain_nth f _ _ _ Hchain _ _ Hk) as (Hrow & Hg & Hf & _).
  destruct (regula_falsi_log_values f tol max_iter a b k r Hk)
    as (Hfa & Hfb & H0).
  split; [rewrite Hrow; unfold falsi_row; cbn [br_i]; lia|].
  split; [exact H0|].
  split; [exact Hfa|]. split; [exact Hfb|].
  split; [exact Hg|].
  split; [rewrite Hrow at 1; reflexivity|].
  split; [exact Hf|].
  split; [rewrite Hrow at 1; reflexivity|].
  split; [apply (regula_falsi_log_converged f tol max_iter a b k r Hk)|].
  intros Hconv.
  destruct (regula_falsi_log_progress f tol max_iter a b k r Hk Hconv)
    as (a' & b' & fa' & fb' & Hnext & Hprog).
  exists a', b', fa', fb'. split; [|exact Hprog].
  rewrite <- Hnext. reflexivity.
Qed.

(** ** The bracket check of the two bracketing methods *)

Section BracketCheck.

Context {num : Type} `{Arith num}.
Local Open Scope list_scope.
Local Open Scope py_scope.

Variable f : num -> result num.
Variable tol : num.
Variable max_iter : Z.

Lemma bisection_bracket_error a b fa fb logs :
  f a = Ok fa -> f b = Ok fb ->
  (forall x, f x <> Err (ValueError bisection_msg)) ->
  bisection f tol max_iter a b = Raised (ValueError bisection_msg) logs <->
  (zero <? fa * fb) = true /\ logs = [].
Proof.
  intros Ha Hb Hnever. split.
  - intros Hraise.
    destruct (bisection_run f tol max_iter a b)
      as [(e & Ho & [Hf|[(fa0 & _ & Hf)|(fa0 & fb0 & Ha0 & Hb0 & Hlt & _)]])
         |(fa0 & fb0 & rows & j & a' & b' & fa' & fb' & _ & _ & _ & _ & Hend)].
    + congruence.
    + congruence.
    + rewrite Ho in Hraise. injection Hraise as _ <-. split; congruence.
    + destruct Hend as [(fc & _ & _ & _ & Ho)|[(_ & Ho)|(e & _ & Hf & Ho)]];
        rewrite Ho in Hraise; try discriminate.
      injection Hraise as -> _. now destruct (Hnever ((a' + b') / two)).
  - intros [Hlt ->]. unfold bisection. rewrite Ha, Hb. simpl. now rewrite Hlt.
Qed.

Lemma regula_falsi_bracket_error a b fa fb logs :
  f a = Ok fa -> f b = Ok fb ->
  (forall x, f x <> Err (ValueError regula_falsi_msg)) ->
  regula_falsi f tol max_iter a b = Raised (ValueError regula_falsi_msg) logs <->
  (zero <? fa * fb) = true /\ logs = [].
Proof.
  intros Ha Hb Hnever. split.
  - intros Hraise.
    destruct (regula_falsi_run f tol max_iter a b)
      as [(e & Ho & [Hf|[(fa0 & _ & Hf)|(fa0 & fb0 & Ha0 & Hb0 & Hlt & _)]])
         |(fa0 & fb0 & rows & j & a' & b' & fa' & fb' & _ & _ & _ & _ & Hend)].
    + congruence.
    + congruence.
    + rewrite Ho in Hraise. injection Hraise as _ <-. split; congruence.
    + destruct Hend as [(fc & _ & _ & _ & _ & Ho)
                       |[(_ & Ho)|[(_ & _ & Ho)|(e & _ & _ & Hf & Ho)]]];
        rewrite Ho in Hraise; try discriminate.
      * now destruct (snd (falsi_last a None rows)).
      * injection Hraise as -> _.
        now destruct (Hnever ((a' * fb' - b' * fa') / (fb' - fa'))).
  - intros [Hlt ->]. unfold regula_falsi. rewrite Ha, Hb. simpl. now rewrite Hlt.
Qed.

End BracketCheck.

Lemma float_le0_not_gt0 (x : float) :
  PrimFloat.leb x 0 = true -> PrimFloat.ltb 0 x = false.
Proof.
  rewrite FloatAxioms.leb_spec, FloatAxioms.ltb_spec, Prim2SF_zero.
  destruct (Prim2SF x) as [s|s| |s m e]; unfold SFleb, SFltb, SFcompare;
    try destruct s; congruence.
Qed.

(** C4, counterexample: [f(x) = x * 2**-700] on the bracket [1, 2].  Both
    [f(a)] and [f(b)] are positive, so the endpoints are strictly
    same-signed, but their product underflows to [0.0], which is not above
    0: neither method raises its bracket error.  [bisection] returns the
    midpoint 1.5 after one iteration, [regula_falsi] returns 0.0, a point
    outside the bracket. *)
Lemma bracket_check_accepts_same_sign :
  exists fa fb ra rb,
    tiny_line 1%float = Ok fa /\ tiny_line 2%float = Ok fb /\
    PrimFloat.ltb 0 fa = true /\ PrimFloat.ltb 0 fb = true /\
    PrimFloat.ltb 0 (fa * fb) = false /\
    bisection tiny_line tol_1e6 50 1%float 2%float =
      Returned (1.5%float, 0.5%float, 1%Z, [ra]) /\
    regula_falsi tiny_line tol_1e6 50 1%float 2%float =
      Returned (0%float, 0%float, 1%Z, [rb]).
Proof.
  do 4 eexists. split; [reflexivity|]. split; [reflexivity|].
  vm_compute. repeat split.
Qed.

(** C4 (amended): when [f(a)] and [f(b)] evaluate (and [f] itself never raises
    the bracket message), [bisection] and [regula_falsi] raise their
    bracket error exactly when the binary64 product [f(a) * f(b)] compares
    above 0, and then with the empty log: no iteration has run.  The
    product compares above 0 only for [f(a)] and [f(b)] of strictly the
    same sign (the converse fails when it underflows), and a product that
    compares [<= 0] raises no bracket error. *)
Theorem bracket_error_iff_product_positive (f : float -> result float)
    (tol : float) (max_iter : Z) (a b fa fb : float) :
  f a = Ok fa -> f b = Ok fb ->
  (forall x, f x <> Err (ValueError bisection_msg)) ->
  (forall x, f x <> Err (ValueError regula_falsi_msg)) ->
  (forall logs,
     bisection f tol max_iter a b = Raised (ValueError bisection_msg) logs <->
     PrimFloat.ltb 0 (fa * fb) = true /\ logs = []) /\
  (forall logs,
     regula_falsi f tol max_iter a b =
       Raised (ValueError regula_falsi_msg) logs <->
     PrimFloat.ltb 0 (fa * fb) = true /\ logs = []) /\
  (PrimFloat.ltb 0 (fa * fb) = true ->
   (PrimFloat.ltb 0 fa = true /\ PrimFloat.ltb 0 fb = true) \/
   (PrimFloat.ltb fa 0 = true /\ PrimFloat.ltb fb 0 = true)) /\
  (PrimFloat.leb (fa * fb) 0 = true ->
   forall logs,
     bisection f tol max_iter a b <> Raised (ValueError bisection_msg) logs /\
     regula_falsi f tol max_iter a b <>
       Raised (ValueError regula_falsi_msg) logs).
Proof.
  intros Ha Hb Hbis Hfalsi.
  pose proof (fun logs =>
    bisection_bracket_error f tol max_iter a b fa fb logs Ha Hb Hbis) as H1.
  pose proof (fun logs =>
    regula_falsi_bracket_error f tol max_iter a b fa fb logs Ha Hb Hfalsi) as H2.
  split; [exact H1|]. split; [exact H2|].
  split; [apply float_mul_pos_signs|].
  intros Hle logs. apply float_le0_not_gt0 in Hle.
  split; intros Hraise.
  - apply H1 in Hraise. destruct Hraise as [Hlt _].
    change (PrimFloat.ltb 0 (fa * fb) = true) in Hlt. congruence.
  - apply H2 in Hraise. destruct Hraise as [Hlt _].
    change (PrimFloat.ltb 0 (fa * fb) = true) in Hlt. congruence.
Qed.

(** ** Newton-Raphson: the zero-derivative error *)

Section NewtonLog.

Context {num : Type} `{Arith num}.
Local Open Scope list_scope.
Local Open Scope py_scope.

Variables f df : num -> result num.
Variable tol : num.
Variable max_iter : Z.

Lemma newton_steps_snoc_index i x rows j x' :
  newton_steps f df tol i x rows j x' ->
  j = (i + Z.of_nat (List.length rows))%Z.
Proof.
  induction 1 as [|i x fx dfx rows j x' Hf Hdf Hz Hc Hs IH];
    simpl List.length; lia.
Qed.

Lemma newton_raphson_loop_zero_derivative n :
  forall i x err0 logs0 logs,
    (forall y, f y <> Err (ZeroDivisionError newton_msg)) ->
    (forall y, df y <> Err (ZeroDivisionError newton_msg)) ->
    newton_raphson_loop f df tol max_iter n i x err0 logs0 =
      Raised (ZeroDivisionError newton_msg) logs ->
    exists rows j x' fx dfx,
      logs = logs0 ++ rows /\
      newton_steps f df tol i x rows j x' /\
      (List.length rows < n)%nat /\
      f x' = Ok fx /\ df x' = Ok dfx /\ (dfx =? zero) = true.
Proof.
  induction n as [|n IH]; intros i x err0 logs0 logs Hf Hdf; simpl.
  - destruct err0; discriminate.
  - destruct (f x) as [fx|e] eqn:Efx; simpl.
    2:{ intros E. injection E as -> _. now destruct (Hf x). }
    destruct (df x) as [dfx|e] eqn:Edfx; simpl.
    2:{ intros E. injection E as -> _. now destruct (Hdf x). }
    unfold pydiv. destruct (dfx =? zero) eqn:Ez; simpl.
    + intros E. injection E as <-.
      exists [], i, x, fx, dfx. rewrite app_nil_r.
      repeat split; auto; [constructor|simpl; lia].
    + fold (newton_row_at i x fx dfx).
      destruct (absn (x - fx / dfx - x) <? tol) eqn:Ec; [discriminate|].
      intros E.
      destruct (IH _ _ _ _ _ Hf Hdf E)
        as (rows & j & x' & fx' & dfx' & -> & Hs & Hl & Hfx' & Hdfx' & Hz').
      exists (newton_row_at i x fx dfx :: rows), j, x', fx', dfx'.
      rewrite <- app_assoc. simpl.
      repeat split; auto; [constructor; auto|lia].
Qed.

Lemma newton_raphson_loop_reaches i x rows j x' :
  newton_steps f df tol i x rows j x' ->
  forall n err0 logs0 fx dfx,
    (List.length rows < n)%nat ->
    f x' = Ok fx -> df x' = Ok dfx -> (dfx =? zero) = true ->
    newton_raphson_loop f df tol max_iter n i x err0 logs0 =
      Raised (ZeroDivisionError newton_msg) (logs0 ++ rows).
Proof.
  induction 1 as [i x|i x fx dfx rows j x' Hf Hdf Hz Hc Hs IH];
    intros n err0 logs0 fx' dfx' Hl Hfx' Hdfx' Hz'.
  - destruct n as [|n]; [simpl in Hl; lia|].
    simpl. rewrite Hfx', Hdfx'. simpl. rewrite Hz'. now rewrite app_nil_r.
  - destruct n as [|n]; [simpl in Hl; lia|].
    simpl. rewrite Hf, Hdf. simpl. unfold pydiv. rewrite Hz. simpl.
    fold (newton_row_at i x fx dfx). simpl in Hc. rewrite Hc.
    rewrite (IH n _ _ fx' dfx'); auto; [|simpl in Hl; lia].
    now rewrite <- app_assoc.
Qed.

Lemma index_newton_loop_zero_derivative result n :
  forall i x logs0 logs,
    (forall y, f y <> Err (ZeroDivisionError app.newton_msg)) ->
    (forall y, df y <> Err (ZeroDivisionError app.newton_msg)) ->
    app.index_newton_loop f df tol result n i x logs0 =
      Raised (ZeroDivisionError app.newton_msg) logs ->
    exists rows j x' fx dfx,
      logs = logs0 ++ rows /\
      newton_steps f df tol i x rows j x' /\
      (List.length rows < n)%nat /\
      f x' = Ok fx /\ df x' = Ok dfx /\ (dfx =? zero) = true.
Proof.
  induction n as [|n IH]; intros i x logs0 logs Hf Hdf; simpl.
  - discriminate.
  - destruct (f x) as [fx|e] eqn:Efx; simpl.
    2:{ intros E. injection E as -> _. now destruct (Hf x). }
    destruct (df x) as [dfx|e] eqn:Edfx; simpl.
    2:{ intros E. injection E as -> _. now destruct (Hdf x). }
    unfold pydiv. destruct (dfx =? zero) eqn:Ez; simpl.
    + intros E. injection E as <-.
      exists [], i, x, fx, dfx. rewrite app_nil_r.
      repeat split; auto; [constructor|simpl; lia].
    + fold (newton_row_at i x fx dfx).
      destruct (absn (x - fx / dfx - x) <? tol) eqn:Ec; [discriminate|].
      intros E.
      destruct (IH _ _ _ _ Hf Hdf E)
        as (rows & j & x' & fx' & dfx' & -> & Hs & Hl & Hfx' & Hdfx' & Hz').
      exists (newton_row_at i x fx dfx :: rows), j, x', fx', dfx'.
      rewrite <- app_assoc. simpl.
      repeat split; auto; [constructor; auto|lia].
Qed.

Lemma index_newton_loop_reaches result i x rows j x' :
  newton_steps f df tol i x rows j x' ->
  forall n logs0 fx dfx,
    (List.length rows < n)%nat ->
    f x' = Ok fx -> df x' = Ok dfx -> (dfx =? zero) = true ->
    app.index_newton_loop f df tol result n i x logs0 =
      Raised (ZeroDivisionError app.newton_msg) (logs0 ++ rows).
Proof.
  induction 1 as [i x|i x fx dfx rows j x' Hf Hdf Hz Hc Hs IH];
    intros n logs0 fx' dfx' Hl Hfx' Hdfx' Hz'.
  - destruct n as [|n]; [simpl in Hl; lia|].
    simpl. rewrite Hfx', Hdfx'. simpl. rewrite Hz'. now rewrite app_nil_r.
  - destruct n as [|n]; [simpl in Hl; lia|].
    simpl. rewrite Hf, Hdf. simpl. unfold pydiv. rewrite Hz. simpl.
    fold (newton_row_at i x fx dfx). simpl in Hc. rewrite Hc.
    rewrite (IH n _ fx' dfx'); auto; [|simpl in Hl; lia].
    now rewrite <- app_assoc.
Qed.

End NewtonLog.

(** C6: Newton-Raphson (the function of [ZOF_CLI.py] and the loop inlined in
    [index] of [app.py]) raises its zero-derivative error exactly when some
    iterate [x] reached within [max_iter] iterations has [df(x) == 0]; the
    test comes before the step [x - f(x) / df(x)], and the log then holds
    exactly the records of the iterations before the failing one.  ([f] and
    [df] themselves are taken not to raise that very error.) *)
Theorem newton_zero_derivative_error {num : Type} `{Arith num}
    (f df : num -> result num) (tol : num) (max_iter : Z) (x0 : num)
    (logs : list newton_row) :
  (forall y, f y <> Err (ZeroDivisionError newton_msg)) ->
  (forall y, df y <> Err (ZeroDivisionError newton_msg)) ->
  (forall y, f y <> Err (ZeroDivisionError app.newton_msg)) ->
  (forall y, df y <> Err (ZeroDivisionError app.newton_msg)) ->
  (newton_raphson f df tol max_iter x0 =
     Raised (ZeroDivisionError newton_msg) logs <->
   zero_derivative_after f df tol max_iter x0 logs) /\
  (app.index_newton f df tol x0 max_iter =
     Raised (ZeroDivisionError app.newton_msg) logs <->
   zero_derivative_after f df tol max_iter x0 logs).
Proof.
  intros Hf Hdf Hf' Hdf'. unfold zero_derivative_after. split; split.
  - intros E.
    destruct (newton_raphson_loop_zero_derivative f df tol max_iter _ _ _ _ _ _
                Hf Hdf E)
      as (rows & j & x & fx & dfx & Hl & Hs & Hlen & Hfx & Hdfx & Hz).
    simpl in Hl. subst rows.
    rewrite (newton_steps_snoc_index _ _ _ _ _ _ _ _ Hs) in Hs.
    exists x, fx, dfx. auto.
  - intros (x & fx & dfx & Hs & Hlen & Hfx & Hdfx & Hz).
    apply (newton_raphson_loop_reaches f df tol max_iter _ _ _ _ _ Hs
             (range_len max_iter) None [] fx dfx Hlen Hfx Hdfx Hz).
  - intros E.
    destruct (index_newton_loop_zero_derivative f df tol _ _ _ _ _ _
                Hf' Hdf' E)
      as (rows & j & x & fx & dfx & Hl & Hs & Hlen & Hfx & Hdfx & Hz).
    simpl in Hl. subst rows.
    rewrite (newton_steps_snoc_index _ _ _ _ _ _ _ _ Hs) in Hs.
    exists x, fx, dfx. auto.
  - intros (x & fx & dfx & Hs & Hlen & Hfx & Hdfx & Hz).
    apply (index_newton_loop_reaches f df tol None _ _ _ _ _ Hs
             (range_len max_iter) [] fx dfx Hlen Hfx Hdfx Hz).
Qed.

(** ** Modified secant started at 0 *)

Lemma Prim2SF_infinity : Prim2SF infinity = S754_infinity false.
Proof. vm_compute. reflexivity. Qed.

Lemma is_finite_Prim2SF (x : float) :
  PrimFloat.is_finite x = true ->
  (exists s, Prim2SF x = S754_zero s) \/
  (exists s m e, Prim2SF x = S754_finite s m e).
Proof.
  unfold PrimFloat.is_finite, PrimFloat.is_nan, PrimFloat.is_infinity.
  rewrite !FloatAxioms.eqb_spec, FloatAxioms.abs_spec, Prim2SF_infinity.
  destruct (Prim2SF x) as [s|s| |s m e]; eauto.
  - destruct s; discriminate.
  - discriminate.
Qed.

(** [0.0 + delta * 0.0] is [0.0] for a finite [delta]. *)
Lemma float_perturbation_of_zero (delta : float) :
  PrimFloat.is_finite delta = true -> (0 + delta * 0)%float = 0%float.
Proof.
  intros Hd. rewrite <- (SF2Prim_Prim2SF (0 + delta * 0)%float).
  rewrite FloatAxioms.add_spec, FloatAxioms.mul_spec, Prim2SF_zero.
  destruct (is_finite_Prim2SF delta Hd) as [(s & ->)|(s & m & e & ->)];
    destruct s; reflexivity.
Qed.

(** [y - y == 0] for a finite [y]. *)
Lemma float_sub_self (y : float) :
  PrimFloat.is_finite y = true -> PrimFloat.eqb (y - y) 0 = true.
Proof.
  intros Hy. rewrite FloatAxioms.eqb_spec, FloatAxioms.sub_spec, Prim2SF_zero.
  destruct (is_finite_Prim2SF y Hy) as [(s & ->)|(s & m & e & ->)].
  - destruct s; reflexivity.
  - unfold SF64sub, SFsub. rewrite Z.sub_diag. reflexivity.
Qed.

(** C10, counterexample: with [x0 = 0], [modified_secant] returns instead of
    raising when [f(0)] is [inf] (then [denom] is [nan], and [nan == 0] is
    false), and also when [delta] is [inf] (then [x + delta * x] is
    [nan]). *)
Lemma modified_secant_at_zero_may_return :
  (exists root err logs,
     overflowing 0%float = Ok infinity /\
     modified_secant overflowing delta_1e3 tol_1e6 1 0%float =
       Returned (root, err, 1%Z, logs)) /\
  (exists y root err logs,
     parabola 0%float = Ok y /\ PrimFloat.is_finite y = true /\
     modified_secant parabola infinity tol_1e6 1 0%float =
       Returned (root, err, 1%Z, logs)).
Proof.
  split.
  - do 3 eexists. split; vm_compute; reflexivity.
  - do 4 eexists. split; [|split]; vm_compute; reflexivity.
Qed.

(** C10 (amended): for every [f] whose evaluation at [0.0] succeeds with a
    finite value, every finite [delta], every tolerance and every
    [max_iter >= 1], [modified_secant] started at [x0 = 0.0] raises its
    zero-denominator error in the first iteration, with the empty log. *)
Theorem modified_secant_at_zero_raises (f : float -> result float)
    (delta tol : float) (max_iter : Z) (y : float) :
  (1 <= max_iter)%Z ->
  f 0%float = Ok y ->
  PrimFloat.is_finite y = true ->
  PrimFloat.is_finite delta = true ->
  modified_secant f delta tol max_iter 0%float =
    Raised (ZeroDivisionError modified_secant_msg) [].
Proof.
  intros Hmax Hf Hy Hd. unfold modified_secant, range_len.
  destruct (Z.to_nat max_iter) as [|n] eqn:En; [lia|].
  cbn [modified_secant_loop add mul sub eqb zero float_arith].
  rewrite (float_perturbation_of_zero delta Hd), Hf.
  cbn [bind]. now rewrite (float_sub_self y Hy).
Qed.

Lemma modified_secant_at_zero_witness :
  modified_secant parabola delta_1e3 tol_1e6 50 0%float =
    Raised (ZeroDivisionError modified_secant_msg) [].
Proof.
  apply (modified_secant_at_zero_raises parabola delta_1e3 tol_1e6 50
           (-2)%float).
  - lia.
  - vm_compute. reflexivity.
  - vm_compute. reflexivity.
  - vm_compute. reflexivity.
Defined.

(** ** The Newton branch of [index]: the reported error *)

Section IndexNewtonError.

Context {num : Type} `{Arith num}.
Local Open Scope list_scope.
Local Open Scope py_scope.

Variables f df_func : num -> result num.
Variable tol : num.

Lemma index_newton_loop_error n :
  forall i x logs r,
    app.index_newton_loop f df_func tol None n i x logs = Returned r ->
    app.rd_error r = None.
Proof.
  induction n as [|n IH]; intros i x logs r; simpl.
  - intros E. injection E as <-. reflexivity.
  - destruct (f x) as [fx|e]; simpl; [|discriminate].
    destruct (df_func x) as [dfx|e]; simpl; [|discriminate].
    unfold pydiv. destruct (dfx =? zero); simpl; [discriminate|].
    destruct (absn (x - fx / dfx - x) <? tol).
    + intros E. injection E as <-. reflexivity.
    + apply IH.
Qed.

(** C3 (the code at the failing path): whenever the Newton branch of
    [index] produces a result, converged early or not, its ['error'] entry
    is [None]: [result] is still [None] when
    [abs(result['root'] - x) if result else None] is evaluated. *)
Theorem index_newton_error_is_None x0 max_iter r :
  app.index_newton f df_func tol x0 max_iter = Returned r ->
  app.rd_error r = None.
Proof. unfold app.index_newton. apply index_newton_loop_error. Qed.

End IndexNewtonError.

Lemma index_newton_error_witness :
  exists r,
    app.index_newton parabola parabola' tol_1e6 1%float 50 = Returned r /\
    app.rd_root r = 0x1.6a09e667f3bcdp+0%float /\
    app.rd_error r = None.
Proof.
  eexists. split; [vm_compute; reflexivity|]. split; [reflexivity|].
  refine (index_newton_error_is_None parabola parabola' tol_1e6 1%float 50 _ _).
  vm_compute. reflexivity.
Defined.

(** ** [make_function]: when an expression is evaluated *)

(** C1, counterexample: [make_function] of both files returns a callable
    for ["__import__('os')"]; it raises nothing, and it does so without
    consulting the interpreter (the equations hold by unfolding
    [make_function] alone). *)
Lemma make_function_accepts_import_os :
  ZOF_CLI.make_function names_only "__import__('os')" =
    Ok (ZOF_CLI.make_function_f names_only "__import__('os')") /\
  app.make_function names_only "__import__('os')" =
    Ok (app.make_function_f names_only "__import__('os')").
Proof. split; reflexivity. Qed.

(** C1 (amended): [make_function] checks nothing and never fails: for every
    expression, whatever the interpreter would do with it, it returns the
    closure over the stripped text.  The expression is evaluated only when
    the closure is called, as [float(eval(expr, {"__builtins__": None},
    local))].  When that gives a float, the call returns it.  When it
    raises an [Exception], the call fails: with a [ValueError] that wraps
    the message in [ZOF_CLI.py], with the exception itself in [app.py].
    What is no [Exception] passes through both closures as it is. *)
Theorem make_function_defers_evaluation {num : Type} `{Arith num}
    (py : python num) (expr : string) :
  exists f g,
    ZOF_CLI.make_function py expr = Ok f /\
    app.make_function py expr = Ok g /\
    forall x,
      match float_eval py (strip expr) x with
      | Ok y => f x = Ok y /\ g x = Ok y
      | Err e =>
          g x = Err e /\
          f x = if is_Exception e
                then Err (ValueError ("Error evaluating expression at x="
                                        ++ str_float py x ++ ": "
                                        ++ str_exn py e))
                else Err e
      end.
Proof.
  exists (ZOF_CLI.make_function_f py (strip expr)),
    (app.make_function_f py (strip expr)).
  split; [reflexivity|]. split; [reflexivity|]. intros x.
  unfold ZOF_CLI.make_function_f, app.make_function_f, float_eval.
  destruct (py_eval py (strip expr) _ _) as [v|e]; cbn zeta.
  - destruct (py_float py v) as [y|e]; auto.
  - auto.
Qed.

Lemma make_function_defers_evaluation_witness :
  exists f g,
    ZOF_CLI.make_function names_only " y " = Ok f /\
    app.make_function names_only " y " = Ok g /\
    f 1%float =
      Err (ValueError
             "Error evaluating expression at x=1.0: 'NoneType' object is not subscriptable") /\
    g 1%float = Err (TypeError "'NoneType' object is not subscriptable").
Proof.
  destruct (make_function_defers_evaluation names_only " y ")
    as (f & g & Hf & Hg & Hcall).
  exists f, g. split; [exact Hf|]. split; [exact Hg|].
  specialize (Hcall 1%float).
  destruct Hcall as (Eg & Ef). split; [exact Ef|exact Eg].
Defined.

(** ** The theorems at concrete inputs *)

Lemma bisection_iteration_witness :
  exists r r',
    nth_error (logs_of (bisection line_0625 tol_1e6 50 0%float 1%float)) 1
      = Some r /\
    nth_error (logs_of (bisection line_0625 tol_1e6 50 0%float 1%float)) 2
      = Some r' /\
    br_a r = 0.5%float /\ br_b r = 1%float /\ br_c r = 0.75%float /\
    br_a r' = 0.5%float /\ br_b r' = 0.75%float.
Proof.
  destruct (nth_error (logs_of (bisection line_0625 tol_1e6 50 0%float 1%float)) 1)
    as [r|] eqn:Hr; [|vm_compute in Hr; discriminate].
  pose proof (proj2 (bisection_iteration line_0625 tol_1e6 50 0%float
                      1%float) 1%nat r Hr)
    as (_ & _ & _ & _ & _ & _ & _ & _ & Hnext).
  assert (Er : r = bisect_row 2 0.5%float 1%float (-0.125)%float 0.375%float
                     0.125%float)
    by (vm_compute in Hr; now injection Hr as <-).
  subst r.
  destruct (Hnext ltac:(vm_compute; reflexivity))
    as (_ & a' & b' & fa' & fb' & Hab & Hprog).
  vm_compute in Hab. injection Hab as -> -> -> ->.
  destruct Hprog as [(r' & Hr' & Ha' & Hb' & _)|[(Hmax & _)|(e & _ & Hlen & _)]].
  - exists (bisect_row 2 0.5%float 1%float (-0.125)%float 0.375%float
              0.125%float), r'.
    split; [reflexivity|]. split; [exact Hr'|].
    split; [vm_compute; reflexivity|]. split; [vm_compute; reflexivity|].
    split; [vm_compute; reflexivity|]. split; assumption.
  - discriminate.
  - vm_compute in Hlen. discriminate.
Defined.

Lemma regula_falsi_iteration_witness :
  exists r r',
    nth_error (logs_of (regula_falsi parabola tol_1e6 50 1%float 2%float)) 0
      = Some r /\
    nth_error (logs_of (regula_falsi parabola tol_1e6 50 1%float 2%float)) 1
      = Some r' /\
    br_fa r = (-1)%float /\ br_fb r = 2%float /\
    br_c r = ((1 * 2 - 2 * -1) / (2 - -1))%float /\
    br_a r' = br_c r /\ br_b r' = 2%float /\
    parabola (br_a r') = Ok (br_fa r').
Proof.
  destruct (nth_error (logs_of (regula_falsi parabola tol_1e6 50 1%float
                                  2%float)) 0)
    as [r|] eqn:Hr; [|vm_compute in Hr; discriminate].
  pose proof (proj2 (regula_falsi_iteration parabola tol_1e6 50 1%float
                      2%float) 0%nat r Hr)
    as (_ & _ & _ & _ & _ & _ & Hfc & _ & _ & Hnext).
  pose proof Hr as Er. vm_compute in Er. injection Er as <-.
  destruct (Hnext ltac:(vm_compute; reflexivity))
    as (a' & b' & fa' & fb' & Hab & Hprog).
  vm_compute in Hab. injection Hab as -> -> -> ->.
  destruct Hprog as [(r' & Hr' & Ha' & Hb' & Hfa' & _)
                    |[(Hmax & _)|[(_ & Hlen & _)|(e & _ & Hlen & _)]]].
  - eexists. exists r'. split; [reflexivity|]. split; [exact Hr'|].
    split; [reflexivity|]. split; [reflexivity|].
    split; [vm_compute; reflexivity|]. split; [exact Ha'|].
    split; [exact Hb'|].
    rewrite Ha', Hfa'. vm_compute. reflexivity.
  - discriminate.
  - vm_compute in Hlen. discriminate.
  - vm_compute in Hlen. discriminate.
Defined.

Lemma bracket_error_witness :
  bisection parabola tol_1e6 50 2%float 3%float =
    Raised (ValueError bisection_msg) [].
Proof.
  refine (proj2 (proj1 (bracket_error_iff_product_positive parabola tol_1e6 50
                          2%float 3%float 2%float 7%float _ _ _ _) [])
            (conj _ eq_refl)).
  - vm_compute. reflexivity.
  - vm_compute. reflexivity.
  - intros x. discriminate.
  - intros x. discriminate.
  - vm_compute. reflexivity.
Defined.

Lemma newton_zero_derivative_witness :
  zero_derivative_after raised_parabola raised_parabola' tol_1e6 50 2%float
    [newton_row_at 1 2%float 2%float 2%float].
Proof.
  refine (proj1 (proj1 (newton_zero_derivative_error
                          raised_parabola raised_parabola' tol_1e6 50 2%float
                          [newton_row_at 1 2%float 2%float 2%float] _ _ _ _)) _).
  - intros y. discriminate.
  - intros y. discriminate.
  - intros y. discriminate.
  - intros y. discriminate.
  - vm_compute. reflexivity.
Defined.

Section BisectionFirstRow.

Context {num : Type} `{Arith num}.
Local Open Scope list_scope.
Local Open Scope py_scope.

Variable f : num -> result num.
Variable tol : num.
Variable max_iter : Z.

(** The first logged row works on the bracket given to [bisection]. *)
Lemma bisection_log_first a b r :
  nth_error (logs_of (bisection f tol max_iter a b)) 0 = Some r ->
  br_a r = a /\ br_b r = b /\ f a = Ok (br_fa r) /\ f b = Ok (br_fb r).
Proof.
  destruct (bisection_run f tol max_iter a b)
    as [(e & -> & _)
       |(fa & fb & rows & j & a' & b' & fa' & fb' & Ha & Hb & _ & Hsteps & Hend)].
  - discriminate.
  - assert (Hchain : forall L, bisect_chain f 1 (a, b, fa, fb) L ->
              nth_error L 0 = Some r ->
              br_a r = a /\ br_b r = b /\ f a = Ok (br_fa r) /\
              f b = Ok (br_fb r)).
    { intros L HL Hk.
      destruct (bisect_chain_nth f _ _ _ HL _ _ Hk) as (_ & _ & H0 & _).
      specialize (H0 eq_refl). injection H0 as -> -> -> ->. auto. }
    destruct Hend as [(fc & Hl & Hf & Hc & ->)|[(Hl & ->)|(e & Hl & Hf & ->)]];
      simpl logs_of; apply Hchain.
    + eapply bisect_steps_chain_final; eauto.
    + eapply bisect_steps_chain; eauto.
    + eapply bisect_steps_chain; eauto.
Qed.

End BisectionFirstRow.

(** ** The common shape of the loops: what a run looks like *)

Section IterationRun.

Context {num st row : Type}.
Local Open Scope list_scope.

Variable step : Z -> st -> result row.
Variable converged : row -> bool.
Variable answer : row -> num * num.
Variable next : row -> st.
Variable exhausted : st -> option row -> result (num * num).
Variable max_iter : Z.

Local Abbreviation loop :=
  (iteration_loop (num := num) step converged answer next exhausted max_iter).

Lemma iteration_loop_rows n :
  forall i s last logs0,
  exists rows,
    logs_of (loop n i s last logs0) = logs0 ++ rows /\
    iterations step converged next i s rows /\
    (List.length rows <= n)%nat.
Proof.
  induction n as [|n IH]; intros i s last logs0; simpl.
  - exists []. rewrite app_nil_r. split; [|split; [constructor|auto]].
    now destruct (exhausted s last) as [[root err]|e].
  - destruct (step i s) as [r|e] eqn:Er.
    + destruct (converged r) eqn:Ec.
      * exists [r]. split; [reflexivity|]. split; [|simpl; lia].
        constructor; auto; [now intros []|constructor].
      * destruct (IH (i + 1)%Z (next r) (Some r) (logs0 ++ [r]))
          as (rows & Hl & Hi & Hn).
        exists (r :: rows). rewrite Hl, <- app_assoc.
        split; [reflexivity|]. split; [|simpl; lia].
        constructor; auto.
    + exists []. rewrite app_nil_r. split; [reflexivity|].
      split; [constructor|simpl; lia].
Qed.

Lemma iteration_loop_returned n :
  forall i s last logs0 root err iters logs,
    loop n i s last logs0 = Returned (root, err, iters, logs) ->
    exists rows,
      logs = logs0 ++ rows /\
      ((exists pre r,
          rows = pre ++ [r] /\ (List.length pre < n)%nat /\
          converged r = true /\ (root, err) = answer r /\
          iters = (i + Z.of_nat (List.length pre))%Z)
       \/ (List.length rows = n /\ iters = max_iter /\
           exhausted (final_state next s rows) (last_row last rows) =
             Ok (root, err) /\
           (forall r, In r rows -> converged r = false))).
Proof.
  induction n as [|n IH]; intros i s last logs0 root err iters logs; simpl.
  - destruct (exhausted s last) as [[root' err']|e] eqn:Ex; [|discriminate].
    intros E. injection E as <- <- <- <-.
    exists []. rewrite app_nil_r. split; [reflexivity|]. right.
    repeat split; auto. intros r [].
  - destruct (step i s) as [r|e] eqn:Er; [|discriminate].
    destruct (converged r) eqn:Ec.
    + intros E. injection E as <- <- <- <-.
      exists [r]. split; [reflexivity|]. left. exists [], r.
      repeat split; auto; simpl; try lia. now destruct (answer r).
    + intros E.
      destruct (IH _ _ _ _ _ _ _ _ E) as (rows & -> & Hcase).
      exists (r :: rows). rewrite <- app_assoc. split; [reflexivity|].
      destruct Hcase as [(pre & r' & -> & Hl & Hc & Ha & Hi)
                        |(Hl & Hi & Hx & Hu)].
      * left. exists (r :: pre), r'. repeat split; auto; simpl; lia.
      * right. repeat split; auto; [simpl; lia|].
        intros r' [<-|Hin]; auto.
Qed.

Lemma iterations_nth i s rows :
  iterations step converged next i s rows ->
  forall k r, nth_error rows k = Some r ->
    (k = 0%nat -> step i s = Ok r) /\
    (forall k' p, k = S k' -> nth_error rows k' = Some p ->
       step (i + Z.of_nat k)%Z (next p) = Ok r /\ converged p = false).
Proof.
  induction 1 as [|i s r0 rows Hs Hc Hrest IH]; intros k r Hk.
  - now destruct k.
  - destruct k as [|k]; simpl in Hk.
    + injection Hk as <-. split; auto. discriminate.
    + split; [discriminate|]. intros k' p Ek Hp. injection Ek as <-.
      destruct (IH k r Hk) as (H0 & HS).
      destruct k as [|k]; simpl in Hp.
      * injection Hp as <-. split.
        -- rewrite <- (H0 eq_refl). f_equal.
        -- apply Hc. intros ->. discriminate.
      * destruct (HS k p eq_refl Hp) as (Hstep & Hcp). split; auto.
        rewrite <- Hstep. f_equal. lia.
Qed.

Lemma last_row_snoc (last : option row) pre r :
  last_row last (pre ++ [r]) = Some r.
Proof. unfold last_row. now rewrite fold_left_app. Qed.

Lemma final_state_snoc (s : st) pre r :
  final_state next s (pre ++ [r]) = next r.
Proof. unfold final_state. now rewrite fold_left_app. Qed.

(** A whole call: the loop runs [range(1, max_iter + 1)] from the variables
    [s0], with an empty log. *)
Lemma iteration_log_nth s0 k r :
  nth_error (logs_of (loop (range_len max_iter) 1%Z s0 None [])) k = Some r ->
  (exists s,
     step (Z.of_nat k + 1)%Z s = Ok r /\
     (k = 0%nat -> s = s0) /\
     (forall k' p, k = S k' ->
        nth_error (logs_of (loop (range_len max_iter) 1%Z s0 None [])) k' =
          Some p ->
        s = next p /\ converged p = false)) /\
  (forall root err iters logs,
     loop (range_len max_iter) 1%Z s0 None [] =
       Returned (root, err, iters, logs) ->
     List.length logs = S k ->
     iters = (Z.of_nat k + 1)%Z /\
     ((converged r = true /\ (root, err) = answer r) \/
      (converged r = false /\ iters = max_iter /\
       exhausted (next r) (Some r) = Ok (root, err)))).
Proof.
  destruct (iteration_loop_rows (range_len max_iter) 1%Z s0 None [])
    as (rows & Hl & Hi & Hn).
  rewrite Hl. simpl app. intros Hk.
  destruct (iterations_nth _ _ _ Hi k r Hk) as (H0 & HS). split.
  - destruct k as [|k].
    + exists s0. split; [now apply H0|]. split; auto. discriminate.
    + destruct (nth_error rows k) as [p|] eqn:Ep.
      * destruct (HS k p eq_refl Ep) as (Hstep & Hcp).
        exists (next p). split.
        -- rewrite <- Hstep. f_equal. lia.
        -- split; [discriminate|]. intros k' p' Ek Hp'.
           injection Ek as <-. split; congruence.
      * apply nth_error_None in Ep.
        assert (Hlt : (S k < List.length rows)%nat)
          by (apply nth_error_Some; congruence).
        lia.
  - intros root err iters logs E Hlen.
    rewrite E in Hl. cbn [logs_of app] in Hl. subst logs.
    destruct (nth_error_last_snoc _ _ _ Hk Hlen) as (pre & Hpre).
    destruct (iteration_loop_returned _ _ _ _ _ _ _ _ _ E)
      as (rows' & Hrows' & Hcase).
    simpl in Hrows'. subst rows'.
    assert (Hpl : List.length pre = k).
    { rewrite Hpre, length_app in Hlen. simpl in Hlen. lia. }
    destruct Hcase as [(pre' & r' & Hr' & Hlt & Hc & Ha & Hit)
                      |(Hlr & Hit & Hx & Hu)].
    + rewrite Hpre in Hr'. apply app_inj_tail in Hr' as (<- & <-).
      split; [lia|]. left. auto.
    + split.
      * unfold range_len in Hlr. lia.
      * right. split; [apply Hu; rewrite Hpre; apply in_or_app; simpl; auto|].
        split; auto.
        now rewrite Hpre, final_state_snoc, last_row_snoc in Hx.
Qed.

End IterationRun.

(** ** Secant, Newton-Raphson, fixed point and modified secant: the
    iterations of a run *)

Section SolverRuns.

Context {num : Type} `{Arith num}.
Local Open Scope list_scope.
Local Open Scope py_scope.

Lemma pydiv_nonzero (x y : num) : (y =? zero) = false -> pydiv x y = Ok (x / y).
Proof. intros E. unfold pydiv. now rewrite E. Qed.

Section SecantRun.

Variable f : num -> result num.
Variable tol : num.
Variable max_iter : Z.

Lemma secant_loop_shape n :
  forall i x0 x1 last logs,
    secant_loop f tol max_iter n i x0 x1 logs =
    iteration_loop (secant_step f) (fun r => sc_err r <? tol)
      (fun r => (sc_x2 r, sc_err r)) (fun r => (sc_x1 r, sc_x2 r))
      secant_exhausted max_iter n i (x0, x1) last logs.
Proof.
  induction n as [|n IH]; intros i x0 x1 last logs; simpl; [reflexivity|].
  destruct (f x0) as [f0|e]; simpl; [|reflexivity].
  destruct (f x1) as [f1|e]; simpl; [|reflexivity].
  destruct (f1 - f0 =? zero) eqn:Ez; [reflexivity|].
  rewrite (pydiv_nonzero _ _ Ez). simpl.
  destruct (absn (x1 - f1 * (x1 - x0) / (f1 - f0) - x1) <? tol);
    [reflexivity|apply IH].
Qed.

Lemma secant_step_Ok i s r :
  secant_step f i s = Ok r ->
  sc_i r = i /\ (sc_x0 r, sc_x1 r) = s /\
  f (sc_x0 r) = Ok (sc_f0 r) /\ f (sc_x1 r) = Ok (sc_f1 r) /\
  (sc_f1 r - sc_f0 r =? zero) = false /\
  sc_x2 r = sc_x1 r - sc_f1 r * (sc_x1 r - sc_x0 r) / (sc_f1 r - sc_f0 r) /\
  sc_err r = absn (sc_x2 r - sc_x1 r).
Proof.
  destruct s as [x0 x1]. unfold secant_step.
  destruct (f x0) as [f0|e] eqn:E0; [|discriminate].
  destruct (f x1) as [f1|e] eqn:E1; [|discriminate].
  destruct (f1 - f0 =? zero) eqn:Ez; [discriminate|].
  rewrite (pydiv_nonzero _ _ Ez). intros E. injection E as <-. simpl. auto 10.
Qed.

(** X1: The secant method: every logged iteration [k] has index [k + 1], works
    on [x0], [x1] of the call or on [x1], [x2] of the row before it (which
    failed [err < tol]), records [f0 = f(x0)], [f1 = f(x1)] with [f1 - f0]
    not 0, [x2 = x1 - f1 * (x1 - x0) / (f1 - f0)] and [err = |x2 - x1|];
    and whenever the call returns, on convergence or after [max_iter]
    iterations, the root, the error and the iteration count are [x2], [err]
    and [i] of the last row. *)
Theorem secant_iteration x0 x1 k r :
  nth_error (logs_of (secant f tol max_iter x0 x1)) k = Some r ->
  (sc_i r = Z.of_nat k + 1)%Z /\
  (k = 0%nat -> sc_x0 r = x0 /\ sc_x1 r = x1) /\
  (forall k' p, k = S k' ->
     nth_error (logs_of (secant f tol max_iter x0 x1)) k' = Some p ->
     sc_x0 r = sc_x1 p /\ sc_x1 r = sc_x2 p /\ (sc_err p <? tol) = false) /\
  f (sc_x0 r) = Ok (sc_f0 r) /\
  f (sc_x1 r) = Ok (sc_f1 r) /\
  (sc_f1 r - sc_f0 r =? zero) = false /\
  sc_x2 r = sc_x1 r - sc_f1 r * (sc_x1 r - sc_x0 r) / (sc_f1 r - sc_f0 r) /\
  sc_err r = absn (sc_x2 r - sc_x1 r) /\
  (forall root err iters logs,
     secant f tol max_iter x0 x1 = Returned (root, err, iters, logs) ->
     List.length logs = S k ->
     root = sc_x2 r /\ err = sc_err r /\ iters = sc_i r /\
     ((sc_err r <? tol) = true \/ iters = max_iter)).
Proof.
  unfold secant. rewrite (secant_loop_shape _ _ _ _ None). intros Hk.
  destruct (iteration_log_nth _ _ _ _ _ _ _ _ _ Hk)
    as ((s & Hstep & H0 & HS) & Hret).
  apply secant_step_Ok in Hstep as (Hi & Hs & Hf0 & Hf1 & Hz & Hx2 & Herr).
  split; [exact Hi|].
  split; [intros Ek; rewrite (H0 Ek) in Hs; now injection Hs|].
  split.
  { intros k' p Ek Hp. destruct (HS k' p Ek Hp) as (Hsp & Hc).
    rewrite Hsp in Hs. injection Hs as -> ->. auto. }
  do 5 (split; [assumption|]).
  intros root err iters logs E Hlen.
  destruct (Hret root err iters logs E Hlen)
    as (Hit & [(Hc & Ha)|(Hc & Hm & Hx)]).
  - injection Ha as -> ->. repeat split; auto. congruence.
  - simpl in Hx. injection Hx as <- <-. repeat split; auto; congruence.
Qed.

End SecantRun.

Section NewtonRun.

Variables f df : num -> result num.
Variable tol : num.
Variable max_iter : Z.

Lemma newton_raphson_loop_shape n :
  forall i x last logs,
    newton_raphson_loop f df tol max_iter n i x (option_map nw_err last) logs =
    iteration_loop (newton_step f df) (fun r => nw_err r <? tol)
      (fun r => (nw_x_new r, nw_err r)) nw_x_new (err_exhausted nw_err)
      max_iter n i x last logs.
Proof.
  induction n as [|n IH]; intros i x last logs; simpl.
  - now destruct last.
  - unfold newton_step.
    destruct (f x) as [fx|e]; simpl; [|reflexivity].
    destruct (df x) as [dfx|e]; simpl; [|reflexivity].
    destruct (dfx =? zero) eqn:Ez; [reflexivity|].
    rewrite (pydiv_nonzero _ _ Ez). simpl.
    destruct (absn (x - fx / dfx - x) <? tol); [reflexivity|].
    exact (IH _ _ (Some (NewtonRow i x (x - fx / dfx) fx dfx
                           (absn (x - fx / dfx - x)))) _).
Qed.

Lemma newton_step_Ok i x r :
  newton_step f df i x = Ok r ->
  nw_i r = i /\ nw_x r = x /\
  f (nw_x r) = Ok (nw_fx r) /\ df (nw_x r) = Ok (nw_dfx r) /\
  (nw_dfx r =? zero) = false /\
  nw_x_new r = nw_x r - nw_fx r / nw_dfx r /\
  nw_err r = absn (nw_x_new r - nw_x r).
Proof.
  unfold newton_step.
  destruct (f x) as [fx|e] eqn:Ef; [|discriminate].
  destruct (df x) as [dfx|e] eqn:Ed; [|discriminate].
  destruct (dfx =? zero) eqn:Ez; [discriminate|].
  rewrite (pydiv_nonzero _ _ Ez). intros E. injection E as <-. simpl. auto 10.
Qed.

(** X2: Newton-Raphson: every logged iteration [k] has index [k + 1], starts
    from [x0] or from [x_new] of the row before it (which failed
    [err < tol]), records [fx = f(x)], [dfx = df(x)] not 0,
    [x_new = x - fx / dfx] and [err = |x_new - x|]; and whenever the call
    returns, the root, the error and the iteration count are [x_new], [err]
    and [i] of the last row. *)
Theorem newton_raphson_iteration x0 k r :
  nth_error (logs_of (newton_raphson f df tol max_iter x0)) k = Some r ->
  (nw_i r = Z.of_nat k + 1)%Z /\
  (k = 0%nat -> nw_x r = x0) /\
  (forall k' p, k = S k' ->
     nth_error (logs_of (newton_raphson f df tol max_iter x0)) k' = Some p ->
     nw_x r = nw_x_new p /\ (nw_err p <? tol) = false) /\
  f (nw_x r) = Ok (nw_fx r) /\
  df (nw_x r) = Ok (nw_dfx r) /\
  (nw_dfx r =? zero) = false /\
  nw_x_new r = nw_x r - nw_fx r / nw_dfx r /\
  nw_err r = absn (nw_x_new r - nw_x r) /\
  (forall root err iters logs,
     newton_raphson f df tol max_iter x0 = Returned (root, err, iters, logs) ->
     List.length logs = S k ->
     root = nw_x_new r /\ err = nw_err r /\ iters = nw_i r /\
     ((nw_err r <? tol) = true \/ iters = max_iter)).
Proof.
  unfold newton_raphson.
  rewrite (newton_raphson_loop_shape _ _ _ None). intros Hk.
  destruct (iteration_log_nth _ _ _ _ _ _ _ _ _ Hk)
    as ((s & Hstep & H0 & HS) & Hret).
  apply newton_step_Ok in Hstep as (Hi & Hs & Hf & Hdf & Hz & Hxn & Herr).
  split; [exact Hi|].
  split; [intros Ek; rewrite (H0 Ek) in Hs; exact Hs|].
  split.
  { intros k' p Ek Hp. destruct (HS k' p Ek Hp) as (Hsp & Hc).
    split; congruence. }
  do 5 (split; [assumption|]).
  intros root err iters logs E Hlen.
  destruct (Hret root err iters logs E Hlen)
    as (Hit & [(Hc & Ha)|(Hc & Hm & Hx)]).
  - injection Ha as -> ->. repeat split; auto. congruence.
  - simpl in Hx. injection Hx as <- <-. repeat split; auto; congruence.
Qed.

End NewtonRun.

Section FixedPointRun.

Variable g : num -> result num.
Variable tol : num.
Variable max_iter : Z.

Lemma fixed_point_loop_shape n :
  forall i x last logs,
    fixed_point_loop g tol max_iter n i x (option_map fp_err last) logs =
    iteration_loop (fixed_step g) (fun r => fp_err r <? tol)
      (fun r => (fp_x_new r, fp_err r)) fp_x_new (err_exhausted fp_err)
      max_iter n i x last logs.
Proof.
  induction n as [|n IH]; intros i x last logs; simpl.
  - now destruct last.
  - unfold fixed_step.
    destruct (g x) as [x_new|e]; simpl; [|reflexivity].
    destruct (absn (x_new - x) <? tol); [reflexivity|].
    exact (IH _ _ (Some (FixedRow i x x_new (absn (x_new - x)))) _).
Qed.

Lemma fixed_step_Ok i x r :
  fixed_step g i x = Ok r ->
  fp_i r = i /\ fp_x r = x /\ g (fp_x r) = Ok (fp_x_new r) /\
  fp_err r = absn (fp_x_new r - fp_x r).
Proof.
  unfold fixed_step.
  destruct (g x) as [x_new|e] eqn:Eg; [|discriminate].
  intros E. injection E as <-. simpl. auto.
Qed.

(** X3: Fixed-point iteration: every logged iteration [k] has index [k + 1],
    starts from [x0] or from [x_new] of the row before it (which failed
    [err < tol]), records [x_new = g(x)] and [err = |x_new - x|]; and
    whenever the call returns, the root, the error and the iteration count
    are [x_new], [err] and [i] of the last row. *)
Theorem fixed_point_iteration x0 k r :
  nth_error (logs_of (fixed_point g tol max_iter x0)) k = Some r ->
  (fp_i r = Z.of_nat k + 1)%Z /\
  (k = 0%nat -> fp_x r = x0) /\
  (forall k' p, k = S k' ->
     nth_error (logs_of (fixed_point g tol max_iter x0)) k' = Some p ->
     fp_x r = fp_x_new p /\ (fp_err p <? tol) = false) /\
  g (fp_x r) = Ok (fp_x_new r) /\
  fp_err r = absn (fp_x_new r - fp_x r) /\
  (forall root err iters logs,
     fixed_point g tol max_iter x0 = Returned (root, err, iters, logs) ->
     List.length logs = S k ->
     root = fp_x_new r /\ err = fp_err r /\ iters = fp_i r /\
     ((fp_err r <? tol) = true \/ iters = max_iter)).
Proof.
  unfold fixed_point.
  rewrite (fixed_point_loop_shape _ _ _ None). intros Hk.
  destruct (iteration_log_nth _ _ _ _ _ _ _ _ _ Hk)
    as ((s & Hstep & H0 & HS) & Hret).
  apply fixed_step_Ok in Hstep as (Hi & Hs & Hg & Herr).
  split; [exact Hi|].
  split; [intros Ek; rewrite (H0 Ek) in Hs; exact Hs|].
  split.
  { intros k' p Ek Hp. destruct (HS k' p Ek Hp) as (Hsp & Hc).
    split; congruence. }
  do 2 (split; [assumption|]).
  intros root err iters logs E Hlen.
  destruct (Hret root err iters logs E Hlen)
    as (Hit & [(Hc & Ha)|(Hc & Hm & Hx)]).
  - injection Ha as -> ->. repeat split; auto. congruence.
  - simpl in Hx. injection Hx as <- <-. repeat split; auto; congruence.
Qed.

End FixedPointRun.

Section ModifiedSecantRun.

Variable f : num -> result num.
Variable delta : num.
Variable tol : num.
Variable max_iter : Z.

Lemma modified_secant_loop_shape n :
  forall i x last logs,
    modified_secant_loop f delta tol max_iter n i x (option_map ms_err last)
      logs =
    iteration_loop (modsec_step f delta) (fun r => ms_err r <? tol)
      (fun r => (ms_x_new r, ms_err r)) ms_x_new (err_exhausted ms_err)
      max_iter n i x last logs.
Proof.
  induction n as [|n IH]; intros i x last logs; simpl.
  - now destruct last.
  - unfold modsec_step.
    destruct (f x) as [fx|e]; simpl; [|reflexivity].
    destruct (f (x + delta * x)) as [fxd|e]; simpl; [|reflexivity].
    destruct (fxd - fx =? zero) eqn:Ez; [reflexivity|].
    rewrite (pydiv_nonzero _ _ Ez). simpl.
    destruct (absn (x - delta * x * fx / (fxd - fx) - x) <? tol);
      [reflexivity|].
    exact (IH _ _ (Some (ModsecRow i x (x - delta * x * fx / (fxd - fx)) fx
                           (absn (x - delta * x * fx / (fxd - fx) - x)))) _).
Qed.

Lemma modsec_step_Ok i x r :
  modsec_step f delta i x = Ok r ->
  ms_i r = i /\ ms_x r = x /\ f (ms_x r) = Ok (ms_fx r) /\
  (exists fxd,
     f (ms_x r + delta * ms_x r) = Ok fxd /\
     (fxd - ms_fx r =? zero) = false /\
     ms_x_new r = ms_x r - delta * ms_x r * ms_fx r / (fxd - ms_fx r)) /\
  ms_err r = absn (ms_x_new r - ms_x r).
Proof.
  unfold modsec_step.
  destruct (f x) as [fx|e] eqn:Ef; [|discriminate].
  destruct (f (x + delta * x)) as [fxd|e] eqn:Ed; [|discriminate].
  destruct (fxd - fx =? zero) eqn:Ez; [discriminate|].
  rewrite (pydiv_nonzero _ _ Ez). intros E. injection E as <-. simpl.
  repeat split; auto. exists fxd. auto.
Qed.

(** X4: The modified secant method: every logged iteration [k] has index
    [k + 1], starts from [x0] or from [x_new] of the row before it (which
    failed [err < tol]), records [fx = f(x)], takes the step
    [x_new = x - delta * x * fx / (f(x + delta * x) - fx)] with a
    denominator that is not 0, and records [err = |x_new - x|]; and whenever
    the call returns, the root, the error and the iteration count are
    [x_new], [err] and [i] of the last row. *)
Theorem modified_secant_iteration x0 k r :
  nth_error (logs_of (modified_secant f delta tol max_iter x0)) k = Some r ->
  (ms_i r = Z.of_nat k + 1)%Z /\
  (k = 0%nat -> ms_x r = x0) /\
  (forall k' p, k = S k' ->
     nth_error (logs_of (modified_secant f delta tol max_iter x0)) k' =
       Some p ->
     ms_x r = ms_x_new p /\ (ms_err p <? tol) = false) /\
  f (ms_x r) = Ok (ms_fx r) /\
  (exists fxd,
     f (ms_x r + delta * ms_x r) = Ok fxd /\
     (fxd - ms_fx r =? zero) = false /\
     ms_x_new r = ms_x r - delta * ms_x r * ms_fx r / (fxd - ms_fx r)) /\
  ms_err r = absn (ms_x_new r - ms_x r) /\
  (forall root err iters logs,
     modified_secant f delta tol max_iter x0 =
       Returned (root, err, iters, logs) ->
     List.length logs = S k ->
     root = ms_x_new r /\ err = ms_err r /\ iters = ms_i r /\
     ((ms_err r <? tol) = true \/ iters = max_iter)).
Proof.
  unfold modified_secant.
  rewrite (modified_secant_loop_shape _ _ _ None). intros Hk.
  destruct (iteration_log_nth _ _ _ _ _ _ _ _ _ Hk)
    as ((s & Hstep & H0 & HS) & Hret).
  apply modsec_step_Ok in Hstep as (Hi & Hs & Hf & Hstep & Herr).
  split; [exact Hi|].
  split; [intros Ek; rewrite (H0 Ek) in Hs; exact Hs|].
  split.
  { intros k' p Ek Hp. destruct (HS k' p Ek Hp) as (Hsp & Hc).
    split; congruence. }
  do 3 (split; [assumption|]).
  intros root err iters logs E Hlen.
  destruct (Hret root err iters logs E Hlen)
    as (Hit & [(Hc & Ha)|(Hc & Hm & Hx)]).
  - injection Ha as -> ->. repeat split; auto. congruence.
  - simpl in Hx. injection Hx as <- <-. repeat split; auto; congruence.
Qed.

End ModifiedSecantRun.

End SolverRuns.

Lemma secant_iteration_witness :
  exists r,
    nth_error (logs_of (secant parabola tol_1e6 50 1%float 2%float)) 0 =
      Some r /\
    sc_x0 r = 1%float /\ sc_x1 r = 2%float.
Proof.
  eexists. split; [vm_compute; reflexivity|].
  refine (proj1 (proj2 (secant_iteration parabola tol_1e6 50 1%float 2%float
                          0%nat _ _)) eq_refl).
  vm_compute. reflexivity.
Defined.

Lemma newton_raphson_iteration_witness :
  exists r,
    nth_error
      (logs_of (newton_raphson parabola parabola' tol_1e6 50 1%float)) 0 =
      Some r /\
    nw_x r = 1%float.
Proof.
  eexists. split; [vm_compute; reflexivity|].
  refine (proj1 (proj2 (newton_raphson_iteration parabola parabola' tol_1e6 50
                          1%float 0%nat _ _)) eq_refl).
  vm_compute. reflexivity.
Defined.

Lemma fixed_point_iteration_witness :
  exists r,
    nth_error (logs_of (fixed_point halfway tol_1e6 50 0%float)) 1 = Some r /\
    fp_err r = PrimFloat.abs (fp_x_new r - fp_x r).
Proof.
  eexists. split; [vm_compute; reflexivity|].
  refine (proj1 (proj2 (proj2 (proj2 (proj2
            (fixed_point_iteration halfway tol_1e6 50 0%float 1%nat _ _)))))).
  vm_compute. reflexivity.
Defined.

Lemma modified_secant_iteration_witness :
  exists r,
    nth_error
      (logs_of (modified_secant parabola delta_1e3 tol_1e6 50 1%float)) 0 =
      Some r /\
    ms_x r = 1%float.
Proof.
  eexists. split; [vm_compute; reflexivity|].
  refine (proj1 (proj2 (modified_secant_iteration parabola delta_1e3 tol_1e6
                          50 1%float 0%nat _ _)) eq_refl).
  vm_compute. reflexivity.
Defined.

(** ** Calls whose [range(1, max_iter + 1)] is empty *)

(** X5: With [max_iter <= 0] no iteration runs.  [bisection] (when the bracket
    check passes) and [secant] return values computed from their arguments,
    with [max_iter] as the iteration count and an empty log; [secant] does
    not call [f] at all.  The other four reach their final [return] with
    [fc], respectively [err], never assigned: [regula_falsi] (when the
    bracket check passes), [newton_raphson], [fixed_point] and
    [modified_secant] raise [UnboundLocalError]. *)
Theorem solvers_without_iterations {num : Type} `{Arith num} (tol : num)
    (max_iter : Z) :
  (max_iter <= 0)%Z ->
  (forall f a b fa fb,
     f a = Ok fa -> f b = Ok fb -> (zero <? fa * fb)%py = false ->
     bisection f tol max_iter a b =
       Returned (((a + b) / two)%py, (absn (b - a) / two)%py, max_iter, []) /\
     regula_falsi f tol max_iter a b = Raised (UnboundLocalError "fc") []) /\
  (forall f x0 x1,
     secant f tol max_iter x0 x1 =
       Returned (x1, absn (x1 - x0)%py, max_iter, [])) /\
  (forall f df x0,
     newton_raphson f df tol max_iter x0 =
       Raised (UnboundLocalError "err") []) /\
  (forall g x0,
     fixed_point g tol max_iter x0 = Raised (UnboundLocalError "err") []) /\
  (forall f delta x0,
     modified_secant f delta tol max_iter x0 =
       Raised (UnboundLocalError "err") []).
Proof.
  intros Hmax.
  assert (Hn : range_len max_iter = 0%nat) by (unfold range_len; lia).
  split; [|split; [|split; [|split]]].
  - intros f a b fa fb Ha Hb Hs.
    unfold bisection, regula_falsi. rewrite Ha, Hb, Hn. simpl.
    rewrite Hs. split; reflexivity.
  - intros f x0 x1. unfold secant. now rewrite Hn.
  - intros f df x0. unfold newton_raphson. now rewrite Hn.
  - intros g x0. unfold fixed_point. now rewrite Hn.
  - intros f delta x0. unfold modified_secant. now rewrite Hn.
Qed.

Lemma solvers_without_iterations_witness :
  newton_raphson parabola parabola' tol_1e6 0 1%float =
    Raised (UnboundLocalError "err") [].
Proof.
  apply (proj1 (proj2 (proj2 (solvers_without_iterations tol_1e6 0
                                ltac:(lia))))).
Defined.

(** ** Facts on binary64 floats *)

Lemma float_eqb_zero (x : float) :
  PrimFloat.eqb x 0 = true -> exists s, Prim2SF x = S754_zero s.
Proof.
  rewrite FloatAxioms.eqb_spec, Prim2SF_zero.
  destruct (Prim2SF x) as [s|s| |s m e]; unfold SFeqb, SFcompare;
    try destruct s; try discriminate; eauto.
Qed.

(** A product with a factor that is [0.0] or [-0.0] is not negative. *)
Lemma float_zero_mul_not_neg (x y : float) :
  PrimFloat.eqb x 0 = true -> PrimFloat.ltb (x * y) 0 = false.
Proof.
  intros Hx. destruct (float_eqb_zero x Hx) as (s & Ex).
  rewrite FloatAxioms.ltb_spec, FloatAxioms.mul_spec, Ex, Prim2SF_zero.
  destruct (Prim2SF y) as [s'|s'| |s' m e]; reflexivity.
Qed.

Lemma float_zero_mul_not_pos (x y : float) :
  PrimFloat.eqb x 0 = true -> PrimFloat.eqb y 0 = true ->
  PrimFloat.ltb 0 (x * y) = false.
Proof.
  intros Hx Hy. destruct (float_eqb_zero x Hx) as (s & Ex).
  destruct (float_eqb_zero y Hy) as (s' & Ey).
  rewrite FloatAxioms.ltb_spec, FloatAxioms.mul_spec, Ex, Ey, Prim2SF_zero.
  reflexivity.
Qed.

Lemma float_zero_sub_zero (x y : float) :
  PrimFloat.eqb x 0 = true -> PrimFloat.eqb y 0 = true ->
  PrimFloat.eqb (y - x) 0 = true.
Proof.
  intros Hx Hy. destruct (float_eqb_zero x Hx) as (s & Ex).
  destruct (float_eqb_zero y Hy) as (s' & Ey).
  rewrite FloatAxioms.eqb_spec, FloatAxioms.sub_spec, Ex, Ey, Prim2SF_zero.
  destruct s, s'; reflexivity.
Qed.

(** [y - y] is [0.0] for a finite [y]. *)
Lemma float_sub_self_zero (y : float) :
  PrimFloat.is_finite y = true -> (y - y)%float = 0%float.
Proof.
  intros Hy. rewrite <- (SF2Prim_Prim2SF (y - y)%float).
  rewrite FloatAxioms.sub_spec.
  destruct (is_finite_Prim2SF y Hy) as [(s & ->)|(s & m & e & ->)].
  - destruct s; reflexivity.
  - unfold SF64sub, SFsub. rewrite Z.sub_diag.
    destruct s; reflexivity.
Qed.

Lemma SFnonneg_not_lt (x t : spec_float) :
  SFnonneg x -> SFleb t (S754_zero false) = true -> SFltb x t = false.
Proof.
  destruct x as [s|s| |s m e]; simpl; intros Hx; subst;
    destruct t as [s'|s'| |s' m' e']; try destruct s';
    unfold SFleb, SFltb, SFcompare; congruence.
Qed.

Lemma SFabs_nonneg (x : spec_float) : SFnonneg (SFabs x).
Proof. destruct x; simpl; auto. Qed.

Lemma SFdiv_nonneg (x : spec_float) m e :
  SFnonneg x -> SFnonneg (SF64div x (S754_finite false m e)).
Proof.
  destruct x as [s|s| |s m' e']; simpl; intros Hx; subst; auto.
  unfold SF64div, SFdiv.
  destruct (SFdiv_core_binary _ _ _ _ _ _) as [[mz ez] lz].
  unfold binary_round_aux.
  destruct (shr_fexp _ _ _ _ _) as [mrs' e1].
  destruct (shr_fexp _ _ _ _ _) as [mrs'' e2].
  destruct (shr_m mrs''); simpl; auto.
  destruct (e2 <=? _)%Z; simpl; auto.
Qed.

Lemma float_abs_not_lt (y tol : float) :
  PrimFloat.leb tol 0 = true -> PrimFloat.ltb (PrimFloat.abs y) tol = false.
Proof.
  rewrite FloatAxioms.leb_spec, FloatAxioms.ltb_spec, FloatAxioms.abs_spec,
    Prim2SF_zero.
  apply SFnonneg_not_lt, SFabs_nonneg.
Qed.

Lemma float_half_abs_not_lt (y tol : float) :
  PrimFloat.leb tol 0 = true ->
  PrimFloat.ltb (PrimFloat.abs y / 2) tol = false.
Proof.
  rewrite FloatAxioms.leb_spec, FloatAxioms.ltb_spec, FloatAxioms.div_spec,
    FloatAxioms.abs_spec, Prim2SF_zero.
  apply SFnonneg_not_lt.
  change (Prim2SF 2) with (S754_finite false 4503599627370496 (-51)).
  apply SFdiv_nonneg, SFabs_nonneg.
Qed.

(** ** Roots and fixed points that the arguments already hold *)

(** X6: [regula_falsi] on a bracket whose two endpoints are both exact roots:
    [fa * fb] is 0, so the bracket check passes, and the first iteration
    divides by [fb - fa == 0].  The call raises Python's own
    [ZeroDivisionError] instead of returning either root. *)
Theorem regula_falsi_roots_at_both_ends (f : float -> result float)
    (tol : float) (max_iter : Z) (a b fa fb : float) :
  (1 <= max_iter)%Z ->
  f a = Ok fa -> f b = Ok fb ->
  PrimFloat.eqb fa 0 = true -> PrimFloat.eqb fb 0 = true ->
  regula_falsi f tol max_iter a b =
    Raised (ZeroDivisionError "float division by zero") [].
Proof.
  intros Hmax Ha Hb Hfa Hfb. unfold regula_falsi, range_len.
  rewrite Ha, Hb. cbn [bind zero mul ltb float_arith].
  rewrite (float_zero_mul_not_pos fa fb Hfa Hfb).
  destruct (Z.to_nat max_iter) as [|n] eqn:En; [lia|].
  cbn [regula_falsi_loop]. unfold pydiv.
  cbn [sub eqb zero float_arith].
  now rewrite (float_zero_sub_zero fa fb Hfa Hfb).
Qed.

Lemma regula_falsi_roots_at_both_ends_witness :
  regula_falsi parabola_roots tol_1e6 50 (-1)%float 1%float =
    Raised (ZeroDivisionError "float division by zero") [].
Proof.
  apply (regula_falsi_roots_at_both_ends parabola_roots tol_1e6 50
           (-1)%float 1%float 0%float 0%float).
  - lia.
  - vm_compute. reflexivity.
  - vm_compute. reflexivity.
  - vm_compute. reflexivity.
  - vm_compute. reflexivity.
Defined.

(** X7: [bisection] on a bracket whose left endpoint is an exact root: the sign
    test [fa * fc < 0] fails, so unless the first iteration converges the
    second one works on [[c, b]], and the root [a] has left the bracket. *)
Theorem bisection_root_at_left_end (f : float -> result float)
    (tol : float) (max_iter : Z) (a b fa : float) (r0 r1 : bracket_row) :
  f a = Ok fa -> PrimFloat.eqb fa 0 = true ->
  nth_error (logs_of (bisection f tol max_iter a b)) 0 = Some r0 ->
  nth_error (logs_of (bisection f tol max_iter a b)) 1 = Some r1 ->
  br_a r0 = a /\ br_b r0 = b /\
  br_a r1 = ((a + b) / 2)%float /\ br_b r1 = b.
Proof.
  intros Ha Hfa H0 H1.
  destruct (bisection_log_first f tol max_iter a b r0 H0)
    as (Ea & Eb & Efa & _).
  destruct (bisection_log_nth f tol max_iter a b 0 r0 H0) as (Hrow & _ & Hnext).
  destruct (Hnext r1 H1) as (Hn & _).
  assert (Efa' : br_fa r0 = fa) by congruence.
  unfold next_bracket in Hn. rewrite Efa' in Hn.
  cbn [mul ltb zero float_arith] in Hn.
  rewrite (float_zero_mul_not_neg fa (br_fc r0) Hfa) in Hn.
  injection Hn as -> -> _ _.
  rewrite Hrow. cbn [bisect_row br_a br_b br_c]. rewrite Ea, Eb.
  repeat split; reflexivity.
Qed.

Lemma bisection_root_at_left_end_witness :
  exists r0 r1,
    nth_error (logs_of (bisection identity tol_1e6 50 0%float 1%float)) 0 =
      Some r0 /\
    nth_error (logs_of (bisection identity tol_1e6 50 0%float 1%float)) 1 =
      Some r1 /\
    br_a r1 = ((0 + 1) / 2)%float /\ br_b r1 = 1%float.
Proof.
  do 2 eexists. split; [vm_compute; reflexivity|].
  split; [vm_compute; reflexivity|].
  refine (proj2 (proj2 (bisection_root_at_left_end identity tol_1e6 50
                          0%float 1%float 0%float _ _ _ _ _ _))).
  - vm_compute. reflexivity.
  - vm_compute. reflexivity.
  - vm_compute. reflexivity.
  - vm_compute. reflexivity.
Defined.

(** X8: [secant] called with [x0 == x1] at a point where [f] is finite:
    [f1 - f0] is 0 and the first iteration raises. *)
Theorem secant_same_points_raises (f : float -> result float)
    (tol : float) (max_iter : Z) (x y : float) :
  (1 <= max_iter)%Z ->
  f x = Ok y -> PrimFloat.is_finite y = true ->
  secant f tol max_iter x x = Raised (ZeroDivisionError secant_msg) [].
Proof.
  intros Hmax Hf Hy. unfold secant, range_len.
  destruct (Z.to_nat max_iter) as [|n] eqn:En; [lia|].
  cbn [secant_loop]. rewrite Hf. cbn [bind sub eqb zero float_arith].
  now rewrite (float_sub_self y Hy).
Qed.

Lemma secant_same_points_witness :
  secant parabola tol_1e6 50 1%float 1%float =
    Raised (ZeroDivisionError secant_msg) [].
Proof.
  apply (secant_same_points_raises parabola tol_1e6 50 1%float (-1)%float).
  - lia.
  - vm_compute. reflexivity.
  - vm_compute. reflexivity.
Defined.

(** X9: [fixed_point] started at a finite fixed point of [g], with a positive
    tolerance: the first iteration finds [err = 0.0] and returns [x0]. *)
Theorem fixed_point_at_fixed_point (g : float -> result float)
    (tol : float) (max_iter : Z) (x0 : float) :
  (1 <= max_iter)%Z ->
  g x0 = Ok x0 -> PrimFloat.is_finite x0 = true ->
  PrimFloat.ltb 0 tol = true ->
  fixed_point g tol max_iter x0 =
    Returned (x0, 0%float, 1%Z, [FixedRow 1 x0 x0 0%float]).
Proof.
  intros Hmax Hg Hx Htol. unfold fixed_point, range_len.
  destruct (Z.to_nat max_iter) as [|n] eqn:En; [lia|].
  cbn [fixed_point_loop]. rewrite Hg.
  cbn [bind sub absn ltb float_arith app].
  rewrite (float_sub_self_zero x0 Hx).
  change (PrimFloat.abs 0) with 0%float. now rewrite Htol.
Qed.

Lemma fixed_point_at_fixed_point_witness :
  fixed_point halfway tol_1e6 50 1%float =
    Returned (1%float, 0%float, 1%Z, [FixedRow 1 1%float 1%float 0%float]).
Proof.
  apply (fixed_point_at_fixed_point halfway tol_1e6 50 1%float).
  - lia.
  - vm_compute. reflexivity.
  - vm_compute. reflexivity.
  - vm_compute. reflexivity.
Defined.

(** ** A tolerance that is not positive *)

Section Unconverged.

Context {num : Type} `{Arith num}.
Local Open Scope list_scope.
Local Open Scope py_scope.

Variable tol : num.
Variable max_iter : Z.

(** No absolute value, and no half of one, is below [tol]. *)
Hypothesis abs_not_lt : forall y, (absn y <? tol) = false.
Hypothesis half_abs_not_lt : forall y, (absn y / two <? tol) = false.

Lemma bisection_loop_runs_out f n :
  forall i a b fa fb logs0 root err iters logs,
    bisection_loop f tol max_iter n i a b fa fb logs0 =
      Returned (root, err, iters, logs) ->
    iters = max_iter /\ List.length logs = (List.length logs0 + n)%nat.
Proof.
  induction n as [|n IH]; intros i a b fa fb logs0 root err iters logs; simpl.
  - intros E. injection E as <- <- <- <-. split; [reflexivity|lia].
  - destruct (f ((a + b) / two)) as [fc|e]; simpl; [|discriminate].
    rewrite abs_not_lt, half_abs_not_lt. simpl.
    destruct (fa * fc <? zero); intros E; apply IH in E as (-> & ->);
      rewrite length_app; simpl; split; auto; lia.
Qed.

Lemma regula_falsi_loop_runs_out f n :
  forall i a b fa fb c fc logs0 root err iters logs,
    regula_falsi_loop f tol max_iter n i a b fa fb c fc logs0 =
      Returned (root, err, iters, logs) ->
    iters = max_iter /\ List.length logs = (List.length logs0 + n)%nat.
Proof.
  induction n as [|n IH];
    intros i a b fa fb c fc logs0 root err iters logs; simpl.
  - destruct fc; [|discriminate].
    intros E. injection E as <- <- <- <-. split; [reflexivity|lia].
  - destruct (pydiv (a * fb - b * fa) (fb - fa)) as [c'|e]; simpl;
      [|discriminate].
    destruct (f c') as [fc'|e]; simpl; [|discriminate].
    rewrite abs_not_lt.
    destruct (fa * fc' <? zero); intros E; apply IH in E as (-> & ->);
      rewrite length_app; simpl; split; auto; lia.
Qed.

Lemma iteration_loop_runs_out {st row : Type} (step : Z -> st -> result row)
    (converged : row -> bool) answer next exhausted n :
  (forall i s r, step i s = Ok r -> converged r = false) ->
  forall i s last logs0 (root err : num) iters logs,
    iteration_loop step converged answer next exhausted max_iter n i s last
      logs0 = Returned (root, err, iters, logs) ->
    iters = max_iter /\ List.length logs = (List.length logs0 + n)%nat.
Proof.
  intros Hstep.
  induction n as [|n IH]; intros i s last logs0 root err iters logs; simpl.
  - destruct (exhausted s last) as [[root' err']|e]; [|discriminate].
    intros E. injection E as <- <- <- <-. split; [reflexivity|lia].
  - destruct (step i s) as [r|e] eqn:Er; [|discriminate].
    rewrite (Hstep _ _ _ Er).
    intros E; apply IH in E as (-> & ->).
    rewrite length_app; simpl; split; auto; lia.
Qed.

Lemma solvers_run_out :
  (forall f a b, runs_out max_iter (bisection f tol max_iter a b)) /\
  (forall f a b, runs_out max_iter (regula_falsi f tol max_iter a b)) /\
  (forall f x0 x1, runs_out max_iter (secant f tol max_iter x0 x1)) /\
  (forall f df x0, runs_out max_iter (newton_raphson f df tol max_iter x0)) /\
  (forall g x0, runs_out max_iter (fixed_point g tol max_iter x0)) /\
  (forall f delta x0,
     runs_out max_iter (modified_secant f delta tol max_iter x0)).
Proof.
  unfold runs_out, range_len.
  split; [|split; [|split; [|split; [|split]]]].
  - intros f a b root err iters logs. unfold bisection.
    destruct (f a) as [fa|e]; simpl; [|discriminate].
    destruct (f b) as [fb|e]; simpl; [|discriminate].
    destruct (zero <? fa * fb); [discriminate|].
    intros E. now apply bisection_loop_runs_out in E.
  - intros f a b root err iters logs. unfold regula_falsi.
    destruct (f a) as [fa|e]; simpl; [|discriminate].
    destruct (f b) as [fb|e]; simpl; [|discriminate].
    destruct (zero <? fa * fb); [discriminate|].
    intros E. now apply regula_falsi_loop_runs_out in E.
  - intros f x0 x1 root err iters logs. unfold secant.
    rewrite (secant_loop_shape f tol max_iter _ _ _ _ None). intros E.
    apply iteration_loop_runs_out in E; [exact E|].
    intros i s r Hs. apply secant_step_Ok in Hs as (_ & _ & _ & _ & _ & _ & ->).
    apply abs_not_lt.
  - intros f df x0 root err iters logs. unfold newton_raphson.
    rewrite (newton_raphson_loop_shape f df tol max_iter _ _ _ None). intros E.
    apply iteration_loop_runs_out in E; [exact E|].
    intros i s r Hs. apply newton_step_Ok in Hs as (_ & _ & _ & _ & _ & _ & ->).
    apply abs_not_lt.
  - intros g x0 root err iters logs. unfold fixed_point.
    rewrite (fixed_point_loop_shape g tol max_iter _ _ _ None). intros E.
    apply iteration_loop_runs_out in E; [exact E|].
    intros i s r Hs. apply fixed_step_Ok in Hs as (_ & _ & _ & ->).
    apply abs_not_lt.
  - intros f delta x0 root err iters logs. unfold modified_secant.
    rewrite (modified_secant_loop_shape f delta tol max_iter _ _ _ None). intros E.
    apply iteration_loop_runs_out in E; [exact E|].
    intros i s r Hs. apply modsec_step_Ok in Hs as (_ & _ & _ & _ & ->).
    apply abs_not_lt.
Qed.

End Unconverged.

(** X10: With a tolerance [tol <= 0] no convergence test of the six solvers can
    succeed, whatever [f] is: every test compares an absolute value, or half
    of one, with [tol].  A call that returns has run all of its iterations:
    it returns [max_iter] and a log of [max_iter] rows. *)
Theorem nonpositive_tolerance_runs_out (tol : float) (max_iter : Z) :
  PrimFloat.leb tol 0 = true ->
  (forall f a b, runs_out max_iter (bisection f tol max_iter a b)) /\
  (forall f a b, runs_out max_iter (regula_falsi f tol max_iter a b)) /\
  (forall f x0 x1, runs_out max_iter (secant f tol max_iter x0 x1)) /\
  (forall f df x0, runs_out max_iter (newton_raphson f df tol max_iter x0)) /\
  (forall g x0, runs_out max_iter (fixed_point g tol max_iter x0)) /\
  (forall f delta x0,
     runs_out max_iter (modified_secant f delta tol max_iter x0)).
Proof.
  intros Htol. apply solvers_run_out.
  - intros y. now apply float_abs_not_lt.
  - intros y. now apply float_half_abs_not_lt.
Qed.

Lemma nonpositive_tolerance_witness :
  runs_out 5 (newton_raphson parabola parabola' 0%float 5 1%float).
Proof.
  apply (proj1 (proj2 (proj2 (proj2
           (nonpositive_tolerance_runs_out 0%float 5 ltac:(reflexivity)))))).
Defined.

(** ** The solvers of [app.py] beside those of [ZOF_CLI.py] *)

Section WebCopies.

Context {num : Type} `{Arith num}.
Local Open Scope list_scope.
Local Open Scope py_scope.

Variable tol : num.
Variable max_iter : Z.

Lemma bisection_loop_same f n :
  forall i a b fa fb logs,
    same_run (ValueError bisection_msg) (ValueError app.bisection_msg)
      (bisection_loop f tol max_iter n i a b fa fb logs)
      (app.bisection_loop f tol n i a b fa fb logs).
Proof.
  induction n as [|n IH]; intros i a b fa fb logs; simpl; auto.
  destruct (f ((a + b) / two)) as [fc|e]; simpl; auto.
  destruct ((absn fc <? tol) || (absn (b - a) / two <? tol)); simpl; auto.
  destruct (fa * fc <? zero); apply IH.
Qed.

(** X11: [bisection] of [app.py] is [bisection] of [ZOF_CLI.py] without the
    iteration count: on every input the two return the same root, error and
    log, or raise with the same log: the bracket error (in its own wording)
    or whatever [f] raised. *)
Theorem app_bisection_same_as_cli f a b :
  same_run (ValueError bisection_msg) (ValueError app.bisection_msg)
    (bisection f tol max_iter a b) (app.bisection f tol a b max_iter).
Proof.
  unfold bisection, app.bisection.
  destruct (f a) as [fa|e]; simpl; auto.
  destruct (f b) as [fb|e]; simpl; auto.
  destruct (zero <? fa * fb); simpl; auto.
  apply bisection_loop_same.
Qed.

Lemma secant_loop_same f n :
  forall i x0 x1 logs,
    same_run (ZeroDivisionError secant_msg) (ZeroDivisionError app.secant_msg)
      (secant_loop f tol max_iter n i x0 x1 logs)
      (app.secant_loop f tol n i x0 x1 logs).
Proof.
  induction n as [|n IH]; intros i x0 x1 logs; simpl; auto.
  destruct (f x0) as [f0|e]; simpl; auto.
  destruct (f x1) as [f1|e]; simpl; auto.
  destruct (f1 - f0 =? zero) eqn:Ez; simpl; auto.
  rewrite (pydiv_nonzero _ _ Ez). simpl.
  destruct (absn (x1 - f1 * (x1 - x0) / (f1 - f0) - x1) <? tol); simpl; auto.
Qed.

(** X12: [secant] of [app.py] is [secant] of [ZOF_CLI.py] without the iteration
    count: same root, error and log on return, same log and same
    exception (the zero-division error in its own wording, or what [f]
    raised) otherwise. *)
Theorem app_secant_same_as_cli f x0 x1 :
  same_run (ZeroDivisionError secant_msg) (ZeroDivisionError app.secant_msg)
    (secant f tol max_iter x0 x1) (app.secant f tol x0 x1 max_iter).
Proof. apply secant_loop_same. Qed.

Lemma index_newton_loop_same f df n :
  forall i x err logs,
    (n = 0%nat -> err <> None) ->
    same_newton_run
      (newton_raphson_loop f df tol max_iter n i x err logs)
      (app.index_newton_loop f df tol None n i x logs).
Proof.
  induction n as [|n IH]; intros i x err logs Herr; simpl.
  - destruct err; [simpl; auto|now destruct Herr].
  - destruct (f x) as [fx|e]; simpl; auto.
    destruct (df x) as [dfx|e]; simpl; auto.
    destruct (dfx =? zero) eqn:Ez; simpl; auto.
    rewrite (pydiv_nonzero _ _ Ez). simpl.
    destruct (absn (x - fx / dfx - x) <? tol); simpl; auto.
    apply IH. discriminate.
Qed.

(** X13: The Newton loop inlined in [index] beside [newton_raphson] of
    [ZOF_CLI.py].  With [max_iter >= 1] the two compute the same: the same
    root and log on return (but no error estimate in the result dict), the
    same log and exception otherwise.  With [max_iter <= 0] they differ:
    [newton_raphson] raises [UnboundLocalError], the branch of [index] takes
    the [else] of its [for] and reports [x0] as the root. *)
Theorem index_newton_same_as_cli f df x0 :
  ((1 <= max_iter)%Z ->
   same_newton_run (newton_raphson f df tol max_iter x0)
     (app.index_newton f df tol x0 max_iter)) /\
  ((max_iter <= 0)%Z ->
   newton_raphson f df tol max_iter x0 =
     Raised (UnboundLocalError "err") [] /\
   app.index_newton f df tol x0 max_iter =
     Returned (app.ResultDict x0 None [])).
Proof.
  split; intros Hmax.
  - apply index_newton_loop_same. unfold range_len. lia.
  - unfold newton_raphson, app.index_newton.
    assert (Hn : range_len max_iter = 0%nat) by (unfold range_len; lia).
    rewrite Hn. split; reflexivity.
Qed.

End WebCopies.

Lemma index_newton_same_as_cli_witness :
  same_newton_run (newton_raphson parabola parabola' tol_1e6 50 1%float)
    (app.index_newton parabola parabola' tol_1e6 1%float 50).
Proof.
  apply (proj1 (index_newton_same_as_cli tol_1e6 50 parabola parabola'
                  1%float)).
  lia.
Defined.

(** ** [index]: what leaves the view and what the page shows *)

Section IndexPage.

Local Open Scope string_scope.

Variable py : python float.
Variable conv : conversions.
Variable str_key_error : string -> string.
Context {html : Type}.
Variable render : app.page -> result html.

Lemma tol_arg_Err req e :
  app.tol_arg conv req = Err e <->
  exists s, req_form req "tol" = Some s /\ s <> "" /\
            float_of_str conv s = Err e.
Proof.
  unfold app.tol_arg. destruct (req_form req "tol") as [s|].
  - destruct (String.eqb_spec s "") as [->|Hs].
    + split; [discriminate|]. intros (s & E & Hs & _). now injection E as <-.
    + split.
      * intros E. exists s. auto.
      * intros (s' & E & _ & Hf). now injection E as <-.
  - split; [discriminate|]. intros (s & E & _). discriminate.
Qed.

Lemma max_iter_arg_Err req e :
  app.max_iter_arg conv req = Err e <->
  exists s, req_form req "max_iter" = Some s /\ s <> "" /\
            int_of_str conv s = Err e.
Proof.
  unfold app.max_iter_arg. destruct (req_form req "max_iter") as [s|].
  - destruct (String.eqb_spec s "") as [->|Hs].
    + split; [discriminate|]. intros (s & E & Hs & _). now injection E as <-.
    + split.
      * intros E. exists s. auto.
      * intros (s' & E & _ & Hf). now injection E as <-.
  - split; [discriminate|]. intros (s & E & _). discriminate.
Qed.

(** X15: Only four things make an exception leave [index].  Two are the
    conversions made before the [try] on a POST request: [float] of a
    non-empty ['tol'] field and, once that succeeded, [int] of a non-empty
    ['max_iter'] field.  The third is the body of the [try] ending in
    what is no [Exception]: a [BaseException] of the evaluated expression,
    or a call that does not return.  Each of these three always leaves
    [index].  The fourth is [render_template] raising.  In every other case
    [index] returns what [render_template] makes of a page, and a page
    never has both a result and an error message. *)
Theorem index_exceptions req :
  let body tol max_iter :=
    app.index_try py conv req (req_form req "method")
      (req_form req "expr") tol max_iter in
  let before_try e :=
    (exists s, req_form req "tol" = Some s /\ s <> "" /\
               float_of_str conv s = Err e) \/
    ((exists tol, app.tol_arg conv req = Ok tol) /\
     exists s, req_form req "max_iter" = Some s /\ s <> "" /\
               int_of_str conv s = Err e) in
  let passes_try e :=
    is_Exception e = false /\
    exists tol max_iter,
      app.tol_arg conv req = Ok tol /\
      app.max_iter_arg conv req = Ok max_iter /\
      body tol max_iter = app.Failed (app.Exn e) in
  let page_ok pg := app.pg_result pg = None \/ app.pg_error pg = None in
  (forall e,
     req_method req = "POST" -> before_try e \/ passes_try e ->
     app.index py conv str_key_error render req = Err e) /\
  (forall e,
     app.index py conv str_key_error render req = Err e ->
     (req_method req = "POST" /\ (before_try e \/ passes_try e)) \/
     (exists pg, page_ok pg /\ render pg = Err e)) /\
  (forall resp,
     app.index py conv str_key_error render req = Ok resp ->
     exists pg, page_ok pg /\ render pg = Ok resp).
Proof.
  cbv zeta. unfold app.index.
  destruct (String.eqb_spec (req_method req) "POST") as [Hm|Hm].
  2:{ split; [now intros e Hp|].
      split; [intros e E|intros resp E]; [right|];
        exists (app.Page None None); auto. }
  destruct (app.tol_arg conv req) as [tol|e0] eqn:Et.
  2:{ split; [|split; [|discriminate]].
      - intros e _ [[E|((tol & E) & _)]|(_ & tol & mi & E & _)];
          [|discriminate..].
        apply tol_arg_Err in E. congruence.
      - intros e E. injection E as <-. left. split; auto. left. left.
        now apply tol_arg_Err. }
  destruct (app.max_iter_arg conv req) as [max_iter|e0] eqn:Em.
  2:{ split; [|split; [|discriminate]].
      - intros e _ [[E|(_ & E)]|(_ & tol' & mi & _ & E & _)];
          [| |discriminate].
        + apply tol_arg_Err in E. congruence.
        + apply max_iter_arg_Err in E. congruence.
      - intros e E. injection E as <-. left. split; auto. left. right.
        split; [eauto|]. now apply max_iter_arg_Err. }
  destruct (app.index_try py conv req _ _ tol max_iter)
    as [r|[e0| |]] eqn:Eb; cbn zeta.
  - split; [|split].
    + intros e _ [[E|(_ & E)]|(_ & tol' & mi & Et' & Em' & E)].
      * apply tol_arg_Err in E. congruence.
      * apply max_iter_arg_Err in E. congruence.
      * injection Et' as <-. injection Em' as <-. congruence.
    + intros e E. right. exists (app.Page r None). auto.
    + intros resp E. exists (app.Page r None). auto.
  - destruct (is_Exception e0) eqn:Ex; (split; [|split]).
    + intros e _ [[E|(_ & E)]|(Hx & tol' & mi & Et' & Em' & E)].
      * apply tol_arg_Err in E. congruence.
      * apply max_iter_arg_Err in E. congruence.
      * injection Et' as <-. injection Em' as <-.
        rewrite Eb in E. injection E as <-. congruence.
    + intros e E. right. eexists. split; [|exact E]. auto.
    + intros resp E. eexists. split; [|exact E]. auto.
    + intros e _ [[E|(_ & E)]|(Hx & tol' & mi & Et' & Em' & E)].
      * apply tol_arg_Err in E. congruence.
      * apply max_iter_arg_Err in E. congruence.
      * injection Et' as <-. injection Em' as <-.
        rewrite Eb in E. now injection E as <-.
    + intros e E. injection E as <-. left. split; auto. right.
      split; [exact Ex|]. exists tol, max_iter. auto.
    + discriminate.
  - split; [|split].
    + intros e _ [[E|(_ & E)]|(_ & tol' & mi & Et' & Em' & E)].
      * apply tol_arg_Err in E. congruence.
      * apply max_iter_arg_Err in E. congruence.
      * injection Et' as <-. injection Em' as <-. congruence.
    + intros e E. right. eexists. split; [|exact E]. auto.
    + intros resp E. eexists. split; [|exact E]. auto.
  - split; [|split].
    + intros e _ [[E|(_ & E)]|(_ & tol' & mi & Et' & Em' & E)].
      * apply tol_arg_Err in E. congruence.
      * apply max_iter_arg_Err in E. congruence.
      * injection Et' as <-. injection Em' as <-. congruence.
    + intros e E. right. eexists. split; [|exact E]. auto.
    + intros resp E. eexists. split; [|exact E]. auto.
Qed.

(** X16: A POST request whose ['method'] field is none of ['bisection'],
    ['secant'] and ['newton'] (or is missing) runs no solver: when the
    ['expr'] field is there, the page has neither a result nor an error;
    when it is missing, the page shows the [AttributeError] of
    [None.strip()]. *)
Theorem index_unsupported_method req tol max_iter :
  req_method req = "POST" ->
  app.tol_arg conv req = Ok tol ->
  app.max_iter_arg conv req = Ok max_iter ->
  app.equals (req_form req "method") "bisection" = false ->
  app.equals (req_form req "method") "secant" = false ->
  app.equals (req_form req "method") "newton" = false ->
  app.index py conv str_key_error render req =
    render (match req_form req "expr" with
            | Some _ => app.Page None None
            | None => app.Page None (Some app.none_strip_msg)
            end).
Proof.
  intros Hm Ht Hi Hb Hs Hn. unfold app.index.
  rewrite Hm, Ht, Hi. simpl. unfold app.index_try.
  destruct (req_form req "expr") as [expr|]; simpl; [|reflexivity].
  now rewrite Hb, Hs, Hn.
Qed.

(** What [index] makes of the end of a solver of [app.py]. *)
Lemma index_shows {row : Type}
    (mk : float -> float -> list row -> app.index_result)
    (o : outcome (solved float row) row)
    (o' : outcome (float * float * list row) row) msg msg' :
  same_run (ValueError msg) (ValueError msg') o o' \/
  same_run (ZeroDivisionError msg) (ZeroDivisionError msg') o o' ->
  shows render mk o
    match app.and_then (app.of_outcome o')
            (fun r => let '(root, ferr, logs) := r in
                      app.Fine (Some (mk root ferr logs))) with
    | app.Fine result => render (app.Page result None)
    | app.Failed e =>
        match e with
        | app.Exn e' =>
            if is_Exception e'
            then render (app.Page None (Some (app.str_raised py str_key_error e)))
            else Err e'
        | _ => render (app.Page None (Some (app.str_raised py str_key_error e)))
        end
    end.
Proof.
  unfold shows, same_run.
  destruct o as [[[[root err] iters] logs]|e logs];
    destruct o' as [[[root' err'] logs']|e' logs']; simpl;
    intros [Hs|Hs]; try contradiction.
  - now destruct Hs as (-> & -> & ->).
  - now destruct Hs as (-> & -> & ->).
  - destruct Hs as (_ & [<-|(-> & ->)]); simpl.
    + destruct (is_Exception e); eauto.
    + eauto.
  - destruct Hs as (_ & [<-|(-> & ->)]); simpl.
    + destruct (is_Exception e); eauto.
    + eauto.
Qed.

(** X17: A POST request for ['bisection'] or ['secant'] whose fields are all
    there and convert shows what the solver of the same name in
    [ZOF_CLI.py] computes for the function of the expression, the tolerance
    and the iteration limit: its root, error and log when it returns, an
    error message and no result when it raises an [Exception].  What is no
    [Exception] (a [BaseException] of the expression) leaves [index]. *)
Theorem index_shows_cli_result req expr tol max_iter :
  req_method req = "POST" ->
  req_form req "expr" = Some expr ->
  app.tol_arg conv req = Ok tol ->
  app.max_iter_arg conv req = Ok max_iter ->
  let f := app.make_function_f py (strip expr) in
  (forall sa sb a b,
     req_form req "method" = Some "bisection" ->
     req_form req "a" = Some sa -> float_of_str conv sa = Ok a ->
     req_form req "b" = Some sb -> float_of_str conv sb = Ok b ->
     shows render app.BisectionResult (bisection f tol max_iter a b)
       (app.index py conv str_key_error render req)) /\
  (forall s0 s1 x0 x1,
     req_form req "method" = Some "secant" ->
     req_form req "x0" = Some s0 -> float_of_str conv s0 = Ok x0 ->
     req_form req "x1" = Some s1 -> float_of_str conv s1 = Ok x1 ->
     shows render app.SecantResult (secant f tol max_iter x0 x1)
       (app.index py conv str_key_error render req)).
Proof.
  intros Hm He Ht Hi f. split.
  - intros sa sb a b Hmeth Ha Hfa Hb Hfb.
    unfold app.index. rewrite Hm, Ht, Hi. cbn [String.eqb].
    unfold app.index_try. rewrite He, Hmeth.
    cbn [app.of_result app.make_function app.and_then app.equals String.eqb
         Ascii.eqb Bool.eqb].
    unfold app.float_item, app.form_item. rewrite Ha, Hb.
    cbn [app.and_then]. rewrite Hfa, Hfb. cbn [app.of_result app.and_then].
    fold f.
    apply (index_shows app.BisectionResult _ _ bisection_msg
             app.bisection_msg).
    left. unfold bisection, app.bisection.
    destruct (f a) as [fa|e]; cbn [bind]; [|simpl; auto].
    destruct (f b) as [fb|e]; cbn [bind]; [|simpl; auto].
    destruct (zero <? fa * fb)%py; [simpl; auto|].
    apply bisection_loop_same.
  - intros s0 s1 x0 x1 Hmeth H0 Hf0 H1 Hf1.
    unfold app.index. rewrite Hm, Ht, Hi. cbn [String.eqb].
    unfold app.index_try. rewrite He, Hmeth.
    cbn [app.of_result app.make_function app.and_then app.equals String.eqb
         Ascii.eqb Bool.eqb].
    unfold app.float_item, app.form_item. rewrite H0, H1.
    cbn [app.and_then]. rewrite Hf0, Hf1. cbn [app.of_result app.and_then].
    fold f.
    apply (index_shows app.SecantResult _ _ secant_msg
             app.secant_msg).
    right. apply secant_loop_same.
Qed.

End IndexPage.

(** ** The console: [read_float] *)

Section ReadFloat.

Local Open Scope string_scope.

Variable conv : conversions.

Lemma read_float_loop_rejected {D : Type} prompt (default : option D) s rest
    out msg :
  float_of_str conv s = Err (ValueError msg) ->
  (s = "" -> default = None) ->
  read_float_loop conv prompt default (s :: rest) out =
    read_float_loop conv prompt default rest
      (out ++ [prompt; (invalid_number ++ nl)%string])%list.
Proof.
  intros Hs Hd. cbn [read_float_loop].
  assert (E : (if String.eqb s "" then default else None) = None).
  { destruct (String.eqb_spec s ""); auto. }
  rewrite E, Hs, <- app_assoc. reflexivity.
Qed.

(** X18: [read_float] goes through the lines it cannot use, each one a line that
    [float] rejects with a [ValueError] (the empty line counts only when
    there is no default), writing the prompt and [Enter a valid number] for
    each.  It then returns the float of the first line that converts, or the
    default at an empty line, and leaves the lines after it unread; when the
    lines run out it raises [EOFError] after a last prompt. *)
Theorem read_float_skips_rejected_lines {D : Type} prompt
    (default : option D) rejected rest out :
  Forall (fun s =>
            (exists msg, float_of_str conv s = Err (ValueError msg)) /\
            (s = "" -> default = None)) rejected ->
  let out' :=
    (out ++ flat_map (fun _ => [prompt; (invalid_number ++ nl)%string]) rejected
         ++ [prompt])%list in
  (forall line x,
     float_of_str conv line = Ok x -> (line = "" -> default = None) ->
     read_float conv prompt default (Console (rejected ++ line :: rest) out) =
       (Done (inr x), Console rest out')) /\
  (forall d,
     default = Some d ->
     read_float conv prompt default (Console (rejected ++ "" :: rest) out) =
       (Done (inl d), Console rest out')) /\
  read_float conv prompt default (Console rejected out) =
    (Threw EOFError, Console [] out').
Proof.
  intros Hrej. revert out.
  induction Hrej as [|s rejected ((msg & Hs) & Hd) Hrej IH]; intros out out'.
  - subst out'. unfold read_float. cbn [stdin stdout app flat_map].
    split; [|split].
    + intros line x Hx Hl. cbn [read_float_loop].
      assert (E : (if String.eqb line "" then default else None) = None).
      { destruct (String.eqb_spec line ""); auto. }
      now rewrite E, Hx.
    + intros d ->. reflexivity.
    + reflexivity.
  - assert (Hout : out' =
        ((out ++ [prompt; (invalid_number ++ nl)%string])
           ++ flat_map (fun _ => [prompt; (invalid_number ++ nl)%string]) rejected
           ++ [prompt])%list).
    { subst out'. cbn [flat_map]. now rewrite <- !app_assoc. }
    rewrite Hout.
    destruct (IH (out ++ [prompt; (invalid_number ++ nl)%string])%list)
      as (IH1 & IH2 & IH3).
    unfold read_float in *. cbn [stdin stdout] in *.
    split; [|split].
    + intros line x Hx Hl. rewrite <- app_comm_cons.
      rewrite (read_float_loop_rejected _ _ _ _ _ _ Hs Hd). now apply IH1.
    + intros d Hdef. rewrite <- app_comm_cons.
      rewrite (read_float_loop_rejected _ _ _ _ _ _ Hs Hd). now apply IH2.
    + rewrite (read_float_loop_rejected _ _ _ _ _ _ Hs Hd). apply IH3.
Qed.

Lemma read_float_loop_ends {D : Type} prompt (default : option D) lines :
  forall out r c',
    read_float_loop conv prompt default lines out = (r, c') ->
    (List.length (stdin c') <= List.length lines)%nat /\
    (forall v, r = Done v ->
       (List.length (stdin c') < List.length lines)%nat) /\
    (float_raises_ValueError conv ->
     forall e, r = Threw e -> e = EOFError /\ stdin c' = []).
Proof.
  induction lines as [|s rest IH]; intros out r c'; cbn [read_float_loop].
  - intros E. injection E as <- <-. cbn. split; [lia|].
    split; [discriminate|]. intros _ e E. now injection E as <-.
  - destruct (if String.eqb s "" then default else None) as [d|].
    { intros E. injection E as <- <-. cbn. split; [lia|].
      split; [intros; lia|discriminate]. }
    destruct (float_of_str conv s) as [x|e0] eqn:Ef.
    { intros E. injection E as <- <-. cbn. split; [lia|].
      split; [intros; lia|discriminate]. }
    destruct e0 as [msg|?|?|?|? ?|? ?|];
      try (intros E; injection E as <- <-; cbn; split; [lia|];
           split; [discriminate|];
           intros Hc e _; destruct (Hc _ _ Ef) as (m & Hm); discriminate).
    intros E. destruct (IH _ _ _ E) as (Hle & Hlt & Hex). cbn.
    split; [lia|]. split; [|exact Hex].
    intros v Hv. specialize (Hlt v Hv). lia.
Qed.

End ReadFloat.

Section ReadFloatExample.

Local Open Scope string_scope.

Lemma read_float_skips_witness :
  read_float decimal_only "x0: " (@None float)
    (Console ["abc"; ""; "2"; "7"] []) =
    (Done (inr 2%float),
     Console ["7"]
       ["x0: "; invalid_number ++ nl; "x0: "; invalid_number ++ nl; "x0: "]).
Proof.
  refine (proj1 (read_float_skips_rejected_lines decimal_only "x0: " None
                   ["abc"; ""] ["7"] [] _) "2" 2%float _ _).
  - repeat constructor; try (eexists; vm_compute; reflexivity); discriminate.
  - vm_compute. reflexivity.
  - discriminate.
Defined.

End ReadFloatExample.

(** ** The console: a session of [main] *)

Section Reads.

Local Open Scope string_scope.

Lemma reads_ret {A : Type} (a : A) : reads (ret a).
Proof. intros c r c' E. injection E as <- <-. lia. Qed.

Lemma reads_throw {A : Type} e : reads (throw (A := A) e).
Proof. intros c r c' E. injection E as <- <-. lia. Qed.

Lemma reads_print s : reads (print s).
Proof. intros c r c' E. injection E as <- <-. simpl. lia. Qed.

Lemma reads_input prompt : reads (input prompt).
Proof.
  intros c r c'. unfold input.
  destruct (stdin c) as [|line rest]; intros E; injection E as <- <-;
    simpl; lia.
Qed.

Lemma reads_seq {A B : Type} (m : io A) (k : A -> io B) :
  reads m -> (forall a, reads (k a)) -> reads (seq m k).
Proof.
  intros Hm Hk c r c'. unfold seq.
  destruct (m c) as [[a|e] c1] eqn:E1.
  - intros E2. apply Hm in E1. apply Hk in E2. lia.
  - intros E2. injection E2 as <- <-. now apply Hm in E1.
Qed.

Lemma reads_try_except {A : Type} (body : io A) handler :
  reads body -> (forall e, reads (handler e)) -> reads (try_except body handler).
Proof.
  intros Hb Hh c r c'. unfold try_except.
  destruct (body c) as [[a|e] c1] eqn:E1.
  - intros E2. injection E2 as <- <-. now apply Hb in E1.
  - apply Hb in E1. destruct (caught e).
    + intros E2. apply Hh in E2. lia.
    + intros E2. now injection E2 as <- <-.
Qed.

Lemma reads_of_result {A : Type} (r : result A) : reads (of_result r).
Proof. destruct r; [apply reads_ret|apply reads_throw]. Qed.

Lemma reads_of_outcome {A row : Type} (o : outcome A row) :
  reads (of_outcome o).
Proof. destruct o; [apply reads_ret|apply reads_throw]. Qed.

Lemma reads_read_float conv {D : Type} prompt (default : option D) :
  reads (read_float conv prompt default).
Proof.
  intros c r c' E. unfold read_float in E.
  now destruct (read_float_loop_ends conv _ _ _ _ _ _ E).
Qed.

Lemma reads_print_rows {row : Type} (repr : row -> string) logs :
  reads (print_rows repr logs).
Proof.
  induction logs as [|r logs IH]; simpl.
  - apply reads_ret.
  - apply reads_seq; [apply reads_print|intros _; exact IH].
Qed.

End Reads.

Create HintDb reads.

#[local] Hint Resolve reads_ret reads_throw reads_print reads_input
  reads_of_result reads_of_outcome reads_read_float reads_print_rows : reads.

Ltac reads_steps :=
  repeat first
    [ apply reads_seq; [|intros ?]
    | apply reads_try_except; [|intros ?]
    | solve [auto with reads]
    | match goal with
      | |- reads (if ?b then _ else _) => destruct b
      | |- reads (let '(_, _) := ?p in _) => destruct p
      | |- reads (match ?p with inl _ => _ | inr _ => _ end) => destruct p
      end ].

(** ** What a solver call can end in *)

Ltac raises_loop IH :=
  repeat first
    [ exact I
    | apply IH
    | left; reflexivity
    | match goal with
      | Hf : lets_through _ ?f |- raises_in _ (bind (?f ?x) _ _) =>
          let E := fresh "E" in
          destruct (f x) eqn:E; cbn [bind]; [|exact (Hf _ _ E)]
      | |- raises_in _ (bind (pydiv _ _) _ _) => unfold pydiv
      | |- raises_in _ (bind (if ?c then _ else _) _ _) =>
          destruct c; cbn [bind]
      | |- raises_in _ (if ?c then _ else _) => destruct c
      | |- raises_in _ (match ?x with _ => _ end) => destruct x
      end ].

Section Raises.

Context {num : Type} `{Arith num}.
Local Open Scope py_scope.

Variable P : exn -> Prop.
Variable tol : num.
Variable max_iter : Z.

Lemma bisection_raises f a b :
  lets_through P f -> raises_in P (bisection f tol max_iter a b).
Proof.
  intros Hf.
  assert (Hloop : forall n i a b fa fb logs,
            raises_in P (bisection_loop f tol max_iter n i a b fa fb logs)).
  { induction n as [|n IH]; intros; cbn [bisection_loop]; raises_loop IH. }
  unfold bisection. raises_loop Hloop.
Qed.

Lemma regula_falsi_raises f a b :
  lets_through P f -> raises_in P (regula_falsi f tol max_iter a b).
Proof.
  intros Hf.
  assert (Hloop : forall n i a b fa fb c fc logs,
            raises_in P
              (regula_falsi_loop f tol max_iter n i a b fa fb c fc logs)).
  { induction n as [|n IH]; intros; cbn [regula_falsi_loop];
      raises_loop IH. }
  unfold regula_falsi. raises_loop Hloop.
Qed.

Lemma secant_raises f x0 x1 :
  lets_through P f -> raises_in P (secant f tol max_iter x0 x1).
Proof.
  intros Hf. unfold secant. generalize 1%Z, (@nil (secant_row (num := num))).
  revert x0 x1.
  induction (range_len max_iter) as [|n IH]; intros; cbn [secant_loop];
    raises_loop IH.
Qed.

Lemma newton_raphson_raises f df x0 :
  lets_through P f -> lets_through P df ->
  raises_in P (newton_raphson f df tol max_iter x0).
Proof.
  intros Hf Hdf. unfold newton_raphson.
  generalize 1%Z, (@None num), (@nil (newton_row (num := num))). revert x0.
  induction (range_len max_iter) as [|n IH]; intros;
    cbn [newton_raphson_loop]; raises_loop IH.
Qed.

Lemma fixed_point_raises g x0 :
  lets_through P g -> raises_in P (fixed_point g tol max_iter x0).
Proof.
  intros Hg. unfold fixed_point.
  generalize 1%Z, (@None num), (@nil (fixed_row (num := num))). revert x0.
  induction (range_len max_iter) as [|n IH]; intros;
    cbn [fixed_point_loop]; raises_loop IH.
Qed.

Lemma modified_secant_raises f delta x0 :
  lets_through P f -> raises_in P (modified_secant f delta tol max_iter x0).
Proof.
  intros Hf. unfold modified_secant.
  generalize 1%Z, (@None num), (@nil (modsec_row (num := num))). revert x0.
  induction (range_len max_iter) as [|n IH]; intros;
    cbn [modified_secant_loop]; raises_loop IH.
Qed.

End Raises.

Section Throws.

Local Open Scope string_scope.

Variable P : cli_exn -> Prop.

Lemma throws_ret {A : Type} (a : A) : throws P (ret a).
Proof. intros c e c' E. discriminate. Qed.

Lemma throws_print s : throws P (print s).
Proof. intros c e c' E. discriminate. Qed.

Lemma throws_input prompt : P EOFError -> throws P (input prompt).
Proof.
  intros HP c e c'. unfold input.
  destruct (stdin c); intros E; [now injection E as <- _|discriminate].
Qed.

Lemma throws_seq_of {A B : Type} (Q : A -> Prop) (m : io A) (k : A -> io B) :
  throws P m ->
  (forall c a c', m c = (Done a, c') -> Q a) ->
  (forall a, Q a -> throws P (k a)) ->
  throws P (seq m k).
Proof.
  intros Hm HQ Hk c e c'. unfold seq.
  destruct (m c) as [[a|e0] c1] eqn:E1.
  - intros E2. exact (Hk a (HQ _ _ _ E1) _ _ _ E2).
  - intros E2. injection E2 as <- <-. exact (Hm _ _ _ E1).
Qed.

Lemma throws_seq {A B : Type} (m : io A) (k : A -> io B) :
  throws P m -> (forall a, throws P (k a)) -> throws P (seq m k).
Proof.
  intros Hm Hk. apply (throws_seq_of (fun _ => True)); auto.
Qed.

Lemma throws_print_rows {row : Type} (repr : row -> string) logs :
  throws P (print_rows repr logs).
Proof.
  induction logs as [|r logs IH]; simpl.
  - apply throws_ret.
  - apply throws_seq; [apply throws_print|intros _; exact IH].
Qed.

Lemma throws_of_outcome {A row : Type} (Q : exn -> Prop) (o : outcome A row) :
  raises_in Q o ->
  (forall e, is_Exception e = true \/ Q e -> P (Exn e)) ->
  throws P (of_outcome o).
Proof.
  intros Ho HP c e c'. destruct o as [v|e0 logs]; simpl; [discriminate|].
  intros E. injection E as <- _. now apply HP.
Qed.

Lemma throws_read_float conv {D : Type} prompt (default : option D) :
  float_raises_ValueError conv -> P EOFError ->
  throws P (read_float conv prompt default).
Proof.
  intros Hconv HP c e c' E. unfold read_float in E.
  destruct (read_float_loop_ends conv _ _ _ _ _ _ E) as (_ & _ & Hx).
  now destruct (Hx Hconv e eq_refl) as (-> & _).
Qed.

End Throws.

Section Session.

Local Open Scope string_scope.

Variable py : python float.
Variable conv : conversions.

Lemma reads_run_method choice f tol max_iter :
  reads (run_method py conv choice f tol max_iter).
Proof.
  unfold run_method, report, read_number, read_number_or. reads_steps.
Qed.

Lemma make_function_f_lets_through expr :
  lets_through (evaluation_ends_in py) (make_function_f py expr).
Proof.
  intros x e. unfold make_function_f. cbn zeta.
  change (match py_eval py expr (no_builtins py)
                  (dict_set (MATH_NAMES py) "x" (py_of_float py x)) with
          | Ok v => py_float py v
          | Err e0 => Err e0
          end) with (float_eval py expr x).
  destruct (float_eval py expr x) as [y|e0] eqn:E; [discriminate|].
  destruct (is_Exception e0) eqn:Ex; intros E'; injection E' as <-.
  - now left.
  - right. now exists expr, x.
Qed.

Lemma df_approx_lets_through P f :
  lets_through P f -> lets_through P (df_approx f).
Proof.
  intros Hf x e. unfold df_approx. cbn zeta.
  destruct (f (x + f1e6)%float) as [fp|e0] eqn:Ep.
  2:{ intros E. injection E as <-. exact (Hf _ _ Ep). }
  destruct (f (x - f1e6)%float) as [fm|e0] eqn:Em.
  2:{ intros E. injection E as <-. exact (Hf _ _ Em). }
  unfold pydiv. destruct (_ =? _)%py; [|discriminate].
  intros E. injection E as <-. now left.
Qed.

Lemma leaves_method_EOFError : leaves_method py EOFError.
Proof. now left. Qed.

Lemma leaves_method_raised e :
  is_Exception e = true \/ evaluation_ends_in py e -> leaves_method py (Exn e).
Proof. intros [He|He]; [now left|right; eauto]. Qed.

(** What the body of the [try] of [main] can be left by. *)
Lemma throws_run_method choice f tol max_iter :
  float_raises_ValueError conv ->
  lets_through (evaluation_ends_in py) f ->
  throws (leaves_method py) (run_method py conv choice f tol max_iter).
Proof.
  intros Hconv Hf.
  pose proof leaves_method_EOFError as Heof.
  pose proof leaves_method_raised as Hraised.
  assert (Hnum : forall prompt,
            throws (leaves_method py) (read_number conv prompt)).
  { intros prompt. apply throws_seq;
      [now apply throws_read_float|intros r; apply throws_ret]. }
  assert (Hnum' : forall prompt d,
            throws (leaves_method py) (read_number_or conv prompt d)).
  { intros prompt d. apply throws_seq;
      [now apply throws_read_float|intros r; apply throws_ret]. }
  assert (Hrep : forall row header (repr : row -> string) r,
            throws (leaves_method py) (report header repr r)).
  { intros row header repr [[[root ferr] iters] logs]. unfold report.
    apply throws_seq; [apply throws_print|intros _].
    apply throws_seq; [apply throws_print_rows|intros _; apply throws_ret]. }
  unfold run_method. apply throws_seq.
  2:{ intros [[root ferr] iters].
      repeat (apply throws_seq; [apply throws_print|intros _]).
      apply throws_print. }
  destruct (String.eqb choice "1").
  { apply throws_seq; [apply Hnum|intros a].
    apply throws_seq; [apply Hnum|intros b].
    apply throws_seq; [|intros r; apply Hrep].
    eapply throws_of_outcome; [|exact Hraised].
    now apply bisection_raises. }
  destruct (String.eqb choice "2").
  { apply throws_seq; [apply Hnum|intros a].
    apply throws_seq; [apply Hnum|intros b].
    apply throws_seq; [|intros r; apply Hrep].
    eapply throws_of_outcome; [|exact Hraised].
    now apply regula_falsi_raises. }
  destruct (String.eqb choice "3").
  { apply throws_seq; [apply Hnum|intros x0].
    apply throws_seq; [apply Hnum|intros x1].
    apply throws_seq; [|intros r; apply Hrep].
    eapply throws_of_outcome; [|exact Hraised].
    now apply secant_raises. }
  destruct (String.eqb choice "4").
  { apply throws_seq; [now apply throws_input|intros df_expr].
    apply throws_seq; [apply Hnum|intros x0].
    apply (throws_seq_of (leaves_method py)
             (lets_through (evaluation_ends_in py))).
    - destruct (String.eqb _ _); [apply throws_ret|].
      cbn [make_function of_result]. apply throws_ret.
    - intros c df c'. destruct (String.eqb _ _).
      + intros E. injection E as <- _. now apply df_approx_lets_through.
      + cbn [make_function of_result ret]. intros E. injection E as <- _.
        apply make_function_f_lets_through.
    - intros df Hdf.
      apply throws_seq; [|intros r; apply Hrep].
      eapply throws_of_outcome; [|exact Hraised].
      now apply newton_raphson_raises. }
  destruct (String.eqb choice "5").
  { apply throws_seq; [now apply throws_input|intros g_expr].
    cbn [make_function of_result].
    apply (throws_seq_of (leaves_method py)
             (lets_through (evaluation_ends_in py))).
    - apply throws_ret.
    - intros c g c' E. injection E as <- _.
      apply make_function_f_lets_through.
    - intros g Hg.
      apply throws_seq; [apply Hnum|intros x0].
      apply throws_seq; [|intros r; apply Hrep].
      eapply throws_of_outcome; [|exact Hraised].
      now apply fixed_point_raises. }
  apply throws_seq; [apply Hnum|intros x0].
  apply throws_seq; [apply Hnum'|intros delta].
  apply throws_seq; [|intros r; apply Hrep].
  eapply throws_of_outcome; [|exact Hraised].
  now apply modified_secant_raises.
Qed.

Lemma print_menu_run c :
  exists out, print_menu c = (Done tt, Console (stdin c) out).
Proof. eexists. reflexivity. Qed.

Lemma last_snoc (out : list string) (s d : string) :
  last (out ++ [s])%list d = s.
Proof. apply last_last. Qed.

Lemma read_float_ends {D : Type} prompt (default : option D) c r c' :
  read_float conv prompt default c = (r, c') ->
  (List.length (stdin c') <= List.length (stdin c))%nat /\
  (float_raises_ValueError conv ->
   forall e, r = Threw e -> e = EOFError /\ stdin c' = []).
Proof.
  unfold read_float. intros E.
  destruct (read_float_loop_ends conv _ _ _ _ _ _ E) as (H1 & _ & H3). auto.
Qed.

Lemma read_number_or_ends prompt default c r c' :
  read_number_or conv prompt default c = (r, c') ->
  (List.length (stdin c') <= List.length (stdin c))%nat /\
  (float_raises_ValueError conv ->
   forall e, r = Threw e -> e = EOFError /\ stdin c' = []).
Proof.
  unfold read_number_or, seq.
  destruct (read_float conv prompt (Some default) c) as [[v|e] c1] eqn:E1;
    intros E; injection E as <- <-;
    destruct (read_float_ends _ _ _ _ _ E1) as (H1 & H2).
  - split; [exact H1|discriminate].
  - split; [exact H1|]. intros Hc e0 E0. injection E0 as <-. now apply H2.
Qed.

Lemma int_of_float_ends x c r c' :
  int_of_float x c = (r, c') ->
  c' = c /\
  forall e, r = Threw e ->
    e = OverflowError int_inf_msg \/ e = Exn (ValueError int_nan_msg).
Proof.
  unfold int_of_float.
  destruct (Prim2SF x) as [s|s| |s m e]; intros E; injection E as <- <-;
    split; auto; try discriminate; intros e0 E0; injection E0 as <-; auto.
Qed.

(** What the [try] statement of [main] leaves: the turn goes on, or an
    evaluation ended in what [except Exception] does not catch. *)
Lemma try_run_method_ends choice expr tol max_iter c r c' :
  try_except (run_method py conv choice (make_function_f py expr) tol max_iter)
    (fun e => print ("Error during method: " ++ str_cli_exn py e)) c =
    (r, c') ->
  (List.length (stdin c') <= List.length (stdin c))%nat /\
  (r = Done tt \/
   exists e, r = Threw (Exn e) /\ is_Exception e = false /\
             (float_raises_ValueError conv -> evaluation_ends_in py e)).
Proof.
  intros E. split.
  { revert E. apply reads_try_except.
    - apply reads_run_method.
    - intros e. apply reads_print. }
  unfold try_except in E.
  destruct (run_method py conv choice _ tol max_iter c) as [[[]|e] c1] eqn:Eb.
  - injection E as <- _. now left.
  - destruct (caught e) eqn:Ec.
    + injection E as <- _. now left.
    + injection E as <- _. right.
      destruct e as [e| |msg]; try discriminate. cbn in Ec.
      exists e. repeat split; auto. intros Hconv.
      pose proof (throws_run_method choice _ tol max_iter Hconv
                    (make_function_f_lets_through expr) _ _ _ Eb) as Hl.
      destruct Hl as [Hl|(e' & He' & Hev)].
      * cbn in Hl. congruence.
      * now injection He' as ->.
Qed.

(** One turn of the loop of [main]. *)
Lemma main_body_ends c r c' :
  main_body py conv c = (r, c') ->
  match r with
  | Done Break =>
      last (stdout c') "" = "Goodbye" ++ nl /\
      (List.length (stdin c') < List.length (stdin c))%nat
  | Done Next => (List.length (stdin c') < List.length (stdin c))%nat
  | Threw e =>
      float_raises_ValueError conv ->
      (e = EOFError /\ stdin c' = []) \/
      e = OverflowError int_inf_msg \/
      e = Exn (ValueError int_nan_msg) \/
      exists e', e = Exn e' /\ is_Exception e' = false /\
                 evaluation_ends_in py e'
  end.
Proof.
  unfold main_body.
  unfold seq at 1. destruct (print_menu_run c) as (out0 & ->).
  unfold seq at 1. unfold input at 1. cbn [stdin stdout].
  destruct (stdin c) as [|line rest] eqn:Ein.
  { intros E. injection E as <- <-. auto. }
  destruct (strip line =? "0").
  { intros E. injection E as <- <-. cbn [stdin stdout].
    rewrite last_snoc. split; [reflexivity|simpl; lia]. }
  destruct (negb (valid_choice (strip line))).
  { intros E. injection E as <- <-. simpl. lia. }
  unfold seq at 1. unfold input at 1. cbn [stdin stdout].
  destruct rest as [|expr rest].
  { intros E. injection E as <- <-. auto. }
  unfold seq at 1. cbn [make_function of_result ret].
  unfold seq at 1.
  match goal with
  | |- context [read_number_or conv ?p ?d ?c0] =>
      destruct (read_number_or conv p d c0) as [[tol|e] c1] eqn:Etol;
      destruct (read_number_or_ends _ _ _ _ _ Etol) as (Hl1 & Hx1)
  end; cbn [stdin] in Hl1.
  2:{ intros E. injection E as <- <-. intros Hconv. left. now apply Hx1. }
  unfold seq at 1.
  destruct (read_float conv "Max iterations [default 50]: " (Some 50%Z) c1)
    as [[m|e] c2] eqn:Em;
    destruct (read_float_ends _ _ _ _ _ Em) as (Hl2 & Hx2).
  2:{ intros E. injection E as <- <-. intros Hconv. left. now apply Hx2. }
  unfold seq at 1.
  assert (Hint : forall r3 c3,
            match m with inl n => ret n | inr x => int_of_float x end c2 =
              (r3, c3) ->
            c3 = c2 /\
            forall e, r3 = Threw e ->
              e = OverflowError int_inf_msg \/
              e = Exn (ValueError int_nan_msg)).
  { intros r3 c3. destruct m as [n|x].
    - intros E. injection E as <- <-. split; auto. discriminate.
    - apply int_of_float_ends. }
  destruct (match m with inl n => ret n | inr x => int_of_float x end c2)
    as [[max_iter|e] c3] eqn:Ei;
    destruct (Hint _ _ eq_refl) as (-> & Hx3).
  2:{ intros E. injection E as <- <-. intros _. right.
      destruct (Hx3 e eq_refl); auto. }
  unfold seq at 1.
  match goal with
  | |- context [try_except ?b ?h c2] =>
      destruct (try_except b h c2) as [[[]|e] c4] eqn:Etry;
      destruct (try_run_method_ends _ _ _ _ _ _ _ Etry)
        as (Hl4 & [Hd|(e' & Hd & Hx & Hev)])
  end; try discriminate.
  - intros E. injection E as <- <-. simpl. lia.
  - intros E. injection E as <- <-. intros Hconv. injection Hd as ->.
    do 3 right. exists e'. auto.
Qed.

Lemma main_loop_ends fuel :
  forall c,
    (List.length (stdin c) < fuel)%nat ->
    exists r c',
      main_loop py conv fuel c = Some (r, c') /\
      (float_raises_ValueError conv -> session_end r c' \/ session_cut py r).
Proof.
  induction fuel as [|fuel IH]; intros c Hlen; [lia|].
  cbn [main_loop].
  destruct (main_body py conv c) as [[[]|e] c1] eqn:Eb;
    pose proof (main_body_ends _ _ _ Eb) as Hend; cbn in Hend.
  - destruct Hend as (Hlast & _). exists (Done tt), c1.
    split; [reflexivity|]. intros _. left. left. auto.
  - apply IH. lia.
  - exists (Threw e), c1. split; [reflexivity|]. intros Hconv.
    destruct (Hend Hconv) as [(-> & Hs)|[->|[->|(e' & -> & Hx & Hev)]]];
      unfold session_end, session_cut; eauto 7.
Qed.

End Session.

(** X19: how a session ends.  Whatever lines standard input holds, the
    menu loop of [main] comes to an end.  When [float] raises nothing but
    [ValueError], it does so in one of these ways: [main] returns after
    [Goodbye], or it is left by the [EOFError] of a prompt that found no
    line, or by the [OverflowError] or [ValueError] of [int] on an infinite
    or not-a-number answer to [Max iterations], or it is cut short by an
    evaluation of an expression that raised what is no [Exception] or did
    not return.  No [Exception] of a solver or of the expression ends the
    session: when every evaluation gives a float or raises an
    [Exception], only the first three ways are left. *)
Theorem main_session_ends (py : python float) (conv : conversions)
    (c : console) :
  exists r c',
    main py conv c = Some (r, c') /\
    (float_raises_ValueError conv -> session_end r c' \/ session_cut py r) /\
    (float_raises_ValueError conv -> evaluations_catchable py ->
     session_end r c').
Proof.
  destruct (main_loop_ends py conv
              (S (List.length (stdin (snd (print banner c)))))
              (snd (print banner c))) as (r & c' & Hmain & Hend);
    [lia|].
  exists r, c'. split; [exact Hmain|]. split; [exact Hend|].
  intros Hconv Hpy. destruct (Hend Hconv) as [Hs|(e & _ & Hx & expr & x & He)].
  - exact Hs.
  - apply Hpy in He. congruence.
Qed.

(** ** The console: one turn of [main] *)

Section Turn.

Local Open Scope string_scope.

Variable py : python float.
Variable conv : conversions.

Lemma read_float_line {D : Type} prompt (default : option D) line rest out x :
  float_of_str conv line = Ok x ->
  (line = "" -> default = None) ->
  read_float conv prompt default (Console (line :: rest) out) =
    (Done (inr x), Console rest (out ++ [prompt])%list).
Proof.
  intros Hx Hl. unfold read_float. cbn [stdin stdout read_float_loop].
  assert (E : (if String.eqb line "" then default else None) = None).
  { destruct (String.eqb_spec line ""); auto. }
  now rewrite E, Hx.
Qed.

Lemma read_number_line prompt line rest out x :
  float_of_str conv line = Ok x ->
  read_number conv prompt (Console (line :: rest) out) =
    (Done x, Console rest (out ++ [prompt])%list).
Proof.
  intros Hx. unfold read_number, seq.
  now rewrite (read_float_line _ _ _ _ _ _ Hx (fun _ => eq_refl)).
Qed.

Lemma read_tolerance prompt line rest out tol :
  tolerance_answer conv line tol ->
  read_number_or conv prompt f1e6 (Console (line :: rest) out) =
    (Done tol, Console rest (out ++ [prompt])%list).
Proof.
  intros [(-> & ->)|(Hl & Hx)]; unfold read_number_or, seq.
  - reflexivity.
  - now rewrite (read_float_line _ _ _ _ _ _ Hx (fun E => False_ind _ (Hl E))).
Qed.

Lemma read_max_iter prompt line rest out max_iter :
  max_iter_answer conv line max_iter ->
  seq (read_float conv prompt (Some 50%Z))
      (fun m => match m with inl n => ret n | inr x => int_of_float x end)
      (Console (line :: rest) out) =
    (Done max_iter, Console rest (out ++ [prompt])%list).
Proof.
  intros [(-> & ->)|(Hl & x & Hx & Hi)]; unfold seq.
  - reflexivity.
  - rewrite (read_float_line _ _ _ _ _ _ Hx (fun E => False_ind _ (Hl E))).
    apply Hi.
Qed.

Lemma print_rows_run {row : Type} (repr : row -> string) logs :
  forall c,
    print_rows repr logs c =
      (Done tt,
       Console (stdin c)
         (stdout c ++ map (fun r => (repr r ++ nl)%string) logs)%list).
Proof.
  induction logs as [|r logs IH]; intros c; cbn [print_rows map].
  - rewrite app_nil_r. now destruct c.
  - unfold seq, print at 1. rewrite IH. cbn [stdin stdout].
    now rewrite <- app_assoc.
Qed.

Lemma valid_choice_not_0 choice :
  valid_choice choice = true -> String.eqb choice "0" = false.
Proof.
  intros Hv. destruct (String.eqb_spec choice "0") as [->|];
    [discriminate|reflexivity].
Qed.

Lemma main_body_infinite_max_iter line expr t m rest out tol x s :
  valid_choice (strip line) = true ->
  tolerance_answer conv t tol ->
  m <> "" -> float_of_str conv m = Ok x -> Prim2SF x = S754_infinity s ->
  exists out',
    main_body py conv (Console (line :: expr :: t :: m :: rest) out) =
      (Threw (OverflowError int_inf_msg), Console rest out').
Proof.
  intros Hv Ht Hm Hx Hinf. unfold main_body.
  unfold seq at 1.
  destruct (print_menu_run (Console (line :: expr :: t :: m :: rest) out))
    as (out0 & ->).
  unfold seq at 1, input at 1. cbn [stdin stdout].
  rewrite (valid_choice_not_0 _ Hv), Hv. cbn [negb].
  unfold seq at 1, input at 1. cbn [stdin stdout].
  unfold seq at 1. cbn [make_function of_result ret].
  unfold seq at 1. rewrite (read_tolerance _ _ _ _ _ Ht).
  unfold seq at 1.
  rewrite (read_float_line _ _ _ _ _ _ Hx (fun E => False_ind _ (Hm E))).
  unfold seq at 1, int_of_float. rewrite Hinf. cbn [throw].
  eexists. reflexivity.
Qed.

(** X20: An infinite answer to [Max iterations] ends the session: after a valid
    choice, an expression and a tolerance, [int] raises [OverflowError]
    outside the [try], and the lines after the answer stay unread. *)
Theorem main_crashes_on_infinite_max_iter line expr t m rest out tol x s :
  valid_choice (strip line) = true ->
  tolerance_answer conv t tol ->
  m <> "" -> float_of_str conv m = Ok x -> Prim2SF x = S754_infinity s ->
  exists out',
    main py conv (Console (line :: expr :: t :: m :: rest) out) =
      Some (Threw (OverflowError int_inf_msg), Console rest out').
Proof.
  intros Hv Ht Hm Hx Hinf.
  destruct (main_body_infinite_max_iter line expr t m rest
              (out ++ [(banner ++ nl)%string])%list tol x s Hv Ht Hm Hx Hinf)
    as (out' & Hbody).
  exists out'. unfold main. cbn [print snd stdin stdout main_loop].
  now rewrite Hbody.
Qed.

Lemma try_bisection f tol max_iter sa sb rest out a b :
  float_of_str conv sa = Ok a ->
  float_of_str conv sb = Ok b ->
  seq (try_except (run_method py conv "1" f tol max_iter)
         (fun e => print ("Error during method: " ++ str_cli_exn py e)))
      (fun _ => ret Next)
    (Console (sa :: sb :: rest) out) =
    (turn_end (bisection f tol max_iter a b),
     Console rest
       ((out ++ ["Left endpoint a: "; "Right endpoint b: "])
          ++ bisection_output py (bisection f tol max_iter a b))%list).
Proof.
  intros Ha Hb. unfold seq at 1. unfold try_except, run_method.
  cbn [String.eqb Ascii.eqb Bool.eqb].
  unfold seq at 1. unfold seq at 1.
  rewrite (read_number_line _ _ _ _ _ Ha).
  unfold seq at 1.
  rewrite (read_number_line _ _ _ _ _ Hb).
  unfold seq at 1.
  destruct (bisection f tol max_iter a b) as [[[[root ferr] iters] logs]|e logs];
    cbn [of_outcome ret throw bisection_output turn_end caught].
  - unfold report. unfold seq at 1, print at 1. cbn [stdin stdout].
    unfold seq at 1. rewrite print_rows_run. cbn [stdin stdout ret].
    unfold seq, print. cbn [stdin stdout fl].
    do 2 f_equal. rewrite <- !app_assoc. reflexivity.
  - destruct (is_Exception e).
    + unfold print. cbn [stdin stdout str_cli_exn].
      do 2 f_equal. rewrite <- !app_assoc. reflexivity.
    + rewrite app_nil_r, <- app_assoc. reflexivity.
Qed.

(** X21: A turn of bisection.  After the choice [1], an expression, answers to
    [Tolerance] and [Max iterations] (empty lines stand for [1e-6] and 50)
    and two endpoints that convert, the turn calls [bisection] on the
    function of the expression with these values, writes its log and its
    result, or [Error during method:] and the message when it raises an
    [Exception], and goes on to the next turn with the lines that follow.
    When the call ends in what is no [Exception] (a [BaseException] of the
    expression), nothing more is written and that leaves [main]. *)
Theorem main_bisection_turn line expr t m sa sb rest out tol max_iter a b :
  strip line = "1" ->
  tolerance_answer conv t tol ->
  max_iter_answer conv m max_iter ->
  float_of_str conv sa = Ok a ->
  float_of_str conv sb = Ok b ->
  let o := bisection (make_function_f py (strip expr)) tol max_iter a b in
  exists pre,
    main_body py conv
      (Console (line :: expr :: t :: m :: sa :: sb :: rest) out) =
      (turn_end o, Console rest (pre ++ bisection_output py o)%list).
Proof.
  intros Hc Ht Hm Ha Hb o. subst o. unfold main_body.
  unfold seq at 1.
  destruct (print_menu_run
              (Console (line :: expr :: t :: m :: sa :: sb :: rest) out))
    as (out0 & ->).
  unfold seq at 1, input at 1. cbn [stdin stdout]. rewrite Hc.
  cbn [String.eqb Ascii.eqb Bool.eqb valid_choice existsb orb negb].
  unfold seq at 1, input at 1. cbn [stdin stdout].
  unfold seq at 1. cbn [make_function of_result ret].
  unfold seq at 1. rewrite (read_tolerance _ _ _ _ _ Ht).
  exists (out0 ++
          ["Select method (0-6): ";
           ("Enter f(x) as a Python expression (use 'x', math funcs allowed):"
              ++ nl ++ " e.g. x**3 - 2*x - 5" ++ nl ++ " f(x) = ")%string;
           "Tolerance (e.g. 1e-6) [default 1e-6]: ";
           "Max iterations [default 50]: ";
           "Left endpoint a: "; "Right endpoint b: "])%list.
  destruct Hm as [(-> & ->)|(Hl & x & Hx & Hi)]; unfold seq at 1.
  - unfold read_float. cbn [read_float_loop stdin stdout String.eqb].
    unfold seq at 1. cbn [ret].
    rewrite (try_bisection _ _ _ _ _ _ _ _ _ Ha Hb).
    do 2 f_equal. rewrite <- !app_assoc. reflexivity.
  - rewrite (read_float_line _ _ _ _ _ _ Hx (fun E => False_ind _ (Hl E))).
    unfold seq at 1. rewrite Hi.
    rewrite (try_bisection _ _ _ _ _ _ _ _ _ Ha Hb).
    do 2 f_equal. rewrite <- !app_assoc. reflexivity.
Qed.

End Turn.

(** ** The pages and sessions of the examples *)

Section Examples.

Local Open Scope string_scope.

Lemma decimal_only_raises_ValueError : float_raises_ValueError decimal_only.
Proof.
  intros s e. unfold decimal_only. cbn [float_of_str].
  destruct (String.eqb s "inf"); [discriminate|].
  destruct (String.eqb s "nan"); [discriminate|].
  destruct (NilZero.uint_of_string s); [discriminate|].
  intros E. injection E as <-. eauto.
Qed.

Lemma names_only_catchable : evaluations_catchable names_only.
Proof.
  intros expr x e. unfold float_eval. cbn [py_eval py_float names_only].
  destruct (dict_set _ _ _ expr) as [v|].
  - destruct v; intros E; try discriminate; now injection E as <-.
  - destruct (no_builtins names_only expr) as [v|].
    + destruct v; intros E; try discriminate; now injection E as <-.
    + intros E. now injection E as <-.
Qed.

Lemma index_exceptions_witness :
  app.index names_only decimal_only bad_request page_itself
    (Request "POST"
       (form_of [("method", "bisection"); ("expr", "x"); ("tol", "abc")])) =
    Err (ValueError "could not convert string to float: 'abc'").
Proof.
  refine (proj1 (index_exceptions names_only decimal_only bad_request
                   page_itself
                   (Request "POST"
                      (form_of [("method", "bisection"); ("expr", "x");
                                ("tol", "abc")])))
            _ eq_refl _).
  left. left. exists "abc". split; [reflexivity|].
  split; [discriminate|reflexivity].
Defined.

Lemma index_unsupported_method_witness :
  app.index names_only decimal_only bad_request page_itself
    (Request "POST" (form_of [("method", "regula_falsi"); ("expr", "x")])) =
    Ok (app.Page None None).
Proof.
  exact (index_unsupported_method names_only decimal_only bad_request
           page_itself
           (Request "POST"
              (form_of [("method", "regula_falsi"); ("expr", "x")]))
           app.f1e6 50 eq_refl eq_refl eq_refl eq_refl eq_refl eq_refl).
Defined.

Lemma index_shows_cli_result_witness :
  shows page_itself app.BisectionResult
    (bisection (app.make_function_f names_only "x") app.f1e6 50 0%float
       1%float)
    (app.index names_only decimal_only bad_request page_itself
       (Request "POST"
          (form_of [("method", "bisection"); ("expr", " x ");
                    ("a", "0"); ("b", "1")]))).
Proof.
  refine (proj1 (index_shows_cli_result names_only decimal_only bad_request
                   page_itself
                   (Request "POST"
                      (form_of [("method", "bisection"); ("expr", " x ");
                                ("a", "0"); ("b", "1")]))
                   " x " app.f1e6 50 eq_refl eq_refl eq_refl eq_refl)
            "0" "1" 0%float 1%float eq_refl eq_refl _ eq_refl _).
  - vm_compute. reflexivity.
  - vm_compute. reflexivity.
Defined.

Lemma main_session_ends_witness :
  exists r c',
    main names_only decimal_only (Console ["9"; "1"; "x"] []) = Some (r, c') /\
    session_end r c'.
Proof.
  destruct (main_session_ends names_only decimal_only
              (Console ["9"; "1"; "x"] [])) as (r & c' & Hmain & _ & Hend).
  exists r, c'. split; [exact Hmain|].
  exact (Hend decimal_only_raises_ValueError names_only_catchable).
Defined.

Lemma main_crashes_on_infinite_max_iter_witness :
  exists out',
    main names_only decimal_only (Console ["1"; "x"; ""; "inf"; "0"] []) =
      Some (Threw (OverflowError int_inf_msg), Console ["0"] out').
Proof.
  refine (main_crashes_on_infinite_max_iter names_only decimal_only
            "1" "x" "" "inf" ["0"] [] f1e6 infinity false _ _ _ _ _).
  - reflexivity.
  - left. split; reflexivity.
  - discriminate.
  - reflexivity.
  - vm_compute. reflexivity.
Defined.

Lemma main_bisection_turn_witness :
  exists pre,
    main_body names_only decimal_only
      (Console ["1"; "x"; ""; ""; "0"; "1"; "0"] []) =
      (Done Next,
       Console ["0"]
         (pre ++ bisection_output names_only
                   (bisection (make_function_f names_only "x") f1e6 50
                      0%float 1%float))%list).
Proof.
  assert (Hend : turn_end (bisection (make_function_f names_only "x") f1e6 50
                             0%float 1%float) = Done Next)
    by (vm_compute; reflexivity).
  rewrite <- Hend.
  refine (main_bisection_turn names_only decimal_only
            "1" "x" "" "" "0" "1" ["0"] [] f1e6 50 0%float 1%float _ _ _ _ _).
  - reflexivity.
  - left. split; reflexivity.
  - left. split; reflexivity.
  - vm_compute. reflexivity.
  - vm_compute. reflexivity.
Defined.

End Examples.

(** ** The names an expression can use *)

Section Names.

Local Open Scope string_scope.

Context {num : Type}.
Variable py : python num.

Lemma dict_of_In {A : Type} (kvs : list (string * A)) k v :
  dict_of kvs k = Some v -> In (k, v) kvs.
Proof.
  induction kvs as [|[k0 v0] kvs IH]; simpl; [discriminate|].
  destruct (dict_of kvs k) as [v'|].
  - intros E. injection E as ->. auto.
  - destruct (String.eqb_spec k k0) as [->|]; [|discriminate].
    intros E. injection E as ->. auto.
Qed.

Lemma underscore_not_abs_pow_x k :
  startswith_underscore k = true ->
  String.eqb k "abs" = false /\ String.eqb k "pow" = false /\
  String.eqb k "x" = false.
Proof.
  destruct k as [|c k]; [discriminate|]. simpl. intros Hc.
  apply Ascii.eqb_eq in Hc. subst c. auto.
Qed.

(** X14: The locals that [f] hands to [eval], in both files, for an argument
    shown as [v]: [x] is the argument; [abs] and [pow] are the built-ins
    (so [pow] is not [math.pow]); no name that starts with an underscore is
    bound; and every other bound name is a public attribute of [math]. *)
Theorem expression_namespace (v : pyobj py) :
  let local := dict_set (MATH_NAMES py) "x" v in
  local "x" = Some v /\
  local "abs" = Some (py_abs py) /\
  local "pow" = Some (py_pow py) /\
  (forall k, startswith_underscore k = true -> local k = None) /\
  (forall k w,
     local k = Some w ->
     k = "x" \/ k = "abs" \/ k = "pow" \/
     (In (k, w) (math_attrs py) /\ startswith_underscore k = false)).
Proof.
  unfold MATH_NAMES, dict_set. cbn [String.eqb Ascii.eqb Bool.eqb andb].
  split; [reflexivity|]. split; [reflexivity|]. split; [reflexivity|]. split.
  - intros k Hk.
    destruct (underscore_not_abs_pow_x k Hk) as (-> & -> & ->).
    destruct (dict_of _ k) as [w|] eqn:E; [|reflexivity].
    apply dict_of_In, filter_In in E. cbn [fst] in E.
    destruct E as (_ & E). now rewrite Hk in E.
  - intros k w.
    destruct (String.eqb_spec k "x"); [auto|].
    destruct (String.eqb_spec k "pow"); [auto|].
    destruct (String.eqb_spec k "abs"); [auto|].
    intros E. apply dict_of_In, filter_In in E. cbn [fst] in E.
    destruct E as (Hin & E). do 3 right. split; [exact Hin|].
    now destruct (startswith_underscore k).
Qed.

End Names.

(** ** Newton-Raphson with the numerical derivative *)

Section NumericalDerivative.

Local Open Scope string_scope.

Lemma central_difference_of_equal_values (c : float) :
  PrimFloat.is_finite c = true ->
  pydiv (c - c)%float (2 * ZOF_CLI.f1e6)%float = Ok 0%float.
Proof.
  intros Hc. rewrite (float_sub_self_zero c Hc). vm_compute. reflexivity.
Qed.

(** X22: the derivative that [auto] stands for, in both files, is the central
    difference [(f(x + h) - f(x - h)) / (2 * h)] with [h = 1e-6].  Where
    [f] takes the same finite value at [x0 + h] and [x0 - h] it is [0.0],
    and Newton-Raphson started there with [max_iter >= 1] raises its
    zero-derivative error at once, with an empty log. *)
Theorem newton_auto_on_flat_function (f : float -> result float)
    (tol : float) (max_iter : Z) (x0 fx c : float) :
  (1 <= max_iter)%Z ->
  f x0 = Ok fx ->
  f (x0 + ZOF_CLI.f1e6)%float = Ok c ->
  f (x0 - ZOF_CLI.f1e6)%float = Ok c ->
  PrimFloat.is_finite c = true ->
  df_approx f x0 = Ok 0%float /\
  app.df_central f x0 = Ok 0%float /\
  newton_raphson f (df_approx f) tol max_iter x0 =
    Raised (ZeroDivisionError newton_msg) [] /\
  app.index_newton f (app.df_central f) tol x0 max_iter =
    Raised (ZeroDivisionError app.newton_msg) [].
Proof.
  intros Hmax Hfx Hp Hm Hc.
  assert (Hdf : df_approx f x0 = Ok 0%float).
  { unfold df_approx. cbn zeta. rewrite Hp, Hm.
    now apply central_difference_of_equal_values. }
  assert (Hdf' : app.df_central f x0 = Ok 0%float).
  { unfold app.df_central. cbn zeta.
    change app.f1e6 with ZOF_CLI.f1e6. rewrite Hp, Hm.
    now apply central_difference_of_equal_values. }
  split; [exact Hdf|]. split; [exact Hdf'|].
  unfold newton_raphson, app.index_newton, range_len.
  destruct (Z.to_nat max_iter) as [|n] eqn:En; [lia|].
  cbn [newton_raphson_loop app.index_newton_loop].
  rewrite Hfx, Hdf, Hdf'. split; reflexivity.
Qed.

Variable py : python float.
Variable conv : conversions.
Variable str_key_error : string -> string.
Context {html : Type}.
Variable render : app.page -> result html.

(** X23: a POST for ['newton'] with an expression and a starting point that
    converts, and [max_iter >= 1].  The derivative is the central
    difference when the ['df_expr'] field is missing, empty, or [auto] in
    any case and with any blanks around it, and the function of that field
    otherwise.  The page shows what [newton_raphson] of [ZOF_CLI.py]
    computes with it: its root and log, with [None] for the error, when it
    returns, an error message and no result when it raises an [Exception].
    What is no [Exception] leaves [index]. *)
Theorem index_shows_cli_newton req expr s0 x0 tol max_iter :
  req_method req = "POST" ->
  req_form req "method" = Some "newton" ->
  req_form req "expr" = Some expr ->
  app.tol_arg conv req = Ok tol ->
  app.max_iter_arg conv req = Ok max_iter ->
  req_form req "x0" = Some s0 -> float_of_str conv s0 = Ok x0 ->
  (1 <= max_iter)%Z ->
  let f := app.make_function_f py (strip expr) in
  let df :=
    match req_form req "df_expr" with
    | Some d =>
        if String.eqb d "" || String.eqb (lower (strip d)) "auto"
        then app.df_central f
        else app.make_function_f py (strip d)
    | None => app.df_central f
    end in
  match newton_raphson f df tol max_iter x0 with
  | Returned (root, _, _, logs) =>
      app.index py conv str_key_error render req =
        render (app.Page
                  (Some (app.NewtonResult (app.ResultDict root None logs)))
                  None)
  | Raised e _ =>
      if is_Exception e
      then exists msg,
             app.index py conv str_key_error render req =
               render (app.Page None (Some msg))
      else app.index py conv str_key_error render req = Err e
  end.
Proof.
  intros Hm Hmeth He Ht Hi H0 Hf0 Hmax f df.
  assert (Hpage : app.index py conv str_key_error render req =
            match app.index_newton f df tol x0 max_iter with
            | Returned r => render (app.Page (Some (app.NewtonResult r)) None)
            | Raised e _ =>
                if is_Exception e
                then render (app.Page None (Some (str_exn py e)))
                else Err e
            end).
  { unfold app.index. rewrite Hm, Ht, Hi. simpl.
    unfold app.index_try. rewrite He, Hmeth. simpl.
    unfold app.float_item, app.form_item. rewrite H0. simpl.
    rewrite Hf0. simpl. fold f. subst df.
    destruct (req_form req "df_expr") as [d|]; simpl.
    - destruct (String.eqb d ""); simpl.
      + now destruct (app.index_newton f (app.df_central f) tol x0 max_iter).
      + destruct (String.eqb (lower (strip d)) "auto"); simpl.
        * now destruct (app.index_newton f (app.df_central f) tol x0
                          max_iter).
        * now destruct (app.index_newton f _ tol x0 max_iter).
    - now destruct (app.index_newton f (app.df_central f) tol x0 max_iter). }
  pose proof (index_newton_loop_same tol max_iter f df (range_len max_iter)
                1 x0 None []) as Hsame.
  fold (newton_raphson f df tol max_iter x0) in Hsame.
  fold (app.index_newton f df tol x0 max_iter) in Hsame.
  unfold same_newton_run in Hsame.
  destruct (newton_raphson f df tol max_iter x0)
    as [[[[root err] iters] logs]|e logs];
    destruct (app.index_newton f df tol x0 max_iter) as [r|e' logs'];
    try (exfalso; apply Hsame; unfold range_len; lia).
  - destruct Hsame as (Hr & Hl & Hn); [unfold range_len; lia|].
    rewrite Hpage. destruct r as [root' error' logs']. simpl in *.
    now subst.
  - destruct Hsame as (_ & [<-|(-> & ->)]); [unfold range_len; lia| |].
    + rewrite Hpage. destruct (is_Exception e); eauto.
    + rewrite Hpage. simpl. eauto.
Qed.

End NumericalDerivative.

Section NumericalDerivativeExamples.

Local Open Scope string_scope.

Lemma newton_auto_on_flat_function_witness :
  newton_raphson constant_3 (df_approx constant_3) tol_1e6 50 1%float =
    Raised (ZeroDivisionError newton_msg) [].
Proof.
  refine (proj1 (proj2 (proj2 (newton_auto_on_flat_function constant_3 tol_1e6
                                 50 1%float 3%float 3%float _ _ _ _ _)))).
  - lia.
  - reflexivity.
  - reflexivity.
  - reflexivity.
  - vm_compute. reflexivity.
Defined.

Lemma index_shows_cli_newton_witness :
  exists r,
    app.index names_only decimal_only bad_request page_itself
      (Request "POST"
         (form_of [("method", "newton"); ("expr", "x"); ("x0", "1");
                   ("df_expr", " Auto ")])) =
      Ok (app.Page (Some (app.NewtonResult r)) None) /\
    app.rd_error r = None.
Proof.
  pose proof (index_shows_cli_newton names_only decimal_only bad_request
                page_itself
                (Request "POST"
                   (form_of [("method", "newton"); ("expr", "x");
                             ("x0", "1"); ("df_expr", " Auto ")]))
                "x" "1" 1%float app.f1e6 50
                eq_refl eq_refl eq_refl eq_refl eq_refl eq_refl
                ltac:(vm_compute; reflexivity) ltac:(lia)) as H.
  cbv zeta in H.
  destruct (newton_raphson _ _ _ _ _) as [[[[root err] iters] logs]|e logs]
    eqn:E in H.
  - eexists. split; [exact H|reflexivity].
  - exfalso. vm_compute in E. discriminate.
Defined.

End NumericalDerivativeExamples.
